(** * ozterm: a shallow embedding of the terminal core (ozterm.c)

    The development follows ozterm.c function by function.  Machine
    integers are modelled in [Z]; the conversions the C code performs when
    it passes an [int] to an [int16_t] parameter are written out with
    [to_int16].  The cell grid of a screen is a row-major [list OztermCell]
    read and written by index; the loops of the source are folds over the
    index ranges they traverse.  Host callbacks are recorded in a trace. *)

From Stdlib Require Import ZArith Lia String Ascii.
From stdpp Require Import base tactics option list list_numbers.

Local Open Scope Z_scope.

(** ** Machine integers and <ctype.h> *)

(** Conversion of an [int] to [int16_t] (two's complement wrap-around). *)
Definition to_int16 (z : Z) : Z := (z + 32768) mod 65536 - 32768.

(** Conversion to a 32-bit [int]. *)
Definition to_int32 (z : Z) : Z := (z + 2147483648) mod 4294967296 - 2147483648.

(** Conversion to [uint8_t]. *)
Definition to_uint8 (z : Z) : Z := z mod 256.
Definition to_uint16 (z : Z) : Z := z mod 65536.

(** The code of a character literal. *)
Definition ch (a : ascii) : Z := Z.of_N (N_of_ascii a).
Arguments ch a%_char.

(** The bytes of a string literal. *)
Definition bytes (s : string) : list Z := map ch (list_ascii_of_string s).

Definition ESC : Z := 27.   (* '\033' *)
Definition BEL : Z := 7.    (* '\a' *)
Definition LF  : Z := 10.   (* '\n' *)
Definition CR  : Z := 13.   (* '\r' *)
Definition BS  : Z := 8.    (* '\b' *)
Definition TAB : Z := 9.    (* '\t' *)

(** [isgraph], [isspace], [isdigit] and [toupper] in the "C" locale. *)
Definition isgraph (c : Z) : bool := (33 <=? c) && (c <=? 126).
Definition isspace (c : Z) : bool := (c =? 32) || ((9 <=? c) && (c <=? 13)).
Definition isdigit (c : Z) : bool := (48 <=? c) && (c <=? 57).
Definition toupper (c : Z) : Z := if (97 <=? c) && (c <=? 122) then c - 32 else c.

Definition TAB_WIDTH : Z := 8.

(** C('A') == Control-A *)
Definition C (x : Z) : Z := x - ch "@".

(** ** <stdlib.h>: strtol and atoi on a C string (the bytes before the NUL) *)

Fixpoint strtol_digits (s : list Z) (acc : Z) : Z * list Z :=
  match s with
  | d :: s' => if isdigit d then strtol_digits s' (acc * 10 + (d - 48)) else (acc, s)
  | [] => (acc, [])
  end.

Fixpoint skip_spaces (s : list Z) : list Z :=
  match s with
  | c :: s' => if isspace c then skip_spaces s' else s
  | [] => []
  end.

Definition LONG_MAX : Z := 9223372036854775807.
Definition LONG_MIN : Z := -9223372036854775808.

(** [strtol(s, &end, 10)]: the value, saturated to the range of [long]
    (LP64), and the unread rest.  When no digit is found the value is 0 and
    the end pointer is [s] itself. *)
Definition strtol (s : list Z) : Z * list Z :=
  let s1 := skip_spaces s in
  let '(neg, s2) :=
    match s1 with
    | c :: r => if c =? ch "-" then (true, r) else if c =? ch "+" then (false, r) else (false, s1)
    | [] => (false, s1)
    end in
  match s2 with
  | d :: _ =>
      if isdigit d then
        let '(v, rest) := strtol_digits s2 0 in
        let v := if neg then - v else v in
        (Z.max LONG_MIN (Z.min LONG_MAX v), rest)
      else (0, s)
  | [] => (0, s)
  end.

(** [atoi(s)] is [(int) strtol(s, NULL, 10)]. *)
Definition atoi (s : list Z) : Z := to_int32 (fst (strtol s)).

(** [strchr(s, c)]: the text before the first [c] and the text after it. *)
Fixpoint strchr (s : list Z) (c : Z) : option (list Z * list Z) :=
  match s with
  | [] => None
  | d :: s' =>
      if d =? c then Some ([], s')
      else match strchr s' c with
           | Some (pre, post) => Some (d :: pre, post)
           | None => None
           end
  end.

(** [strcmp(a, b) == 0] *)
Fixpoint streq (a b : list Z) : bool :=
  match a, b with
  | [], [] => true
  | x :: a', y :: b' => (x =? y) && streq a' b'
  | _, _ => false
  end.

(** ** <stdio.h>: the conversions of snprintf used by the source *)

Fixpoint dec_digits (fuel : nat) (n : Z) (acc : list Z) : list Z :=
  match fuel with
  | O => acc
  | S fuel' =>
      let acc' := (48 + n mod 10) :: acc in
      if n <? 10 then acc' else dec_digits fuel' (n / 10) acc'
  end.

(** ["%d"] for an [int] (at most ten digits). *)
Definition fmt_d (n : Z) : list Z :=
  if n <? 0 then ch "-" :: dec_digits 10 (- n) [] else dec_digits 10 n [].

(** [snprintf(buf, max, ...)] stores at most [max - 1] bytes; the return
    value is the length of the untruncated text. *)
Definition snprintf (max : Z) (text : list Z) : list Z * Z :=
  (take (Z.to_nat (max - 1)) text, Z.of_nat (length text)).

(** ** Loops *)

(** [for (i = lo; i < hi; ++i) body] *)
Definition for_up {S : Type} (lo hi : Z) (body : Z → S → S) (s : S) : S :=
  fold_left (fun s i => body i s) (seqZ lo (hi - lo)) s.

(** [for (i = hi; i >= lo; --i) body] *)
Definition for_down {S : Type} (hi lo : Z) (body : Z → S → S) (s : S) : S :=
  fold_left (fun s i => body i s) (rev (seqZ lo (hi - lo + 1))) s.

(** ** Data model

    The header ozterm.h is not among the sources: the records below hold the
    fields ozterm.c reads and writes, with the names it uses. *)

Record OztermCell := mkCell {
  character : Z;
  color : Z;
  protected : bool
}.

Record OztermScreen := mkScreen {
  buffer : list OztermCell;
  cursor_row : Z;
  cursor_column : Z;
  attr_protected : bool
}.

(** The target of the [screen_active] pointer. *)
Inductive ActiveScreen := MainScreen | AlternativeScreen.

(** Calls made to the host through the function pointers of the terminal. *)
Inductive HostCall :=
| WriteToMaster (data : list Z)
| Refresh
| SetCharacter (row column c : Z)
| MoveCursor (old_row old_column row column : Z).

Record Ozterm := mkOzterm {
  screen_main : OztermScreen;
  screen_alternative : OztermScreen;
  screen_active : ActiveScreen;
  alternative_active : bool;
  saved_cursor_row : Z;
  saved_cursor_column : Z;
  row_count : Z;
  column_count : Z;
  scroll_top : Z;
  scroll_bottom : Z;
  term_color : Z;                       (* terminal->color *)
  scrollback : list (list OztermCell);
  scrollback_head : Z;
  scrollback_count : Z;
  scroll_offset : Z;
  write_to_master_function : bool;      (* is the pointer non-NULL? *)
  refresh_function : bool;
  set_character_function : bool;
  move_cursor_function : bool;
  host_calls : list HostCall            (* trace of the calls made so far *)
}.

(** The static locals of [ozterm_put_character]. *)
Inductive ParseState :=
| STATE_NORMAL | STATE_ESC | STATE_CSI | STATE_OSC | STATE_G0 | STATE_G1 | STATE_HASH.

Record Parser := mkParser {
  parse_state : ParseState;
  param_buf : list Z;      (* the C string held in param_buf[32] *)
  param_len : Z;
  seq_buf : list Z;
  seq_len : Z;
  osc_buf : list Z;
  osc_index : Z;
  final_byte : Z;
  is_private : bool
}.

(** Zero-initialised statics. *)
Definition parser_init : Parser :=
  mkParser STATE_NORMAL [] 0 [] 0 [] 0 0 false.

(** *** Field assignment *)

Definition set_buffer (b : list OztermCell) (s : OztermScreen) : OztermScreen :=
  mkScreen b (cursor_row s) (cursor_column s) (attr_protected s).
Definition set_cursor_row (r : Z) (s : OztermScreen) : OztermScreen :=
  mkScreen (buffer s) r (cursor_column s) (attr_protected s).
Definition set_cursor_column (c : Z) (s : OztermScreen) : OztermScreen :=
  mkScreen (buffer s) (cursor_row s) c (attr_protected s).
Definition set_attr_protected (p : bool) (s : OztermScreen) : OztermScreen :=
  mkScreen (buffer s) (cursor_row s) (cursor_column s) p.

(** [*terminal->screen_active] *)
Definition active (t : Ozterm) : OztermScreen :=
  match screen_active t with
  | MainScreen => screen_main t
  | AlternativeScreen => screen_alternative t
  end.

Definition set_screen_active (a : ActiveScreen) (alt : bool) (t : Ozterm) : Ozterm :=
  mkOzterm (screen_main t) (screen_alternative t) a alt
    (saved_cursor_row t) (saved_cursor_column t) (row_count t) (column_count t)
    (scroll_top t) (scroll_bottom t) (term_color t) (scrollback t) (scrollback_head t)
    (scrollback_count t) (scroll_offset t) (write_to_master_function t) (refresh_function t)
    (set_character_function t) (move_cursor_function t) (host_calls t).
Definition set_saved_cursor (r c : Z) (t : Ozterm) : Ozterm :=
  mkOzterm (screen_main t) (screen_alternative t) (screen_active t) (alternative_active t)
    r c (row_count t) (column_count t)
    (scroll_top t) (scroll_bottom t) (term_color t) (scrollback t) (scrollback_head t)
    (scrollback_count t) (scroll_offset t) (write_to_master_function t) (refresh_function t)
    (set_character_function t) (move_cursor_function t) (host_calls t).
Definition set_scroll_region (top bottom : Z) (t : Ozterm) : Ozterm :=
  mkOzterm (screen_main t) (screen_alternative t) (screen_active t) (alternative_active t)
    (saved_cursor_row t) (saved_cursor_column t) (row_count t) (column_count t)
    top bottom (term_color t) (scrollback t) (scrollback_head t)
    (scrollback_count t) (scroll_offset t) (write_to_master_function t) (refresh_function t)
    (set_character_function t) (move_cursor_function t) (host_calls t).
Definition set_scrollback (sb : list (list OztermCell)) (head count : Z) (t : Ozterm) : Ozterm :=
  mkOzterm (screen_main t) (screen_alternative t) (screen_active t) (alternative_active t)
    (saved_cursor_row t) (saved_cursor_column t) (row_count t) (column_count t)
    (scroll_top t) (scroll_bottom t) (term_color t) sb head
    count (scroll_offset t) (write_to_master_function t) (refresh_function t)
    (set_character_function t) (move_cursor_function t) (host_calls t).
Definition set_scroll_offset (o : Z) (t : Ozterm) : Ozterm :=
  mkOzterm (screen_main t) (screen_alternative t) (screen_active t) (alternative_active t)
    (saved_cursor_row t) (saved_cursor_column t) (row_count t) (column_count t)
    (scroll_top t) (scroll_bottom t) (term_color t) (scrollback t) (scrollback_head t)
    (scrollback_count t) o (write_to_master_function t) (refresh_function t)
    (set_character_function t) (move_cursor_function t) (host_calls t).
Definition set_host_calls (l : list HostCall) (t : Ozterm) : Ozterm :=
  mkOzterm (screen_main t) (screen_alternative t) (screen_active t) (alternative_active t)
    (saved_cursor_row t) (saved_cursor_column t) (row_count t) (column_count t)
    (scroll_top t) (scroll_bottom t) (term_color t) (scrollback t) (scrollback_head t)
    (scrollback_count t) (scroll_offset t) (write_to_master_function t) (refresh_function t)
    (set_character_function t) (move_cursor_function t) l.
Definition set_callbacks (w r s m : bool) (t : Ozterm) : Ozterm :=
  mkOzterm (screen_main t) (screen_alternative t) (screen_active t) (alternative_active t)
    (saved_cursor_row t) (saved_cursor_column t) (row_count t) (column_count t)
    (scroll_top t) (scroll_bottom t) (term_color t) (scrollback t) (scrollback_head t)
    (scrollback_count t) (scroll_offset t) w r s m (host_calls t).

(** Assignment through [terminal->screen_active]: the screen the pointer
    designates is replaced, the other one is kept. *)
Definition set_active (s : OztermScreen) (t : Ozterm) : Ozterm :=
  mkOzterm
    (match screen_active t with MainScreen => s | AlternativeScreen => screen_main t end)
    (match screen_active t with MainScreen => screen_alternative t | AlternativeScreen => s end)
    (screen_active t) (alternative_active t)
    (saved_cursor_row t) (saved_cursor_column t) (row_count t) (column_count t)
    (scroll_top t) (scroll_bottom t) (term_color t) (scrollback t) (scrollback_head t)
    (scrollback_count t) (scroll_offset t) (write_to_master_function t) (refresh_function t)
    (set_character_function t) (move_cursor_function t) (host_calls t).

Definition set_active_buffer (b : list OztermCell) (t : Ozterm) : Ozterm :=
  set_active (set_buffer b (active t)) t.

(** *** Cells of a buffer

    An access outside the allocated buffer is undefined behaviour in C; in
    the model a read there yields a zeroed cell and a write is dropped. *)

Definition zero_cell : OztermCell := mkCell 0 0 false.

Definition rd (buf : list OztermCell) (i : Z) : OztermCell :=
  if decide (0 ≤ i) then default zero_cell (buf !! Z.to_nat i) else zero_cell.

Definition wr (buf : list OztermCell) (i : Z) (c : OztermCell) : list OztermCell :=
  if decide (0 ≤ i) then <[Z.to_nat i := c]> buf else buf.

(** [cell.character = ' '; cell.color = terminal->color; cell.protected = 0;] *)
Definition blank (t : Ozterm) : OztermCell := mkCell (ch " ") (term_color t) false.

(** [cell.character = c; cell.color = col;] with the protected bit kept. *)
Definition repaint (c col : Z) (cell : OztermCell) : OztermCell :=
  mkCell c col (protected cell).

(** *** Calls to the host *)

(** [if (fn) fn(terminal, ...)]: the call is recorded when the pointer is set. *)
Definition call_host (installed : bool) (e : HostCall) (t : Ozterm) : Ozterm :=
  set_host_calls (if installed then host_calls t ++ [e] else host_calls t) t.

Definition call_refresh (t : Ozterm) : Ozterm :=
  call_host (refresh_function t) Refresh t.

(** static [write_to_master] *)
Definition write_to_master (t : Ozterm) (data : list Z) (size : Z) : Ozterm :=
  call_host (write_to_master_function t && (size >? 0))
    (WriteToMaster (take (Z.to_nat size) data)) t.

Definition ozterm_reset_attributes (t : Ozterm) : Ozterm :=
  set_active (set_attr_protected false (active t)) t.

(** ** Constants of ozterm.h *)

(** Modelled from the spec: the header ozterm.h is not among the sources,
    so the values of [SCROLLBACK_LINES], of the modifier bits and of the
    key codes are unknown.  They are taken as parameters.  The spec gives
    the scrollback capacity as implementation-defined, the modifier mask as
    bits for LSHIFT, RSHIFT, ALT and CTRL, and the named keys as a closed
    enumeration; a key is a [uint8_t]. *)
Class OztermHeader := {
  SCROLLBACK_LINES : Z;
  OZTERM_KEYM_LEFTSHIFT : Z;
  OZTERM_KEYM_RIGHTSHIFT : Z;
  OZTERM_KEYM_ALT : Z;
  OZTERM_KEYM_CTRL : Z;
  OZTERM_KEY_F1 : Z;
  OZTERM_KEY_F2 : Z;
  OZTERM_KEY_F3 : Z;
  OZTERM_KEY_F4 : Z;
  OZTERM_KEY_F5 : Z;
  OZTERM_KEY_F6 : Z;
  OZTERM_KEY_F7 : Z;
  OZTERM_KEY_F8 : Z;
  OZTERM_KEY_F9 : Z;
  OZTERM_KEY_F10 : Z;
  OZTERM_KEY_F11 : Z;
  OZTERM_KEY_F12 : Z;
  OZTERM_KEY_HOME : Z;
  OZTERM_KEY_END : Z;
  OZTERM_KEY_UP : Z;
  OZTERM_KEY_DOWN : Z;
  OZTERM_KEY_LEFT : Z;
  OZTERM_KEY_RIGHT : Z;
  OZTERM_KEY_PAGEUP : Z;
  OZTERM_KEY_PAGEDOWN : Z;
  OZTERM_KEY_INSERT : Z;
  OZTERM_KEY_DELETE : Z;
  OZTERM_KEY_RETURN : Z;
  OZTERM_KEY_BACKSPACE : Z;
  OZTERM_KEY_ESCAPE : Z;
  OZTERM_KEY_TAB : Z
}.

(** The case labels of the switch in [ozterm_send_key], in source order. *)
Definition key_labels `{OztermHeader} : list Z :=
  [ OZTERM_KEY_F1; OZTERM_KEY_F2; OZTERM_KEY_F3; OZTERM_KEY_F4;
    OZTERM_KEY_F5; OZTERM_KEY_F6; OZTERM_KEY_F7; OZTERM_KEY_F8;
    OZTERM_KEY_F9; OZTERM_KEY_F10; OZTERM_KEY_F11; OZTERM_KEY_F12;
    OZTERM_KEY_HOME; OZTERM_KEY_END; OZTERM_KEY_UP; OZTERM_KEY_DOWN;
    OZTERM_KEY_LEFT; OZTERM_KEY_RIGHT; OZTERM_KEY_PAGEUP; OZTERM_KEY_PAGEDOWN;
    OZTERM_KEY_INSERT; OZTERM_KEY_DELETE;
    OZTERM_KEY_RETURN; OZTERM_KEY_BACKSPACE; OZTERM_KEY_ESCAPE; OZTERM_KEY_TAB ].

(** ** Cursor *)

Definition ozterm_move_cursor (t : Ozterm) (row column : Z) : Ozterm :=
  let row := to_int16 row in
  let column := to_int16 column in
  let row := if row >=? row_count t then to_int16 (row_count t - 1) else row in
  let row := if row <? 0 then 0 else row in
  let column := if column >=? column_count t then to_int16 (column_count t - 1) else column in
  let column := if column <? 0 then 0 else column in
  let t := call_host (move_cursor_function t)
             (MoveCursor (cursor_row (active t)) (cursor_column (active t)) row column) t in
  let t := set_active (set_cursor_row row (active t)) t in
  set_active (set_cursor_column column (active t)) t.

Definition ozterm_move_cursor_diff (t : Ozterm) (row column : Z) : Ozterm :=
  let row := to_int16 row in
  let column := to_int16 column in
  ozterm_move_cursor t (cursor_row (active t) + row) (cursor_column (active t) + column).

(** ** Scrollback view *)

Definition ozterm_scroll (t : Ozterm) (scroll_offset : Z) : Ozterm :=
  let scroll_offset := to_int16 scroll_offset in
  let scroll_offset :=
    if scroll_offset >? scrollback_count t then scrollback_count t else scroll_offset in
  let scroll_offset := if scroll_offset <? 0 then 0 else scroll_offset in
  call_refresh (set_scroll_offset scroll_offset t).

Definition ozterm_get_scroll (t : Ozterm) : Z := scroll_offset t.

(** ** Grid operations *)

Section Grid.
Context `{OztermHeader}.

(** The [columns] cells starting at [&buf[start]].  An address before the
    buffer is undefined behaviour in C; the model yields no cell there, and
    only the cells inside the buffer for an address near its end. *)
Definition row_slice (buf : list OztermCell) (start columns : Z) : list OztermCell :=
  if decide (0 ≤ start)
  then take (Z.to_nat columns) (drop (Z.to_nat start) buf)
  else [].

Definition ozterm_scroll_up_region (t : Ozterm) (lines : Z) : Ozterm :=
  let lines := if lines <=? 0 then 1 else lines in
  let top := scroll_top t in
  let bottom := scroll_bottom t in
  let columns := column_count t in
  let buf := buffer (active t) in
  let lines := if lines >? bottom - top + 1 then bottom - top + 1 else lines in
  (* Scroll UP: move lines up *)
  let buf :=
    for_up top (bottom - lines + 1) (fun y =>
      for_up 0 columns (fun x buf =>
        let from := (y + lines) * columns + x in
        let to := y * columns + x in
        if protected (rd buf to) then buf else wr buf to (rd buf from))) buf in
  (* Clear newly exposed lines at the bottom *)
  let buf :=
    for_up (bottom - lines + 1) (bottom + 1) (fun row =>
      for_up 0 columns (fun col buf =>
        wr buf (row * columns + col) (blank t))) buf in
  call_refresh (set_active_buffer buf t).

Definition ozterm_scroll_up (t : Ozterm) (lines : Z) : Ozterm :=
  let lines := if lines <=? 0 then 1 else lines in
  let t :=
    for_up 0 lines (fun l t =>
      let top := scroll_top t + l in
      let line := row_slice (buffer (active t)) (top * column_count t) (column_count t) in
      let sb := <[Z.to_nat (scrollback_head t) := line]> (scrollback t) in
      let head := (scrollback_head t + 1) mod SCROLLBACK_LINES in
      let count :=
        if scrollback_count t <? SCROLLBACK_LINES
        then scrollback_count t + 1 else scrollback_count t in
      set_scrollback sb head count t) t in
  ozterm_scroll_up_region t lines.

Definition ozterm_scroll_down_region (t : Ozterm) (lines : Z) : Ozterm :=
  let lines := if lines <=? 0 then 1 else lines in
  let top := scroll_top t in
  let bottom := scroll_bottom t in
  let columns := column_count t in
  let buf := buffer (active t) in
  (* Clamp lines to available region *)
  let lines := if lines >? bottom - top + 1 then bottom - top + 1 else lines in
  (* Scroll DOWN: move lines from bottom up to top *)
  let buf :=
    for_down bottom (top + lines) (fun row =>
      for_up 0 columns (fun col buf =>
        let to := row * columns + col in
        let from := (row - lines) * columns + col in
        if protected (rd buf to) then buf else wr buf to (rd buf from))) buf in
  (* Clear top N lines *)
  let buf :=
    for_up top (top + lines) (fun row =>
      for_up 0 columns (fun col buf =>
        wr buf (row * columns + col) (blank t))) buf in
  call_refresh (set_active_buffer buf t).

Definition ozterm_insert_lines (t : Ozterm) (from_row count : Z) : Ozterm :=
  if count <=? 0 then t else
  let top := from_row in
  let bottom := scroll_bottom t in
  let columns := column_count t in
  if (top <? scroll_top t) || (top >? bottom) then t else
  let count := if count >? bottom - top + 1 then bottom - top + 1 else count in
  let buf := buffer (active t) in
  (* Shift lines down *)
  let buf :=
    for_down bottom (top + count) (fun row =>
      for_up 0 columns (fun col buf =>
        let to := row * columns + col in
        let from := (row - count) * columns + col in
        if protected (rd buf to) then buf else wr buf to (rd buf from))) buf in
  (* Clear inserted lines *)
  let buf :=
    for_up top (top + count) (fun row =>
      for_up 0 columns (fun col buf =>
        wr buf (row * columns + col) (blank t))) buf in
  call_refresh (set_active_buffer buf t).

Definition ozterm_delete_lines (t : Ozterm) (from_row count : Z) : Ozterm :=
  if count <=? 0 then t else
  let top := from_row in
  let bottom := scroll_bottom t in
  let columns := column_count t in
  if (top <? scroll_top t) || (top >? bottom) then t else
  let count := if count >? bottom - top + 1 then bottom - top + 1 else count in
  let buf := buffer (active t) in
  (* Shift lines up *)
  let buf :=
    for_up top (bottom - count + 1) (fun row =>
      for_up 0 columns (fun col buf =>
        let to := row * columns + col in
        let from := (row + count) * columns + col in
        if protected (rd buf to) then buf else wr buf to (rd buf from))) buf in
  (* Clear bottom lines *)
  let buf :=
    for_up (bottom - count + 1) (bottom + 1) (fun row =>
      for_up 0 columns (fun col buf =>
        wr buf (row * columns + col) (blank t))) buf in
  call_refresh (set_active_buffer buf t).

Definition ozterm_clear (t : Ozterm) : Ozterm :=
  let video :=
    for_up 0 (row_count t * column_count t) (fun i video => wr video i (blank t))
      (buffer (active t)) in
  ozterm_move_cursor (set_active_buffer video t) 0 0.

(** [while (src >= x && video[src].protected) src--;] where [video] is the
    row starting at [base]. *)
Fixpoint skip_protected_down (fuel : nat) (buf : list OztermCell) (base x src : Z) : Z :=
  match fuel with
  | O => src
  | S fuel' =>
      if (src >=? x) && protected (rd buf (base + src))
      then skip_protected_down fuel' buf base x (src - 1)
      else src
  end.

(** [while (src < columns && video[src].protected) src++;] *)
Fixpoint skip_protected_up (fuel : nat) (buf : list OztermCell) (base columns src : Z) : Z :=
  match fuel with
  | O => src
  | S fuel' =>
      if (src <? columns) && protected (rd buf (base + src))
      then skip_protected_up fuel' buf base columns (src + 1)
      else src
  end.

(** [count] is an [int16_t].  For a count that is negative as [int16_t] the
    loops below index [video] before the cursor row and past its end; where
    that leaves the buffer the C code has undefined behaviour, which the
    total [rd] and [wr] do not show: the theorems about this function and
    the next assume a count that is not negative. *)
Definition ozterm_line_insert_characters (t : Ozterm) (c count : Z) : Ozterm :=
  let count := to_int16 count in
  let base := cursor_row (active t) * column_count t in
  let x := cursor_column (active t) in
  if x >=? column_count t then t else
  let count := if x + count >=? column_count t then to_int16 (column_count t - x) else count in
  let buf := buffer (active t) in
  (* Shift cells to the right (skip protected targets) *)
  let buf :=
    for_down (column_count t - 1) (x + count) (fun i buf =>
      if protected (rd buf (base + i)) then buf else
      let src := skip_protected_down (Z.to_nat (i - count - x + 1)) buf base x (i - count) in
      if src >=? x then wr buf (base + i) (rd buf (base + src))
      else wr buf (base + i) (blank t)) buf in
  (* Fill inserted area *)
  let buf :=
    for_up 0 count (fun i buf =>
      if protected (rd buf (base + (x + i))) then buf
      else wr buf (base + (x + i)) (blank t)) buf in
  set_active_buffer buf t.

Definition ozterm_line_delete_characters (t : Ozterm) (count : Z) : Ozterm :=
  let count := to_int16 count in
  let base := cursor_row (active t) * column_count t in
  let x := cursor_column (active t) in
  if x >=? column_count t then t else
  let count := if x + count >=? column_count t then to_int16 (column_count t - x) else count in
  let buf := buffer (active t) in
  (* Shift cells left (skip protected targets) *)
  let buf :=
    for_up x (column_count t - count) (fun i buf =>
      if protected (rd buf (base + i)) then buf else
      let src :=
        skip_protected_up (Z.to_nat (column_count t - (i + count))) buf base
          (column_count t) (i + count) in
      if src <? column_count t then wr buf (base + i) (rd buf (base + src))
      else wr buf (base + i) (blank t)) buf in
  (* Clear vacated cells at end *)
  let buf :=
    for_up (column_count t - count) (column_count t) (fun i buf =>
      if protected (rd buf (base + i)) then buf
      else wr buf (base + i) (blank t)) buf in
  set_active_buffer buf t.

End Grid.

(** ** Put character *)

Section Terminal.
Context `{OztermHeader}.

(** The last branch of [ozterm_put_character_and_cursor], taken when
    [isgraph(c) || isspace(c)] holds for a byte that is none of
    ['\n'], ['\r'], ['\b'], ['\t']. *)
Definition put_graphic_and_cursor (t : Ozterm) (c : Z) : Ozterm :=
  (* Auto-wrap logic *)
  let t :=
    if cursor_column (active t) >=? column_count t then
      let t := set_active (set_cursor_column 0 (active t)) t in
      if cursor_row (active t) =? scroll_bottom t
      then ozterm_scroll_up t 1
      else set_active (set_cursor_row (cursor_row (active t) + 1) (active t)) t
    else t in
  let row := cursor_row (active t) in
  let column := cursor_column (active t) in
  let cell := mkCell c (term_color t) (attr_protected (active t)) in
  let t := set_active_buffer (wr (buffer (active t)) (row * column_count t + column) cell) t in
  (* visual update *)
  let t := call_host (set_character_function t) (SetCharacter row column c) t in
  ozterm_move_cursor t row (column + 1).

(** The recursive call for ['\t'] passes [' '], which reaches the last
    branch; the recursion is unfolded into [put_graphic_and_cursor]. *)
Definition ozterm_put_character_and_cursor (t : Ozterm) (c : Z) : Ozterm :=
  if c =? LF then
    if cursor_row (active t) =? scroll_bottom t
    then ozterm_scroll_up t 1
    else ozterm_move_cursor t (cursor_row (active t) + 1) (cursor_column (active t))
  else if c =? CR then
    ozterm_move_cursor t (cursor_row (active t)) 0
  else if c =? BS then
    if cursor_column (active t) >? 0 then ozterm_move_cursor_diff t 0 (-1) else t
  else if c =? TAB then
    let col := cursor_column (active t) in
    let spaces := TAB_WIDTH - Z.rem col TAB_WIDTH in
    for_up 0 spaces (fun _ t => put_graphic_and_cursor t (ch " ")) t
  else if isgraph c || isspace c then
    put_graphic_and_cursor t c
  else t.

(** ** Screen swap *)

Definition ozterm_switch_to_alt_screen (t : Ozterm) : Ozterm :=
  call_refresh (ozterm_clear (set_screen_active AlternativeScreen true t)).

Definition ozterm_restore_main_screen (t : Ozterm) : Ozterm :=
  call_refresh (set_screen_active MainScreen false t).

(** ** CSI dispatch *)

(** [p1] and [p2] as computed from the parameter string. *)
Definition csi_params (param : list Z) : Z * Z :=
  match strchr param (ch ";") with
  | Some (pre, post) => (atoi pre, atoi post)
  | None => (match param with [] => 1 | _ => atoi param end, 1)
  end.

(** The body shared by the erase loops:
    [if (!buf[index].protected) { character = ' '; color = terminal->color; }] *)
Definition erase_cell (t : Ozterm) (index : Z) (buf : list OztermCell) : list OztermCell :=
  if protected (rd buf index) then buf
  else wr buf index (repaint (ch " ") (term_color t) (rd buf index)).

(** [case 'J'] *)
Definition csi_J (t : Ozterm) (param : list Z) : Ozterm :=
  let mode := match param with [] => 0 | _ => atoi param end in
  let cy := cursor_row (active t) in
  let cx := cursor_column (active t) in
  let buf := buffer (active t) in
  let buf :=
    if mode =? 0 then
      (* From cursor to end of screen *)
      for_up cy (row_count t) (fun y =>
        let x_start := if y =? cy then cx else 0 in
        for_up x_start (column_count t) (fun x =>
          erase_cell t (y * column_count t + x))) buf
    else if mode =? 1 then
      (* From top to cursor *)
      for_up 0 (cy + 1) (fun y =>
        let x_end := if y =? cy then cx + 1 else column_count t in
        for_up 0 x_end (fun x =>
          erase_cell t (y * column_count t + x))) buf
    else
      (* Entire screen *)
      for_up 0 (row_count t) (fun y =>
        for_up 0 (column_count t) (fun x =>
          erase_cell t (y * column_count t + x))) buf in
  set_active_buffer buf t.

(** [case 'K'] *)
Definition csi_K (t : Ozterm) (param : list Z) : Ozterm :=
  let y := cursor_row (active t) in
  let mode := match param with [] => 0 | _ => atoi param end in
  let x_start := if mode =? 0 then cursor_column (active t) else 0 in
  let x_end := if mode =? 1 then cursor_column (active t) + 1 else column_count t in
  let buf :=
    for_up x_start x_end (fun x => erase_cell t (y * column_count t + x))
      (buffer (active t)) in
  set_active_buffer buf t.

(** [case 'm']: the loop over the parameter list.  Every iteration reads
    at least one byte when the string holds digits and semicolons only, so
    the length of the string bounds the number of iterations. *)
Fixpoint sgr_loop (fuel : nat) (p : list Z) (t : Ozterm) : Ozterm :=
  match fuel with
  | O => t
  | S fuel' =>
      match p with
      | [] => t
      | _ :: _ =>
          let '(v, p') := strtol p in
          let val := to_int32 v in
          let t :=
            if val =? 0 then ozterm_reset_attributes t
            else if val =? 8 then set_active (set_attr_protected true (active t)) t
            else t in
          let p' := match p' with
                    | c :: r => if c =? ch ";" then r else p'
                    | [] => p'
                    end in
          sgr_loop fuel' p' t
      end
  end.

Definition csi_m (t : Ozterm) (param : list Z) : Ozterm :=
  sgr_loop (S (length param)) param t.

(** [case 'r'] *)
Definition csi_r (t : Ozterm) (p1 p2 : Z) : Ozterm :=
  if (p1 >=? 1) && (p2 >=? 1) && (p1 <=? row_count t) && (p2 <=? row_count t)
  then set_scroll_region (p1 - 1) (p2 - 1) t
  else set_scroll_region 0 (row_count t - 1) t.

(** [case 'n'] *)
Definition csi_n (t : Ozterm) (param : list Z) : Ozterm :=
  if streq param (bytes "6") then
    let '(reply, _) :=
      snprintf 32 ([ESC; ch "["] ++ fmt_d (cursor_row (active t) + 1) ++ [ch ";"]
                     ++ fmt_d (cursor_column (active t) + 1) ++ [ch "R"]) in
    write_to_master t reply (Z.of_nat (length reply))
  else t.

(** The switch on the final byte.  A sequence that is not handled is only
    reported with printf; the terminal is left as it is. *)
Definition csi_dispatch (t : Ozterm) (param : list Z) (private : bool) (final : Z) : Ozterm :=
  let '(p1, p2) := csi_params param in
  if final =? ch "A" then ozterm_move_cursor_diff t (to_int32 (- p1)) 0
  else if final =? ch "B" then ozterm_move_cursor_diff t p1 0
  else if final =? ch "C" then ozterm_move_cursor_diff t 0 p1
  else if final =? ch "D" then ozterm_move_cursor_diff t 0 (to_int32 (- p1))
  else if (final =? ch "H") || (final =? ch "f") then
    ozterm_move_cursor t (if p1 >? 0 then p1 - 1 else 0) (if p2 >? 0 then p2 - 1 else 0)
  else if final =? ch "d" then
    ozterm_move_cursor t (if p1 >? 0 then p1 - 1 else 0) (cursor_column (active t))
  else if final =? ch "G" then
    ozterm_move_cursor t (cursor_row (active t)) (if p1 >? 0 then p1 - 1 else 0)
  else if final =? ch "n" then csi_n t param
  else if final =? ch "J" then csi_J t param
  else if final =? ch "K" then csi_K t param
  else if final =? ch "m" then csi_m t param
  else if final =? ch "h" then
    if private && streq param (bytes "1049") then ozterm_switch_to_alt_screen t else t
  else if final =? ch "l" then
    if private && streq param (bytes "1049") then ozterm_restore_main_screen t else t
  else if final =? ch "t" then
    if streq param (bytes "11")
    then write_to_master t ([ESC] ++ bytes "[1t") 4
    else t
  else if final =? ch "c" then
    if private then write_to_master t ([ESC] ++ bytes "[>0;0;0c") 9
    else if streq param (bytes "0") then write_to_master t ([ESC] ++ bytes "[?1;0c") 7
    else t
  else if final =? ch "@" then
    ozterm_line_insert_characters t (ch " ") (if p1 >? 0 then p1 else 1)
  else if final =? ch "P" then
    ozterm_line_delete_characters t (if p1 >? 0 then p1 else 1)
  else if final =? ch "r" then csi_r t p1 p2
  else if final =? ch "M" then
    ozterm_delete_lines t (cursor_row (active t)) (if p1 >? 0 then p1 else 1)
  else if final =? ch "L" then
    ozterm_insert_lines t (cursor_row (active t)) (if p1 >? 0 then p1 else 1)
  else if final =? ch "S" then ozterm_scroll_up_region t (if p1 >? 0 then p1 else 1)
  else if final =? ch "T" then ozterm_scroll_down_region t (if p1 >? 0 then p1 else 1)
  else t.

(** [case STATE_HASH] with ['8']: fill the screen with 'E'. *)
Definition decaln (t : Ozterm) : Ozterm :=
  let buf :=
    for_up 0 (row_count t) (fun y =>
      for_up 0 (column_count t) (fun x buf =>
        let idx := y * column_count t + x in
        wr buf idx (repaint (ch "E") (term_color t) (rd buf idx)))) (buffer (active t)) in
  ozterm_move_cursor (set_active_buffer buf t) 0 0.

(** ** The parser *)

Definition set_parse_state (s : ParseState) (p : Parser) : Parser :=
  mkParser s (param_buf p) (param_len p) (seq_buf p) (seq_len p)
    (osc_buf p) (osc_index p) (final_byte p) (is_private p).

(** [buf[len++] = c; buf[len] = '\0';] on the text held in the array. *)
Definition append_at (buf : list Z) (len c : Z) : list Z :=
  take (Z.to_nat len) buf ++ [c].

Definition parse_normal (p : Parser) (t : Ozterm) (c : Z) : Parser * Ozterm :=
  if c =? ESC then (set_parse_state STATE_ESC p, t)
  else if ((c >=? 32) && (c <=? 126)) || (c =? LF) || (c =? CR) || (c =? BS) || (c =? TAB)
  then (p, ozterm_put_character_and_cursor t c)
  else (p, t).

Definition parse_esc (p : Parser) (t : Ozterm) (c : Z) : Parser * Ozterm :=
  if c =? ch "[" then
    (mkParser STATE_CSI [] 0 [] 0 (osc_buf p) (osc_index p) (final_byte p) false, t)
  else if c =? ch "]" then
    (mkParser STATE_OSC (param_buf p) (param_len p) (seq_buf p) (seq_len p)
       [] 0 (final_byte p) (is_private p), t)
  else if c =? ch "(" then (set_parse_state STATE_G0 p, t)
  else if c =? ch ")" then (set_parse_state STATE_G1 p, t)
  else if c =? ch "#" then (set_parse_state STATE_HASH p, t)
  else if c =? ch "7" then
    (set_parse_state STATE_NORMAL p,
     set_saved_cursor (cursor_row (active t)) (cursor_column (active t)) t)
  else if c =? ch "8" then
    (set_parse_state STATE_NORMAL p,
     ozterm_move_cursor t (saved_cursor_row t) (saved_cursor_column t))
  else if c =? ch "c" then
    (* ESC c: Full reset (RIS). *)
    (set_parse_state STATE_NORMAL p, ozterm_move_cursor (ozterm_clear t) 0 0)
  else if c =? ch "D" then
    (* ESC D: Index: Move cursor down *)
    (set_parse_state STATE_NORMAL p, ozterm_move_cursor_diff t 1 0)
  else if c =? ch "E" then
    (* ESC E: Next line (CR + LF) *)
    (set_parse_state STATE_NORMAL p, ozterm_move_cursor t (cursor_row (active t) + 1) 0)
  else if c =? ch "M" then
    (* ESC M: Reverse index (scroll down) *)
    (set_parse_state STATE_NORMAL p, ozterm_scroll_down_region t 1)
  else if c =? ch "Z" then
    (* ESC Z: Identify terminal (DECID), reply with ESC[?6c *)
    (set_parse_state STATE_NORMAL p, write_to_master t ([ESC] ++ bytes "[?6c") 5)
  else (set_parse_state STATE_NORMAL p, t).

Definition parse_osc (p : Parser) (t : Ozterm) (c : Z) : Parser * Ozterm :=
  if c =? BEL then
    (* BEL = end of OSC *)
    (mkParser STATE_NORMAL (param_buf p) (param_len p) (seq_buf p) (seq_len p)
       (take (Z.to_nat (osc_index p)) (osc_buf p)) (osc_index p)
       (final_byte p) (is_private p), t)
  else if c =? ESC then (set_parse_state STATE_ESC p, t)
  else if osc_index p <? 63 then
    (mkParser (parse_state p) (param_buf p) (param_len p) (seq_buf p) (seq_len p)
       (append_at (osc_buf p) (osc_index p) c) (osc_index p + 1)
       (final_byte p) (is_private p), t)
  else (p, t).

Definition parse_hash (p : Parser) (t : Ozterm) (c : Z) : Parser * Ozterm :=
  (set_parse_state STATE_NORMAL p, if c =? ch "8" then decaln t else t).

Definition parse_csi (p : Parser) (t : Ozterm) (c : Z) : Parser * Ozterm :=
  let p :=
    if seq_len p <? 63 then
      mkParser (parse_state p) (param_buf p) (param_len p)
        (append_at (seq_buf p) (seq_len p) c) (seq_len p + 1)
        (osc_buf p) (osc_index p) (final_byte p) (is_private p)
    else p in
  (* Recognize private mode prefix *)
  if (c =? ch "?") || (c =? ch ">") then
    (mkParser (parse_state p) (param_buf p) (param_len p) (seq_buf p) (seq_len p)
       (osc_buf p) (osc_index p) (final_byte p) true, t)
  (* Collect parameters *)
  else if ((c >=? ch "0") && (c <=? ch "9")) || (c =? ch ";") then
    if param_len p <? 31 then
      (mkParser (parse_state p) (append_at (param_buf p) (param_len p) c) (param_len p + 1)
         (seq_buf p) (seq_len p) (osc_buf p) (osc_index p) (final_byte p) (is_private p), t)
    else (p, t)
  (* Final byte detected *)
  else if (c <? ch "@") || (c >? ch "~") then
    (mkParser STATE_NORMAL (param_buf p) 0 (seq_buf p) 0
       (osc_buf p) (osc_index p) (final_byte p) (is_private p), t)
  else
    (mkParser STATE_NORMAL (param_buf p) 0 (seq_buf p) 0
       (osc_buf p) (osc_index p) c (is_private p),
     csi_dispatch t (param_buf p) (is_private p) c).

(** The tail of [ozterm_put_character]:
    [if (terminal->scroll_offset > 0) terminal->scroll_offset = 0;] *)
Definition snap_to_live (t : Ozterm) : Ozterm :=
  set_scroll_offset (if scroll_offset t >? 0 then 0 else scroll_offset t) t.

Definition ozterm_put_character (st : Parser * Ozterm) (c : Z) : Parser * Ozterm :=
  let '(p, t) := st in
  let '(p, t) :=
    match parse_state p with
    | STATE_NORMAL => parse_normal p t c
    | STATE_ESC => parse_esc p t c
    | STATE_OSC => parse_osc p t c
    | STATE_G0 | STATE_G1 => (set_parse_state STATE_NORMAL p, t)
    | STATE_HASH => parse_hash p t c
    | STATE_CSI => parse_csi p t c
    end in
  (p, snap_to_live t).

(** [while ( *c && i < size)]: the loop stops at the first zero byte.  The
    list holds the bytes of the buffer the caller passes. *)
Fixpoint put_text_loop (st : Parser * Ozterm) (text : list Z) (i size : Z) : Parser * Ozterm :=
  match text with
  | [] => st
  | c :: rest =>
      if negb (c =? 0) && (i <? size)
      then put_text_loop (ozterm_put_character st c) rest (i + 1) size
      else st
  end.

Definition ozterm_put_text (st : Parser * Ozterm) (text : list Z) (size : Z) : Parser * Ozterm :=
  put_text_loop st text 0 size.

Definition ozterm_have_read_from_master (st : Parser * Ozterm) (data : list Z) (size : Z)
  : Parser * Ozterm :=
  ozterm_put_text st data size.

End Terminal.

(** ** Key encoder *)

Section Keys.
Context `{OztermHeader}.

Definition write_csi_sequence (max code final mod_value : Z) : list Z * Z :=
  if mod_value <=? 1 then
    if code =? 1
    then snprintf max ([ESC; ch "["] ++ [final])                    (* emit like \033[H *)
    else snprintf max ([ESC; ch "["] ++ fmt_d code ++ [final])      (* emit like \033[5~ *)
  else
    snprintf max ([ESC; ch "["] ++ fmt_d code ++ [ch ";"] ++ fmt_d mod_value ++ [final]).

(** [mod_value] as computed at the head of [ozterm_send_key]. *)
Definition mod_value_of (modifier : Z) : Z :=
  let mod_value := 1 in
  let mod_value :=
    if Z.land modifier (Z.lor OZTERM_KEYM_LEFTSHIFT OZTERM_KEYM_RIGHTSHIFT) =? 0
    then mod_value else mod_value + 1 in
  let mod_value :=
    if Z.land modifier OZTERM_KEYM_ALT =? 0 then mod_value else mod_value + 2 in
  if Z.land modifier OZTERM_KEYM_CTRL =? 0 then mod_value else mod_value + 4.

(** The 16 bytes of [seq] after [text] and its NUL were stored into the
    zeroed array. *)
Definition seq16 (text : list Z) : list Z := take 16 (text ++ replicate 16 0).

(** The switch of [ozterm_send_key]: the contents of [seq] and [size]. *)
Definition encode_key (modifier key : Z) : list Z * Z :=
  let mod_value := mod_value_of modifier in
  let csi code final :=
    let '(text, n) := write_csi_sequence 16 code final mod_value in (seq16 text, n) in
  if (key =? OZTERM_KEY_F1) || (key =? OZTERM_KEY_F2)
     || (key =? OZTERM_KEY_F3) || (key =? OZTERM_KEY_F4) then
    let base := ch "P" + (key - OZTERM_KEY_F1) in
    if mod_value =? 1 then (seq16 [ESC; ch "O"; base], 3)
    else csi 1 base
  else if key =? OZTERM_KEY_F5 then csi 15 (ch "~")
  else if key =? OZTERM_KEY_F6 then csi 17 (ch "~")
  else if key =? OZTERM_KEY_F7 then csi 18 (ch "~")
  else if key =? OZTERM_KEY_F8 then csi 19 (ch "~")
  else if key =? OZTERM_KEY_F9 then csi 20 (ch "~")
  else if key =? OZTERM_KEY_F10 then csi 21 (ch "~")
  else if key =? OZTERM_KEY_F11 then csi 23 (ch "~")
  else if key =? OZTERM_KEY_F12 then csi 24 (ch "~")
  else if key =? OZTERM_KEY_HOME then csi 1 (ch "H")
  else if key =? OZTERM_KEY_END then csi 1 (ch "F")
  else if key =? OZTERM_KEY_UP then csi 1 (ch "A")
  else if key =? OZTERM_KEY_DOWN then csi 1 (ch "B")
  else if key =? OZTERM_KEY_LEFT then csi 1 (ch "D")
  else if key =? OZTERM_KEY_RIGHT then csi 1 (ch "C")
  else if key =? OZTERM_KEY_PAGEUP then csi 5 (ch "~")
  else if key =? OZTERM_KEY_PAGEDOWN then csi 6 (ch "~")
  else if key =? OZTERM_KEY_INSERT then csi 2 (ch "~")
  else if key =? OZTERM_KEY_DELETE then csi 3 (ch "~")
  else if key =? OZTERM_KEY_RETURN then (seq16 [CR], 1)
  else if key =? OZTERM_KEY_BACKSPACE then (seq16 [127], 1)
  else if key =? OZTERM_KEY_ESCAPE then (seq16 [ESC], 1)
  else if key =? OZTERM_KEY_TAB then (seq16 [TAB], 1)
  else
    (* Handle Ctrl+key combos (Ctrl+A to Ctrl+Z) *)
    let key :=
      if (modifier =? OZTERM_KEYM_CTRL) && isgraph key
      then to_uint8 (C (toupper key)) else key in
    (seq16 [key], 1).

Definition ozterm_send_key (t : Ozterm) (modifier key : Z) : Ozterm :=
  let '(seq, size) := encode_key modifier key in
  call_host (write_to_master_function t && (size >? 0))
    (WriteToMaster (take (Z.to_nat size) seq)) t.

(** ** Construction *)

(** Both parameters are [uint16_t]: the arguments are taken modulo 65536.
    The size of a buffer is computed as [row_count * column_count] in [int],
    which is undefined beyond [INT_MAX]; the model multiplies in [Z], so it
    agrees with the code while the product fits, in particular for at most
    32767 rows and columns, the range of the [int16_t] cursor. *)
Definition ozterm_create (row_count column_count : Z) : Ozterm :=
  let row_count := to_uint16 row_count in
  let column_count := to_uint16 column_count in
  let screen := mkScreen (replicate (Z.to_nat (row_count * column_count)) zero_cell) 0 0 false in
  let t :=
    mkOzterm screen screen MainScreen false 0 0 row_count column_count
      0 (row_count - 1) 10
      (replicate (Z.to_nat SCROLLBACK_LINES) (replicate (Z.to_nat column_count) zero_cell))
      0 0 0 false false false false [] in
  ozterm_clear t.

End Keys.

Arguments for_up : simpl never.
Arguments for_down : simpl never.
Arguments rd : simpl never.
Arguments wr : simpl never.

(** ** Vocabulary of the statements *)

(** The cell at row [r], column [c] of the active screen. *)
Definition cell_at (t : Ozterm) (r c : Z) : OztermCell :=
  rd (buffer (active t)) (r * column_count t + c).

(** The number of lines a scroll of the region moves by: [lines] after the
    two adjustments at the head of [ozterm_scroll_up_region] and
    [ozterm_scroll_down_region]. *)
Definition region_lines (t : Ozterm) (lines : Z) : Z :=
  let lines := if lines <=? 0 then 1 else lines in
  if lines >? scroll_bottom t - scroll_top t + 1
  then scroll_bottom t - scroll_top t + 1 else lines.

(** [count] after the clamp of [ozterm_insert_lines] and [ozterm_delete_lines]. *)
Definition span_lines (t : Ozterm) (from_row count : Z) : Z :=
  if count >? scroll_bottom t - from_row + 1
  then scroll_bottom t - from_row + 1 else count.

(** The grid of the active screen has [row_count * column_count] cells. *)
Definition grid_ok (t : Ozterm) : Prop :=
  0 ≤ row_count t ∧ 0 ≤ column_count t ∧
  Z.of_nat (length (buffer (active t))) = row_count t * column_count t.

(** The scroll region lies in the grid. *)
Definition region_ok (t : Ozterm) : Prop :=
  0 ≤ scroll_top t ∧ scroll_top t ≤ scroll_bottom t ∧ scroll_bottom t < row_count t.

(** Both margins of the scroll region are rows of the grid; the top margin
    may lie below the bottom one. *)
Definition margins_in_grid (t : Ozterm) : Prop :=
  0 ≤ scroll_top t < row_count t ∧ 0 ≤ scroll_bottom t < row_count t.

(** The cursor of the active screen is on a cell of the grid, and the
    dimensions fit the [int16_t] coordinates of [ozterm_move_cursor]. *)
Definition cursor_in_grid (t : Ozterm) : Prop :=
  0 ≤ cursor_row (active t) < row_count t ∧
  0 ≤ cursor_column (active t) < column_count t ∧
  row_count t ≤ 32767 ∧ column_count t ≤ 32767.

(** The clamp [ozterm_move_cursor] applies to a coordinate passed as
    [int16_t], for a grid of [limit] rows or columns. *)
Definition clamp16 (limit v : Z) : Z :=
  let v := to_int16 v in
  let v := if v >=? limit then to_int16 (limit - 1) else v in
  if v <? 0 then 0 else v.

(** What [ESC 7] stored, together with the dimensions of the grid. *)
Definition kept (r0 c0 rows cols : Z) (t : Ozterm) : Prop :=
  saved_cursor_row t = r0 ∧ saved_cursor_column t = c0 ∧
  row_count t = rows ∧ column_count t = cols.

(** The cursor of a screen is on a cell of a grid of [rows] by [cols]. *)
Definition screen_ok (rows cols : Z) (s : OztermScreen) : Prop :=
  0 ≤ cursor_row s < rows ∧ 0 ≤ cursor_column s < cols.

(** A terminal of [rows] by [cols]: both screens have their cursor on the
    grid and both margins of the scroll region are rows of the grid. *)
Definition cursors_ok (rows cols : Z) (t : Ozterm) : Prop :=
  row_count t = rows ∧ column_count t = cols ∧
  screen_ok rows cols (screen_main t) ∧ screen_ok rows cols (screen_alternative t) ∧
  0 ≤ scroll_top t < rows ∧ 0 ≤ scroll_bottom t < rows.

(** The number a string of decimal digits denotes. *)
Definition decimal_value (digits : list Z) : Z :=
  fold_left (fun acc d => acc * 10 + (d - 48)) digits 0.

(** The bytes of a C string up to its first zero byte. *)
Fixpoint until_nul (text : list Z) : list Z :=
  match text with
  | [] => []
  | c :: rest => if c =? 0 then [] else c :: until_nul rest
  end.

(** Cursor-motion sequences: a CSI sequence with a parameter string and
    one of the finals A B C D H f d G, the escapes ESC D and ESC E, and
    the controls LF, CR and BS. *)
Inductive CursorMotion :=
| Csi (params : list Z) (final : Z)
| Esc (final : Z)
| Ctl (c : Z).

Definition motion_bytes (m : CursorMotion) : list Z :=
  match m with
  | Csi params final => [ESC; ch "["] ++ params ++ [final]
  | Esc final => [ESC; final]
  | Ctl c => [c]
  end.

Definition is_param_byte (c : Z) : bool := isdigit c || (c =? ch ";").

Definition is_cursor_motion (m : CursorMotion) : bool :=
  match m with
  | Csi params final =>
      forallb is_param_byte params && existsb (Z.eqb final) (bytes "ABCDHfdG")
  | Esc final => existsb (Z.eqb final) (bytes "DE")
  | Ctl c => existsb (Z.eqb c) [LF; CR; BS]
  end.

Section Vocabulary.
Context `{OztermHeader}.

(** Feeding a buffer whole: [ozterm_have_read_from_master(t, data, len)]. *)
Definition feed (st : Parser * Ozterm) (data : list Z) : Parser * Ozterm :=
  ozterm_have_read_from_master st data (Z.of_nat (length data)).

(** Feeding the bytes of a buffer one call at a time. *)
Definition feed_one_by_one (st : Parser * Ozterm) (data : list Z) : Parser * Ozterm :=
  fold_left (fun st c => ozterm_have_read_from_master st [c] 1) data st.

(** The ring has [SCROLLBACK_LINES] rows and [scrollback_head] indexes it. *)
Definition ring_ok (t : Ozterm) : Prop :=
  0 ≤ scrollback_head t < SCROLLBACK_LINES ∧
  Z.of_nat (length (scrollback t)) = SCROLLBACK_LINES.

(** [shift], [alt] and [ctrl] as the tests of [ozterm_send_key] read them
    off the modifier mask. *)
Definition has_shift (modifier : Z) : bool :=
  negb (Z.land modifier (Z.lor OZTERM_KEYM_LEFTSHIFT OZTERM_KEYM_RIGHTSHIFT) =? 0).
Definition has_alt (modifier : Z) : bool := negb (Z.land modifier OZTERM_KEYM_ALT =? 0).
Definition has_ctrl (modifier : Z) : bool := negb (Z.land modifier OZTERM_KEYM_CTRL =? 0).

(** [mod_value] in the words of the spec. *)
Definition spec_mod_value (modifier : Z) : Z :=
  1 + (if has_shift modifier then 1 else 0)
    + (if has_alt modifier then 2 else 0)
    + (if has_ctrl modifier then 4 else 0).

(** The navigation keys with the code and the final byte the spec lists. *)
Definition navigation_keys : list (Z * Z * Z) :=
  [ (OZTERM_KEY_HOME, 1, ch "H"); (OZTERM_KEY_END, 1, ch "F");
    (OZTERM_KEY_UP, 1, ch "A"); (OZTERM_KEY_DOWN, 1, ch "B");
    (OZTERM_KEY_LEFT, 1, ch "D"); (OZTERM_KEY_RIGHT, 1, ch "C");
    (OZTERM_KEY_PAGEUP, 5, ch "~"); (OZTERM_KEY_PAGEDOWN, 6, ch "~");
    (OZTERM_KEY_INSERT, 2, ch "~"); (OZTERM_KEY_DELETE, 3, ch "~") ].

(** The sequence of a navigation key in the words of the spec. *)
Definition spec_key_sequence (code final mod_value : Z) : list Z :=
  if mod_value =? 1 then
    if code =? 1 then [ESC; ch "["; final]
    else [ESC; ch "["] ++ fmt_d code ++ [final]
  else [ESC; ch "["] ++ fmt_d code ++ [ch ";"] ++ fmt_d mod_value ++ [final].

(** The states the entry points of the library reach from a terminal made
    by [ozterm_create]; the host installs its callbacks after creation. *)
Inductive reachable (rows cols : Z) : Parser * Ozterm → Prop :=
| reach_create w r s m :
    reachable rows cols (parser_init, set_callbacks w r s m (ozterm_create rows cols))
| reach_read st data size :
    reachable rows cols st →
    reachable rows cols (ozterm_have_read_from_master st data size)
| reach_send_key p t modifier key :
    reachable rows cols (p, t) →
    reachable rows cols (p, ozterm_send_key t modifier key)
| reach_scroll p t offset :
    reachable rows cols (p, t) →
    reachable rows cols (p, ozterm_scroll t offset)
| reach_switch_to_alt p t :
    reachable rows cols (p, t) →
    reachable rows cols (p, ozterm_switch_to_alt_screen t)
| reach_restore_main p t :
    reachable rows cols (p, t) →
    reachable rows cols (p, ozterm_restore_main_screen t).

End Vocabulary.

(** A header for the examples: three scrollback rows, one bit per modifier
    and key codes above the ASCII range. *)
Definition sample_header : OztermHeader := {|
  SCROLLBACK_LINES := 3;
  OZTERM_KEYM_LEFTSHIFT := 1; OZTERM_KEYM_RIGHTSHIFT := 2;
  OZTERM_KEYM_CTRL := 4; OZTERM_KEYM_ALT := 8;
  OZTERM_KEY_F1 := 128; OZTERM_KEY_F2 := 129; OZTERM_KEY_F3 := 130; OZTERM_KEY_F4 := 131;
  OZTERM_KEY_F5 := 132; OZTERM_KEY_F6 := 133; OZTERM_KEY_F7 := 134; OZTERM_KEY_F8 := 135;
  OZTERM_KEY_F9 := 136; OZTERM_KEY_F10 := 137; OZTERM_KEY_F11 := 138; OZTERM_KEY_F12 := 139;
  OZTERM_KEY_HOME := 140; OZTERM_KEY_END := 141; OZTERM_KEY_UP := 142; OZTERM_KEY_DOWN := 143;
  OZTERM_KEY_LEFT := 144; OZTERM_KEY_RIGHT := 145;
  OZTERM_KEY_PAGEUP := 146; OZTERM_KEY_PAGEDOWN := 147;
  OZTERM_KEY_INSERT := 148; OZTERM_KEY_DELETE := 149;
  OZTERM_KEY_RETURN := 150; OZTERM_KEY_BACKSPACE := 151;
  OZTERM_KEY_ESCAPE := 152; OZTERM_KEY_TAB := 153
|}.

(** A fresh terminal of [rows] by [cols] cells with all four callbacks
    installed, and its parser. *)
Definition fresh (rows cols : Z) : Parser * Ozterm :=
  (parser_init, set_callbacks true true true true (@ozterm_create sample_header rows cols)).

Definition feed_sample : Parser * Ozterm → list Z → Parser * Ozterm := @feed sample_header.

(** ** States of the examples *)

(** A terminal of two rows and one column after [ESC [ 8 m], a line feed
    and the byte 'P': the cell of the bottom row is protected. *)
Definition protected_bottom : Ozterm :=
  Eval vm_compute in snd (feed_sample (fresh 2 1) ([ESC] ++ bytes "[8m" ++ [LF] ++ bytes "P")).

(** The same with the protected 'P' on the top row. *)
Definition protected_top : Ozterm :=
  Eval vm_compute in snd (feed_sample (fresh 2 1) ([ESC] ++ bytes "[8m" ++ bytes "P")).

(** A terminal of three rows and four columns with the cursor at (2, 3). *)
Definition cursor_at_2_3 : Parser * Ozterm :=
  Eval vm_compute in feed_sample (fresh 3 4) ([ESC] ++ bytes "[3;4H").

(** A terminal of five rows and two columns. *)
Definition five_rows : Parser * Ozterm := Eval vm_compute in fresh 5 2.

(** A terminal of two rows and two columns switched to the alternate
    screen, with the cursor on the bottom row of the scroll region. *)
Definition alt_at_bottom : Parser * Ozterm :=
  Eval vm_compute in feed_sample (fresh 2 2) ([ESC] ++ bytes "[?1049h" ++ [LF]).

(** A terminal of one row and three columns that has read "abc": three
    printable bytes, the last one written at the last column. *)
Definition last_column_written : Parser * Ozterm :=
  @ozterm_have_read_from_master sample_header
    (parser_init, set_callbacks true true true true (@ozterm_create sample_header 1 3))
    (bytes "abc") 3.

(** A terminal of three rows and four columns with the cursor at (1, 2). *)
Definition cursor_at_1_2 : Parser * Ozterm :=
  Eval vm_compute in feed_sample (fresh 3 4) ([ESC] ++ bytes "[2;3H").

(** Up by three, home, to row 2 and column 4, index, line feed, backspace. *)
Definition sample_motions : list CursorMotion :=
  [Csi (bytes "3") (ch "A"); Csi [] (ch "H"); Csi (bytes "2;4") (ch "f");
   Esc (ch "D"); Ctl LF; Ctl BS].

(** ** Rows and characters as the host reads them *)

Section View.
Context `{OztermHeader}.

(** [terminal->scrollback[i]]: the cells of a row of the ring.  An index
    outside the ring is undefined behaviour in C; the model yields no cell. *)
Definition ring_row (sb : list (list OztermCell)) (i : Z) : list OztermCell :=
  if decide (0 ≤ i) then default [] (sb !! Z.to_nat i) else [].

(** The pointer [ozterm_get_row] returns is either a row of the scrollback
    ring, [terminal->scrollback[ring_index]], or the address of a row of the
    buffer of the active screen, [buffer + buffer_y * column_count]. *)
Inductive RowBuffer : Type :=
  | RingRow (ring_index : Z)
  | BufferRow (buffer_y : Z).

(** The value of the local [row_buffer] when [ozterm_get_row] returns. *)
Definition row_buffer (t : Ozterm) (row : Z) : RowBuffer :=
  let row := to_int16 row in
  (* scrollback mode *)
  if scroll_offset t >? 0 then
    let scroll_index := scrollback_count t - scroll_offset t + row in
    if scroll_index <? scrollback_count t then
      let ring_index :=
        Z.rem (scrollback_head t - scrollback_count t + scroll_index + SCROLLBACK_LINES)
          SCROLLBACK_LINES in
      RingRow ring_index
    else
      let buffer_y := row - scroll_offset t in
      BufferRow buffer_y
  else
    BufferRow row.

(** The [column_count] cells a reader finds at such a pointer. *)
Definition row_cells (t : Ozterm) (b : RowBuffer) : list OztermCell :=
  match b with
  | RingRow ring_index => ring_row (scrollback t) ring_index
  | BufferRow buffer_y =>
      row_slice (buffer (active t)) (buffer_y * column_count t) (column_count t)
  end.

(** The function returns the pointer [row_buffer]; the model of the call
    returns the cells a reader of the row finds there. *)
Definition ozterm_get_row (t : Ozterm) (row : Z) : list OztermCell :=
  row_cells t (row_buffer t row).

End View.

Definition ozterm_get_character (t : Ozterm) (row column : Z) : Z :=
  character (rd (buffer (active t)) (to_int16 row * column_count t + to_int16 column)).

(** ** Vocabulary of the further properties *)

Section Vocabulary2.
Context `{OztermHeader}.

(** A terminal of [rows] by [cols] whose buffers, scroll region and
    scrollback ring have the shape [ozterm_create] gives them. *)
Definition well_formed (rows cols : Z) (t : Ozterm) : Prop :=
  row_count t = rows ∧ column_count t = cols ∧
  Z.of_nat (length (buffer (screen_main t))) = rows * cols ∧
  Z.of_nat (length (buffer (screen_alternative t))) = rows * cols ∧
  (0 ≤ scroll_top t < rows ∧ 0 ≤ scroll_bottom t < rows) ∧
  (0 ≤ scrollback_head t < SCROLLBACK_LINES ∧
   0 ≤ scrollback_count t ≤ SCROLLBACK_LINES ∧
   0 ≤ scroll_offset t ≤ scrollback_count t) ∧
  Z.of_nat (length (scrollback t)) = SCROLLBACK_LINES ∧
  Forall (fun line => Z.of_nat (length line) = cols) (scrollback t).

End Vocabulary2.

(** The switch back to the main screen is reached through the final byte
    'l' only: a predicate [Q] on terminals either survives that switch or
    is followed along bytes other than 'l'. *)
Definition restore_allowed (Q : Ozterm → Prop) (c : Z) : Prop :=
  c = ch "l" → ∀ t, Q t → Q (set_screen_active MainScreen false t).

(** The alternate screen is active and the main screen is [m]. *)
Definition main_parked (m : OztermScreen) (t : Ozterm) : Prop :=
  screen_active t = AlternativeScreen ∧ screen_main t = m.

Definition is_alternative (a : ActiveScreen) : bool :=
  match a with AlternativeScreen => true | MainScreen => false end.

Section Vocabulary3.
Context `{OztermHeader}.

(** The alternate screen is still the active one after every byte of [data]. *)
Fixpoint stays_on_alt (st : Parser * Ozterm) (data : list Z) : bool :=
  match data with
  | [] => true
  | c :: rest =>
      let st' := ozterm_put_character st c in
      is_alternative (screen_active (snd st')) && stays_on_alt st' rest
  end.

End Vocabulary3.

(** The head of the ring, its count and the scroll offset of the view stay
    within their bounds, whatever the size of the grid. *)
Definition ring_bounds `{OztermHeader} (t : Ozterm) : Prop :=
  0 ≤ scrollback_head t < SCROLLBACK_LINES ∧
  0 ≤ scrollback_count t ≤ SCROLLBACK_LINES ∧
  0 ≤ scroll_offset t ≤ scrollback_count t.

(** ** States of the further examples *)

(** A terminal of two rows and two columns that has read 'a', two line
    feeds and 'b': the second line feed moved the first row into the ring. *)
Definition two_lines_read : Parser * Ozterm :=
  @ozterm_have_read_from_master sample_header
    (parser_init, set_callbacks true true true true (@ozterm_create sample_header 2 2))
    [ch "a"; LF; LF; ch "b"] 4.

(** A terminal of two rows and two columns that has read 'a' and a line
    feed: the cursor is on the bottom row. *)
Definition first_line_read : Parser * Ozterm :=
  @ozterm_have_read_from_master sample_header
    (parser_init, set_callbacks true true true true (@ozterm_create sample_header 2 2))
    [ch "a"; LF] 2.

(** ** Vocabulary of the sequences and the keys *)

(** The bytes of a control sequence: [ESC [], the private marker ['?']
    when [private] is set, the parameter string and the final byte. *)
Definition csi_sequence (private : bool) (params : list Z) (final : Z) : list Z :=
  [ESC; ch "["] ++ (if private then [ch "?"] else []) ++ params ++ [final].

(** The bytes the parser takes as the final byte of a control sequence. *)
Definition is_final_byte (c : Z) : bool := (ch "@" <=? c) && (c <=? ch "~").

(** The parser is inside a control sequence and has read the parameter
    bytes [consumed]; [param_buf] holds at most 31 of them. *)
Definition collecting (consumed : list Z) (private : bool) (p : Parser) : Prop :=
  parse_state p = STATE_CSI ∧
  param_buf p = take 31 consumed ∧
  param_len p = Z.of_nat (length (take 31 consumed)) ∧
  is_private p = private.

(** The bytes of an operating-system command: [ESC ]], the payload and the
    terminator, BEL or the two bytes [ESC \]. *)
Definition osc_sequence (payload terminator : list Z) : list Z :=
  [ESC; ch "]"] ++ payload ++ terminator.

(** The string terminator, the two bytes [ESC \]. *)
Definition ST : list Z := [ESC; 92].

Section Vocabulary4.
Context `{OztermHeader}.

(** The function keys F5 to F12 with the code each one sends. *)
Definition function_keys : list (Z * Z) :=
  [ (OZTERM_KEY_F5, 15); (OZTERM_KEY_F6, 17); (OZTERM_KEY_F7, 18); (OZTERM_KEY_F8, 19);
    (OZTERM_KEY_F9, 20); (OZTERM_KEY_F10, 21); (OZTERM_KEY_F11, 23); (OZTERM_KEY_F12, 24) ].

(** The keys that send one control byte. *)
Definition control_keys : list (Z * Z) :=
  [ (OZTERM_KEY_RETURN, CR); (OZTERM_KEY_BACKSPACE, 127);
    (OZTERM_KEY_ESCAPE, ESC); (OZTERM_KEY_TAB, TAB) ].

(** The four arrow keys with the final byte of their sequence and the
    step, in rows and columns, the sequence stands for. *)
Definition arrow_keys : list (Z * Z * (Z * Z)) :=
  [ (OZTERM_KEY_UP, ch "A", (-1, 0)); (OZTERM_KEY_DOWN, ch "B", (1, 0));
    (OZTERM_KEY_RIGHT, ch "C", (0, 1)); (OZTERM_KEY_LEFT, ch "D", (0, -1)) ].

(** The bytes [ozterm_send_key] hands the host for a key. *)
Definition key_message (modifier key : Z) : list Z :=
  let '(seq, size) := encode_key modifier key in take (Z.to_nat size) seq.

End Vocabulary4.

(** An ASCII letter of either case. *)
Definition is_letter (c : Z) : bool :=
  ((65 <=? c) && (c <=? 90)) || ((97 <=? c) && (c <=? 122)).

(** What an erase makes of a cell: a protected cell is kept, another one
    gets a space and the colour of the terminal. *)
Definition erased (t : Ozterm) (cell : OztermCell) : OztermCell :=
  if protected cell then cell else repaint (ch " ") (term_color t) cell.

(** The mode an erase sequence reads from its parameter string. *)
Definition erase_mode (ps : list Z) : Z :=
  match ps with [] => 0 | _ => atoi ps end.

(** A list of numbers as a parameter string: decimal, separated by ';'. *)
Fixpoint param_string (ns : list Z) : list Z :=
  match ns with
  | [] => []
  | [n] => fmt_d n
  | n :: rest => fmt_d n ++ [ch ";"] ++ param_string rest
  end.

(** What one parameter of a select-graphic-rendition sequence makes of the
    protected attribute: 0 clears it, 8 sets it, any other number keeps it. *)
Definition sgr_attr (a : bool) (n : Z) : bool :=
  if n =? 0 then false else if n =? 8 then true else a.

(** The number of lines a sequence asks for: its first parameter, or 1
    when that is absent, zero or negative. *)
Definition line_count (ps : list Z) : Z :=
  let p1 := fst (csi_params ps) in if p1 >? 0 then p1 else 1.

(** The cell at row [r], column [c] after the rows from [top] to
    [scroll_bottom] moved up by [n]: the last [n] rows are blank, a
    protected cell stays, another one holds the cell [n] rows below. *)
Definition shifted_up (t : Ozterm) (top n r c : Z) : OztermCell :=
  if decide (scroll_bottom t - n < r ≤ scroll_bottom t) then blank t
  else if decide (top ≤ r ≤ scroll_bottom t - n)
       then (if protected (cell_at t r c) then cell_at t r c else cell_at t (r + n) c)
       else cell_at t r c.

(** The same after the rows moved down by [n]: the first [n] rows are
    blank, a protected cell stays, another one holds the cell [n] rows
    above. *)
Definition shifted_down (t : Ozterm) (top n r c : Z) : OztermCell :=
  if decide (top ≤ r < top + n) then blank t
  else if decide (top + n ≤ r ≤ scroll_bottom t)
       then (if protected (cell_at t r c) then cell_at t r c else cell_at t (r - n) c)
       else cell_at t r c.

(** No cell of the cursor row is protected from the cursor to the end of
    the row. *)
Definition unprotected_from_cursor (t : Ozterm) : Prop :=
  ∀ c, cursor_column (active t) ≤ c < column_count t →
       protected (cell_at t (cursor_row (active t)) c) = false.

(** The number of cells an insertion or a deletion of [count] characters
    at the cursor works on: at most the cells from the cursor to the end
    of the row. *)
Definition span_cells (t : Ozterm) (count : Z) : Z :=
  Z.min count (column_count t - cursor_column (active t)).

(** A terminal of three rows and four columns that has read 'ab' and
    [ESC [ 3 ; 2 r]: the top margin, row 2, lies below the bottom margin,
    row 1. *)
Definition inverted_margins : Parser * Ozterm :=
  Eval vm_compute in feed_sample (fresh 3 4) (bytes "ab" ++ [ESC] ++ bytes "[3;2r").

(** A byte that ends a control sequence without a final byte: it is
    neither a parameter byte nor a private marker and lies outside the
    range of the final bytes. *)
Definition aborts_sequence (c : Z) : bool :=
  negb (is_param_byte c) && negb ((c =? ch "?") || (c =? ch ">"))
  && ((c <? ch "@") || (c >? ch "~")).

(** * Properties *)

(** ** Reasoning about loops *)

Section Loops.
Context {S : Type}.
Implicit Types (body : Z → S → S) (s : S).

Lemma for_up_steps body lo (n : nat) s :
  for_up lo (lo + Z.of_nat (Datatypes.S n)) body s
  = body (lo + Z.of_nat n) (for_up lo (lo + Z.of_nat n) body s).
Proof.
  unfold for_up.
  replace (lo + Z.of_nat (Datatypes.S n) - lo) with (Z.of_nat (Datatypes.S n)) by lia.
  replace (lo + Z.of_nat n - lo) with (Z.of_nat n) by lia.
  rewrite seqZ_S, fold_left_app. reflexivity.
Qed.

Lemma for_up_inv (I : Z → S → Prop) lo hi body s :
  I lo s →
  (∀ i s, lo ≤ i < hi → I i s → I (i + 1) (body i s)) →
  I (Z.max lo hi) (for_up lo hi body s).
Proof.
  intros Hs Hstep.
  destruct (Z_le_gt_dec hi lo) as [Hle|Hgt].
  - unfold for_up. rewrite seqZ_nil by lia. simpl.
    replace (Z.max lo hi) with lo by lia. exact Hs.
  - replace (Z.max lo hi) with hi by lia.
    assert (Hn : ∀ n : nat, lo + Z.of_nat n ≤ hi →
              I (lo + Z.of_nat n) (for_up lo (lo + Z.of_nat n) body s)).
    { induction n as [|n IH]; intros Hb.
      - unfold for_up. rewrite seqZ_nil by lia. simpl.
        replace (lo + Z.of_nat 0) with lo by lia. exact Hs.
      - rewrite for_up_steps.
        replace (lo + Z.of_nat (Datatypes.S n)) with (lo + Z.of_nat n + 1) by lia.
        apply Hstep; [lia | apply IH; lia]. }
    specialize (Hn (Z.to_nat (hi - lo))).
    replace (lo + Z.of_nat (Z.to_nat (hi - lo))) with hi in Hn by lia.
    apply Hn. lia.
Qed.

Lemma for_up_ind (P : S → Prop) lo hi body s :
  P s → (∀ i s, lo ≤ i < hi → P s → P (body i s)) → P (for_up lo hi body s).
Proof. intros Hs Hstep. apply (for_up_inv (fun _ => P)); assumption. Qed.

Lemma for_down_inv (I : Z → S → Prop) hi lo body s :
  I hi s →
  (∀ i s, lo ≤ i ≤ hi → I i s → I (i - 1) (body i s)) →
  I (Z.min hi (lo - 1)) (for_down hi lo body s).
Proof.
  intros Hs Hstep.
  destruct (Z_lt_ge_dec hi lo) as [Hlt|Hge].
  - unfold for_down. rewrite seqZ_nil by lia. simpl.
    replace (Z.min hi (lo - 1)) with hi by lia. exact Hs.
  - replace (Z.min hi (lo - 1)) with (lo - 1) by lia.
    assert (Hn : ∀ (n : nat) s, lo + Z.of_nat n - 1 ≤ hi →
              I (lo + Z.of_nat n - 1) s →
              I (lo - 1) (fold_left (fun s i => body i s) (rev (seqZ lo (Z.of_nat n))) s)).
    { induction n as [|n IH]; intros s' Hb Hs'.
      - rewrite seqZ_nil by lia. simpl.
        replace (lo + Z.of_nat 0 - 1) with (lo - 1) in Hs' by lia. exact Hs'.
      - rewrite seqZ_S, rev_app_distr. simpl.
        apply IH; [lia|].
        replace (lo + Z.of_nat n - 1) with (lo + Z.of_nat n - 1 + 1 - 1) by lia.
        replace (lo + Z.of_nat n - 1 + 1) with (lo + Z.of_nat n) by lia.
        apply Hstep; [lia|].
        replace (lo + Z.of_nat n) with (lo + Z.of_nat (Datatypes.S n) - 1) by lia.
        exact Hs'. }
    unfold for_down.
    specialize (Hn (Z.to_nat (hi - lo + 1)) s).
    replace (Z.of_nat (Z.to_nat (hi - lo + 1))) with (hi - lo + 1) in Hn by lia.
    apply Hn; [lia|].
    replace (lo + (hi - lo + 1) - 1) with hi by lia. exact Hs.
Qed.

Lemma for_down_ind (P : S → Prop) hi lo body s :
  P s → (∀ i s, lo ≤ i ≤ hi → P s → P (body i s)) → P (for_down hi lo body s).
Proof. intros Hs Hstep. apply (for_down_inv (fun _ => P)); assumption. Qed.

End Loops.

(** ** Reading and writing cells *)

Lemma rd_wr_ne buf i j c : i ≠ j → rd (wr buf i c) j = rd buf j.
Proof.
  intros Hne. unfold rd, wr.
  destruct (decide (0 ≤ j)) as [Hj|Hj]; [|reflexivity].
  destruct (decide (0 ≤ i)) as [Hi|Hi]; [|reflexivity].
  rewrite list_lookup_insert_ne by lia. reflexivity.
Qed.

Lemma rd_wr_eq buf i c : 0 ≤ i < Z.of_nat (length buf) → rd (wr buf i c) i = c.
Proof.
  intros Hi. unfold rd, wr.
  destruct (decide (0 ≤ i)) as [H0|H0]; [|lia].
  rewrite list_lookup_insert_eq by lia. reflexivity.
Qed.

Lemma length_wr buf i c : length (wr buf i c) = length buf.
Proof. unfold wr. destruct (decide (0 ≤ i)); [apply length_insert | reflexivity]. Qed.

Lemma rd_protected_in_range buf i :
  protected (rd buf i) = true → 0 ≤ i < Z.of_nat (length buf).
Proof.
  unfold rd. destruct (decide (0 ≤ i)) as [Hi|Hi]; [|discriminate].
  destruct (buf !! Z.to_nat i) as [c|] eqn:E; [|discriminate].
  intros _. apply lookup_lt_Some in E. lia.
Qed.

(** ** Frame lemmas for the field assignments *)

Lemma active_set_active s t : active (set_active s t) = s.
Proof. unfold active, set_active. simpl. destruct (screen_active t); reflexivity. Qed.

Lemma buffer_set_active_buffer b t : buffer (active (set_active_buffer b t)) = b.
Proof. unfold set_active_buffer. rewrite active_set_active. reflexivity. Qed.

Lemma column_count_set_active s t : column_count (set_active s t) = column_count t.
Proof. reflexivity. Qed.

Lemma active_call_host b e t : active (call_host b e t) = active t.
Proof. reflexivity. Qed.

Lemma column_count_call_host b e t : column_count (call_host b e t) = column_count t.
Proof. reflexivity. Qed.

Lemma cell_at_set_active_buffer b t r c :
  cell_at (set_active_buffer b t) r c = rd b (r * column_count t + c).
Proof.
  unfold cell_at. rewrite buffer_set_active_buffer.
  unfold set_active_buffer. rewrite column_count_set_active. reflexivity.
Qed.

Lemma cell_at_call_refresh t r c : cell_at (call_refresh t) r c = cell_at t r c.
Proof.
  unfold cell_at, call_refresh. rewrite active_call_host, column_count_call_host. reflexivity.
Qed.

(** [snap_to_live] writes [scroll_offset] only. *)
Lemma active_snap t : active (snap_to_live t) = active t.
Proof. reflexivity. Qed.
Lemma row_count_snap t : row_count (snap_to_live t) = row_count t.
Proof. reflexivity. Qed.
Lemma column_count_snap t : column_count (snap_to_live t) = column_count t.
Proof. reflexivity. Qed.
Lemma scroll_top_snap t : scroll_top (snap_to_live t) = scroll_top t.
Proof. reflexivity. Qed.
Lemma scroll_bottom_snap t : scroll_bottom (snap_to_live t) = scroll_bottom t.
Proof. reflexivity. Qed.
Lemma host_calls_snap t : host_calls (snap_to_live t) = host_calls t.
Proof. reflexivity. Qed.
Lemma write_to_master_function_snap t :
  write_to_master_function (snap_to_live t) = write_to_master_function t.
Proof. reflexivity. Qed.
Lemma term_color_snap t : term_color (snap_to_live t) = term_color t.
Proof. reflexivity. Qed.
Lemma scrollback_snap t : scrollback (snap_to_live t) = scrollback t.
Proof. reflexivity. Qed.
Lemma scrollback_head_snap t : scrollback_head (snap_to_live t) = scrollback_head t.
Proof. reflexivity. Qed.
Lemma scrollback_count_snap t : scrollback_count (snap_to_live t) = scrollback_count t.
Proof. reflexivity. Qed.
Lemma saved_cursor_row_snap t : saved_cursor_row (snap_to_live t) = saved_cursor_row t.
Proof. reflexivity. Qed.
Lemma saved_cursor_column_snap t : saved_cursor_column (snap_to_live t) = saved_cursor_column t.
Proof. reflexivity. Qed.
Lemma cell_at_snap t r c : cell_at (snap_to_live t) r c = cell_at t r c.
Proof. reflexivity. Qed.

Create Rewrite HintDb snap.
#[global] Hint Rewrite active_snap row_count_snap column_count_snap scroll_top_snap
  scroll_bottom_snap host_calls_snap write_to_master_function_snap term_color_snap
  scrollback_snap scrollback_head_snap scrollback_count_snap saved_cursor_row_snap
  saved_cursor_column_snap cell_at_snap : snap.

(** ** Protected cells *)

Section Protected.
Variables (k : Z) (c0 : OztermCell).
Hypothesis Hprot : protected c0 = true.

(** A write guarded by the protected bit of its target keeps a protected cell. *)
Lemma guarded_write_keeps buf to v :
  rd buf k = c0 → rd (if protected (rd buf to) then buf else wr buf to v) k = c0.
Proof.
  intros Hk. destruct (decide (to = k)) as [->|Hne].
  - rewrite Hk, Hprot. exact Hk.
  - destruct (protected (rd buf to)); [exact Hk|].
    rewrite rd_wr_ne by exact Hne. exact Hk.
Qed.

Lemma erase_cell_keeps t index buf : rd buf k = c0 → rd (erase_cell t index buf) k = c0.
Proof. apply guarded_write_keeps. Qed.

Lemma erase_row_keeps t base lo hi buf :
  rd buf k = c0 → rd (for_up lo hi (fun x => erase_cell t (base + x)) buf) k = c0.
Proof.
  intros Hk. apply (for_up_ind (fun b => rd b k = c0)); [exact Hk|].
  intros i b _. apply erase_cell_keeps.
Qed.

(** A loop of guarded copies over the rows [ylo..yhi) of the grid. *)
Lemma shift_rows_up_keeps ylo yhi columns (src : Z → Z → Z) buf :
  rd buf k = c0 →
  rd (for_up ylo yhi (fun y =>
        for_up 0 columns (fun x buf =>
          let from := src y x in
          let to := y * columns + x in
          if protected (rd buf to) then buf else wr buf to (rd buf from))) buf) k = c0.
Proof.
  intros Hk. apply (for_up_ind (fun b => rd b k = c0)); [exact Hk|].
  intros y b _ Hb. apply (for_up_ind (fun b => rd b k = c0)); [exact Hb|].
  intros x b' _. cbv zeta. apply guarded_write_keeps.
Qed.

Lemma shift_rows_down_keeps yhi ylo columns (src : Z → Z → Z) buf :
  rd buf k = c0 →
  rd (for_down yhi ylo (fun y =>
        for_up 0 columns (fun x buf =>
          let to := y * columns + x in
          let from := src y x in
          if protected (rd buf to) then buf else wr buf to (rd buf from))) buf) k = c0.
Proof.
  intros Hk. apply (for_down_ind (fun b => rd b k = c0)); [exact Hk|].
  intros y b _ Hb. apply (for_up_ind (fun b => rd b k = c0)); [exact Hb|].
  intros x b' _. cbv zeta. apply guarded_write_keeps.
Qed.

(** Blanking the rows [ylo..yhi) does not touch a cell of another row. *)
Lemma clear_rows_keeps ylo yhi columns v r c buf :
  k = r * columns + c → 0 ≤ c < columns → ¬ (ylo ≤ r < yhi) →
  rd buf k = c0 →
  rd (for_up ylo yhi (fun row =>
        for_up 0 columns (fun col buf => wr buf (row * columns + col) v)) buf) k = c0.
Proof.
  intros -> Hc Hr Hk. apply (for_up_ind (fun b => rd b _ = c0)); [exact Hk|].
  intros y b Hy Hb. apply (for_up_ind (fun b => rd b _ = c0)); [exact Hb|].
  intros x b' Hx Hb'. rewrite rd_wr_ne; [exact Hb'|]. nia.
Qed.

End Protected.

Section ProtectedOps.
Context `{OztermHeader}.
Variables (t : Ozterm) (r c : Z).
Hypothesis Hc : 0 ≤ c < column_count t.
Hypothesis Hprot : protected (cell_at t r c) = true.

Lemma csi_J_keeps param : cell_at (csi_J t param) r c = cell_at t r c.
Proof.
  unfold csi_J. rewrite cell_at_set_active_buffer.
  set (mode := match param with [] => 0 | _ => atoi param end).
  destruct (mode =? 0); [|destruct (mode =? 1)];
    (apply (for_up_ind (fun b => rd b _ = cell_at t r c)); [reflexivity|]);
    intros y b _ Hb; cbv zeta; apply (erase_row_keeps _ _ Hprot); exact Hb.
Qed.

Lemma csi_K_keeps param : cell_at (csi_K t param) r c = cell_at t r c.
Proof.
  unfold csi_K. rewrite cell_at_set_active_buffer.
  apply (erase_row_keeps _ _ Hprot). reflexivity.
Qed.

Lemma insert_characters_keeps ch n :
  cell_at (ozterm_line_insert_characters t ch n) r c = cell_at t r c.
Proof.
  unfold ozterm_line_insert_characters. cbv zeta.
  destruct (cursor_column (active t) >=? column_count t); [reflexivity|].
  rewrite cell_at_set_active_buffer.
  apply (for_up_ind (fun b => rd b _ = cell_at t r c)).
  - apply (for_down_ind (fun b => rd b _ = cell_at t r c)); [reflexivity|].
    intros i b _ Hb.
    destruct (decide (cursor_row (active t) * column_count t + i = r * column_count t + c))
      as [E|E].
    + rewrite E, Hb, Hprot. exact Hb.
    + destruct (protected (rd b _)); [exact Hb|].
      match goal with |- context [if ?g then _ else _] => destruct g end;
        rewrite rd_wr_ne by exact E; exact Hb.
  - intros i b _ Hb. apply (guarded_write_keeps _ _ Hprot). exact Hb.
Qed.

Lemma delete_characters_keeps n :
  cell_at (ozterm_line_delete_characters t n) r c = cell_at t r c.
Proof.
  unfold ozterm_line_delete_characters. cbv zeta.
  destruct (cursor_column (active t) >=? column_count t); [reflexivity|].
  rewrite cell_at_set_active_buffer.
  apply (for_up_ind (fun b => rd b _ = cell_at t r c)).
  - apply (for_up_ind (fun b => rd b _ = cell_at t r c)); [reflexivity|].
    intros i b _ Hb.
    destruct (decide (cursor_row (active t) * column_count t + i = r * column_count t + c))
      as [E|E].
    + rewrite E, Hb, Hprot. exact Hb.
    + destruct (protected (rd b _)); [exact Hb|].
      match goal with |- context [if ?g then _ else _] => destruct g end;
        rewrite rd_wr_ne by exact E; exact Hb.
  - intros i b _ Hb. apply (guarded_write_keeps _ _ Hprot). exact Hb.
Qed.

Lemma scroll_up_region_keeps n :
  ¬ (scroll_bottom t - region_lines t n < r ≤ scroll_bottom t) →
  cell_at (ozterm_scroll_up_region t n) r c = cell_at t r c.
Proof.
  intros Hr. unfold ozterm_scroll_up_region. cbv zeta.
  fold (region_lines t n).
  rewrite cell_at_call_refresh, cell_at_set_active_buffer.
  apply (clear_rows_keeps _ _ _ _ _ _ r c); [reflexivity | exact Hc | lia |].
  apply (shift_rows_up_keeps _ _ Hprot _ _ _
           (fun y x => (y + region_lines t n) * column_count t + x)).
  reflexivity.
Qed.

Lemma scroll_down_region_keeps n :
  ¬ (scroll_top t ≤ r < scroll_top t + region_lines t n) →
  cell_at (ozterm_scroll_down_region t n) r c = cell_at t r c.
Proof.
  intros Hr. unfold ozterm_scroll_down_region. cbv zeta.
  fold (region_lines t n).
  rewrite cell_at_call_refresh, cell_at_set_active_buffer.
  apply (clear_rows_keeps _ _ _ _ _ _ r c); [reflexivity | exact Hc | lia |].
  apply (shift_rows_down_keeps _ _ Hprot _ _ _
           (fun y x => (y - region_lines t n) * column_count t + x)).
  reflexivity.
Qed.

Lemma insert_lines_keeps from_row n :
  ¬ (from_row ≤ r < from_row + span_lines t from_row n) →
  cell_at (ozterm_insert_lines t from_row n) r c = cell_at t r c.
Proof.
  intros Hr. unfold ozterm_insert_lines. cbv zeta.
  destruct (n <=? 0); [reflexivity|].
  destruct ((from_row <? scroll_top t) || (from_row >? scroll_bottom t)); [reflexivity|].
  fold (span_lines t from_row n).
  rewrite cell_at_call_refresh, cell_at_set_active_buffer.
  apply (clear_rows_keeps _ _ _ _ _ _ r c); [reflexivity | exact Hc | lia |].
  apply (shift_rows_down_keeps _ _ Hprot _ _ _
           (fun y x => (y - span_lines t from_row n) * column_count t + x)).
  reflexivity.
Qed.

Lemma delete_lines_keeps from_row n :
  ¬ (scroll_bottom t - span_lines t from_row n < r ≤ scroll_bottom t) →
  cell_at (ozterm_delete_lines t from_row n) r c = cell_at t r c.
Proof.
  intros Hr. unfold ozterm_delete_lines. cbv zeta.
  destruct (n <=? 0); [reflexivity|].
  destruct ((from_row <? scroll_top t) || (from_row >? scroll_bottom t)); [reflexivity|].
  fold (span_lines t from_row n).
  rewrite cell_at_call_refresh, cell_at_set_active_buffer.
  apply (clear_rows_keeps _ _ _ _ _ _ r c); [reflexivity | exact Hc | lia |].
  apply (shift_rows_up_keeps _ _ Hprot _ _ _
           (fun y x => (y + span_lines t from_row n) * column_count t + x)).
  reflexivity.
Qed.

End ProtectedOps.

(** ** Erase, shift and scroll against protected cells *)

(** C2, as stated, fails: scrolling the region up by one line blanks the
    bottom row of the region, protected cells included. *)
Lemma protected_cell_cleared_by_scroll_up :
  protected (cell_at protected_bottom 1 0) = true ∧
  cell_at (ozterm_scroll_up_region protected_bottom 1) 1 0 ≠ cell_at protected_bottom 1 0.
Proof. split; [reflexivity | vm_compute; discriminate]. Qed.

(** C2 (amended): on a terminal whose buffer holds the grid, with the
    cursor on a cell of the grid and both margins of the scroll region on
    rows of the grid, a protected cell keeps its character, colour and
    protected bit under erase-screen (CSI J), erase-line (CSI K), and under
    insert-characters (CSI @) and delete-characters (CSI P) for a count that
    is not negative as the [int16_t] the function receives; under
    scroll-region-up, scroll-region-down, insert-lines and delete-lines it
    keeps them when it lies outside the rows the operation blanks (the last
    [lines] rows of the region for a scroll up or a delete, the first ones
    from the start row for a scroll down or an insert). *)
Theorem protected_cells_preserved (t : Ozterm) (r c : Z) :
  grid_ok t →
  cursor_in_grid t →
  margins_in_grid t →
  0 ≤ c < column_count t →
  protected (cell_at t r c) = true →
  (∀ param, cell_at (csi_J t param) r c = cell_at t r c) ∧
  (∀ param, cell_at (csi_K t param) r c = cell_at t r c) ∧
  (∀ ch n, 0 ≤ to_int16 n →
        cell_at (ozterm_line_insert_characters t ch n) r c = cell_at t r c) ∧
  (∀ n, 0 ≤ to_int16 n →
        cell_at (ozterm_line_delete_characters t n) r c = cell_at t r c) ∧
  (∀ n, ¬ (scroll_bottom t - region_lines t n < r ≤ scroll_bottom t) →
        cell_at (ozterm_scroll_up_region t n) r c = cell_at t r c) ∧
  (∀ n, ¬ (scroll_top t ≤ r < scroll_top t + region_lines t n) →
        cell_at (ozterm_scroll_down_region t n) r c = cell_at t r c) ∧
  (∀ from_row n, ¬ (from_row ≤ r < from_row + span_lines t from_row n) →
        cell_at (ozterm_insert_lines t from_row n) r c = cell_at t r c) ∧
  (∀ from_row n, ¬ (scroll_bottom t - span_lines t from_row n < r ≤ scroll_bottom t) →
        cell_at (ozterm_delete_lines t from_row n) r c = cell_at t r c).
Proof.
  intros _ _ _ Hc Hp. repeat split; intros.
  - apply csi_J_keeps; assumption.
  - apply csi_K_keeps; assumption.
  - apply insert_characters_keeps; assumption.
  - apply delete_characters_keeps; assumption.
  - apply scroll_up_region_keeps; assumption.
  - apply scroll_down_region_keeps; assumption.
  - apply insert_lines_keeps; assumption.
  - apply delete_lines_keeps; assumption.
Qed.

(** On [protected_top] the protected 'P' of the top row survives an erase
    of the whole screen and a scroll of the region. *)
Lemma protected_cells_preserved_witness :
  (grid_ok protected_top ∧ cursor_in_grid protected_top ∧ margins_in_grid protected_top ∧
   0 ≤ 0 < column_count protected_top ∧ protected (cell_at protected_top 0 0) = true) ∧
  cell_at (csi_J protected_top (bytes "2")) 0 0 = mkCell (ch "P") 10 true ∧
  cell_at (ozterm_line_delete_characters protected_top 1) 0 0 = mkCell (ch "P") 10 true ∧
  cell_at (ozterm_scroll_up_region protected_top 1) 0 0 = mkCell (ch "P") 10 true.
Proof.
  assert (Hg : grid_ok protected_top) by (vm_compute; repeat split; discriminate).
  assert (Hi : cursor_in_grid protected_top)
    by (vm_compute; repeat split; discriminate).
  assert (Hm : margins_in_grid protected_top)
    by (vm_compute; repeat split; discriminate).
  assert (Hc : 0 ≤ 0 < column_count protected_top)
    by (change (column_count protected_top) with 1; lia).
  assert (Hp : protected (cell_at protected_top 0 0) = true) by reflexivity.
  pose proof (protected_cells_preserved protected_top 0 0 Hg Hi Hm Hc Hp)
    as (HJ & _ & _ & HP & HS & _).
  split; [exact (conj Hg (conj Hi (conj Hm (conj Hc Hp)))) |].
  split; [| split].
  - rewrite HJ. reflexivity.
  - rewrite HP; [reflexivity |]. vm_compute. discriminate.
  - rewrite HS; [reflexivity |]. vm_compute. intros [H1 _]. discriminate H1.
Defined.

(** ** Feeding a buffer *)

Section Feeding.
Context `{OztermHeader}.

Lemma put_text_loop_spec st text i size :
  put_text_loop st text i size
  = fold_left ozterm_put_character (take (Z.to_nat (size - i)) (until_nul text)) st.
Proof.
  revert st i. induction text as [|c rest IH]; intros st i; simpl.
  - rewrite take_nil. reflexivity.
  - destruct (c =? 0); simpl.
    + rewrite take_nil. reflexivity.
    + destruct (Z.ltb_spec i size) as [Hlt|Hge].
      * rewrite IH.
        replace (Z.to_nat (size - i)) with (S (Z.to_nat (size - (i + 1)))) by lia.
        reflexivity.
      * replace (Z.to_nat (size - i)) with O by lia. reflexivity.
Qed.

Lemma put_text_spec st text size :
  ozterm_put_text st text size
  = fold_left ozterm_put_character (take (Z.to_nat size) (until_nul text)) st.
Proof.
  unfold ozterm_put_text. rewrite put_text_loop_spec.
  replace (size - 0) with size by lia. reflexivity.
Qed.

Lemma put_text_single st c : c ≠ 0 → ozterm_put_text st [c] 1 = ozterm_put_character st c.
Proof.
  intros Hc. rewrite put_text_spec. simpl.
  destruct (Z.eqb_spec c 0); [contradiction | reflexivity].
Qed.

Lemma until_nul_nonzero text : Forall (fun c => c ≠ 0) (until_nul text).
Proof.
  induction text as [|c rest IH]; simpl; [constructor|].
  destruct (Z.eqb_spec c 0); constructor; assumption.
Qed.

Lemma until_nul_id text : forallb (fun c => negb (c =? 0)) text = true → until_nul text = text.
Proof.
  induction text as [|c rest IH]; simpl; [reflexivity|].
  intros Hall. apply andb_true_iff in Hall as [Hc Hrest].
  destruct (c =? 0); [discriminate|]. rewrite IH by exact Hrest. reflexivity.
Qed.

(** A buffer without a zero byte is processed byte by byte to its end. *)
Lemma feed_fold st data :
  forallb (fun c => negb (c =? 0)) data = true →
  feed st data = fold_left ozterm_put_character data st.
Proof.
  intros Hall. unfold feed, ozterm_have_read_from_master.
  rewrite put_text_spec, until_nul_id by exact Hall.
  rewrite Nat2Z.id, firstn_all. reflexivity.
Qed.

Lemma feed_app st a b :
  forallb (fun c => negb (c =? 0)) a = true →
  forallb (fun c => negb (c =? 0)) b = true →
  feed st (a ++ b) = feed (feed st a) b.
Proof.
  intros Ha Hb. rewrite !feed_fold; [apply fold_left_app | assumption | assumption |].
  rewrite forallb_app, Ha, Hb. reflexivity.
Qed.

End Feeding.

(** C4, as stated, fails: the buffer 'A', 0x00, 'B' fed in one call of size
    3 writes 'A' only; fed byte by byte it writes 'A' and 'B'. *)
Lemma zero_byte_stops_put_text :
  let whole := @ozterm_have_read_from_master sample_header (fresh 1 3) [ch "A"; 0; ch "B"] 3 in
  let single := @feed_one_by_one sample_header (fresh 1 3) [ch "A"; 0; ch "B"] in
  whole ≠ single ∧
  character (cell_at (snd whole) 0 1) = ch " " ∧
  character (cell_at (snd single) 0 1) = ch "B".
Proof. vm_compute. repeat split; discriminate. Qed.

(** C4 (amended): a buffer fed in a single call is processed strictly in
    order, each byte with the effect of feeding it alone, up to the first
    0x00 byte or up to [size] bytes, whichever comes first; the bytes from
    the first 0x00 on are not processed. *)
Theorem put_text_in_order `{OztermHeader} (st : Parser * Ozterm) (text : list Z) (size : Z) :
  ozterm_have_read_from_master st text size
  = feed_one_by_one st (take (Z.to_nat size) (until_nul text)).
Proof.
  unfold ozterm_have_read_from_master, feed_one_by_one. rewrite put_text_spec.
  assert (Hnz : Forall (fun c => c ≠ 0) (take (Z.to_nat size) (until_nul text)))
    by (apply Forall_take, until_nul_nonzero).
  revert st. induction Hnz as [|c l Hc _ IH]; intros st; simpl; [reflexivity|].
  rewrite put_text_single by exact Hc. apply IH.
Qed.

(** ** Cursor motion *)

Lemma to_int16_id z : -32768 ≤ z ≤ 32767 → to_int16 z = z.
Proof. intros Hz. unfold to_int16. rewrite Z.mod_small by lia. lia. Qed.

Lemma to_uint16_id z : 0 ≤ z ≤ 65535 → to_uint16 z = z.
Proof. intros Hz. unfold to_uint16. apply Z.mod_small. lia. Qed.

Lemma clamp16_in_grid limit v : 0 ≤ v < limit → limit ≤ 32767 → clamp16 limit v = v.
Proof.
  intros Hv Hl. unfold clamp16. rewrite to_int16_id by lia.
  destruct (Z.geb_spec v limit); [lia|].
  destruct (Z.ltb_spec v 0); [lia | reflexivity].
Qed.

Lemma clamp16_range limit v : 1 ≤ limit ≤ 32767 → 0 ≤ clamp16 limit v < limit.
Proof.
  intros Hl. unfold clamp16.
  assert (Hw : -32768 ≤ to_int16 v ≤ 32767).
  { unfold to_int16. pose proof (Z.mod_pos_bound (v + 32768) 65536). lia. }
  destruct (Z.geb_spec (to_int16 v) limit).
  - rewrite to_int16_id by lia. destruct (Z.ltb_spec (limit - 1) 0); lia.
  - destruct (Z.ltb_spec (to_int16 v) 0); lia.
Qed.

Lemma cursor_row_move_cursor t row column :
  cursor_row (active (ozterm_move_cursor t row column)) = clamp16 (row_count t) row.
Proof. unfold ozterm_move_cursor. cbv zeta. rewrite !active_set_active. reflexivity. Qed.

Lemma cursor_column_move_cursor t row column :
  cursor_column (active (ozterm_move_cursor t row column)) = clamp16 (column_count t) column.
Proof. unfold ozterm_move_cursor. cbv zeta. rewrite !active_set_active. reflexivity. Qed.

Lemma buffer_move_cursor t row column :
  buffer (active (ozterm_move_cursor t row column)) = buffer (active t).
Proof. unfold ozterm_move_cursor. cbv zeta. rewrite !active_set_active. reflexivity. Qed.

Lemma cell_at_move_cursor t row column r c :
  cell_at (ozterm_move_cursor t row column) r c = cell_at t r c.
Proof. unfold cell_at. rewrite buffer_move_cursor. reflexivity. Qed.

(** ** Decimal output *)

Lemma length_dec_digits fuel n acc :
  (length (dec_digits fuel n acc) ≤ fuel + length acc)%nat.
Proof.
  revert n acc. induction fuel as [|fuel IH]; intros n acc; simpl; [lia|].
  destruct (n <? 10); simpl; [lia|].
  specialize (IH (n / 10) ((48 + n mod 10) :: acc)). simpl in IH. lia.
Qed.

Lemma length_fmt_d n : (length (fmt_d n) ≤ 11)%nat.
Proof.
  unfold fmt_d. destruct (n <? 0); simpl.
  - pose proof (length_dec_digits 10 (- n) []). simpl in *. lia.
  - pose proof (length_dec_digits 10 n []). simpl in *. lia.
Qed.

Lemma dec_digits_decimal fuel : ∀ n acc,
  0 ≤ n < 10 ^ Z.of_nat fuel →
  ∃ ds, dec_digits fuel n acc = ds ++ acc ∧
        forallb isdigit ds = true ∧ decimal_value ds = n.
Proof.
  induction fuel as [|fuel IH]; intros n acc Hn.
  - exists []. simpl in Hn. assert (n = 0) by lia. subst. repeat split.
  - cbn [dec_digits]. cbv zeta.
    pose proof (Z.mod_pos_bound n 10 ltac:(lia)) as Hd.
    assert (Hdig : isdigit (48 + n mod 10) = true).
    { unfold isdigit. apply andb_true_iff. split; apply Z.leb_le; lia. }
    destruct (Z.ltb_spec n 10) as [Hlt|Hge].
    + exists [48 + n mod 10]. split; [reflexivity|]. split.
      * simpl. rewrite Hdig. reflexivity.
      * unfold decimal_value. simpl. rewrite Z.mod_small by lia. lia.
    + destruct (IH (n / 10) ((48 + n mod 10) :: acc)) as (ds & Heq & Hall & Hval).
      { split; [apply Z.div_pos; lia|].
        apply Z.div_lt_upper_bound; [lia|].
        rewrite Nat2Z.inj_succ, Z.pow_succ_r in Hn by lia. lia. }
      exists (ds ++ [48 + n mod 10]). split; [|split].
      * rewrite Heq, <- app_assoc. reflexivity.
      * rewrite forallb_app, Hall. simpl. rewrite Hdig. reflexivity.
      * unfold decimal_value in *. rewrite fold_left_app, Hval. simpl.
        pose proof (Z.div_mod n 10 ltac:(lia)). lia.
Qed.

(** ["%d"] prints a non-negative [int] as the decimal digits of its value. *)
Lemma fmt_d_decimal n :
  0 ≤ n < 10 ^ 10 →
  forallb isdigit (fmt_d n) = true ∧ decimal_value (fmt_d n) = n.
Proof.
  intros Hn. unfold fmt_d. destruct (Z.ltb_spec n 0); [lia|].
  destruct (dec_digits_decimal 10 n [] Hn) as (ds & Heq & Hall & Hval).
  rewrite Heq, app_nil_r. split; assumption.
Qed.

(** ** Replies and parameters *)

Section Sequences.
Context `{OztermHeader}.

Lemma run_dsr p t :
  parse_state p = STATE_NORMAL →
  snd (fold_left ozterm_put_character ([ESC] ++ bytes "[6n") (p, t))
  = snap_to_live (csi_n (snap_to_live (snap_to_live (snap_to_live t))) (bytes "6")).
Proof. intros Hp. destruct p. simpl in Hp. subst. reflexivity. Qed.

(** C7: with [write_to_master] installed and the parser between two
    sequences, feeding [ESC [ 6 n] makes exactly one call to the host,
    [write_to_master] with the bytes [ESC [ row+1 ; col+1 R]. *)
Theorem cursor_position_report p t :
  parse_state p = STATE_NORMAL →
  write_to_master_function t = true →
  host_calls (snd (feed (p, t) ([ESC] ++ bytes "[6n")))
  = host_calls t ++
      [WriteToMaster ([ESC; ch "["] ++ fmt_d (cursor_row (active t) + 1) ++ [ch ";"]
                        ++ fmt_d (cursor_column (active t) + 1) ++ [ch "R"])].
Proof.
  intros Hp Hw. rewrite feed_fold by reflexivity. rewrite run_dsr by exact Hp.
  rewrite host_calls_snap.
  unfold csi_n. change (streq (bytes "6") (bytes "6")) with true. cbv iota.
  autorewrite with snap.
  set (text := [ESC; ch "["] ++ fmt_d (cursor_row (active t) + 1) ++ [ch ";"]
                 ++ fmt_d (cursor_column (active t) + 1) ++ [ch "R"]).
  assert (Hlen : (4 ≤ length text ≤ 31)%nat).
  { unfold text. rewrite !length_app. simpl.
    pose proof (length_fmt_d (cursor_row (active t) + 1)).
    pose proof (length_fmt_d (cursor_column (active t) + 1)). lia. }
  unfold snprintf. change (Z.to_nat (32 - 1)) with 31%nat.
  rewrite take_ge by lia.
  unfold write_to_master, call_host. cbn [host_calls set_host_calls].
  autorewrite with snap. rewrite Hw.
  replace (Z.of_nat (length text) >? 0) with true by (symmetry; apply Z.gtb_lt; lia).
  rewrite Nat2Z.id, take_ge by lia. reflexivity.
Qed.

Lemma run_csi_zero p t final :
  parse_state p = STATE_NORMAL →
  In final (bytes "ABCD") →
  snd (fold_left ozterm_put_character ([ESC] ++ bytes "[0" ++ [final]) (p, t))
  = snap_to_live
      (csi_dispatch (snap_to_live (snap_to_live (snap_to_live t))) (bytes "0") false final).
Proof.
  intros Hp Hf. destruct p. simpl in Hp. subst.
  simpl in Hf. destruct Hf as [<-|[<-|[<-|[<-|[]]]]]; reflexivity.
Qed.

Lemma run_csi_bare p t final :
  parse_state p = STATE_NORMAL →
  In final (bytes "ABCD") →
  snd (fold_left ozterm_put_character ([ESC] ++ bytes "[" ++ [final]) (p, t))
  = snap_to_live (csi_dispatch (snap_to_live (snap_to_live t)) [] false final).
Proof.
  intros Hp Hf. destruct p. simpl in Hp. subst.
  simpl in Hf. destruct Hf as [<-|[<-|[<-|[<-|[]]]]]; reflexivity.
Qed.

(** C6 on the code: with a parameter of zero the sequences [ESC [ 0 A],
    [B], [C] and [D] leave the cursor where it is, while [ESC [ A] without
    a parameter moves it up by one row. *)
Theorem cursor_keys_with_zero_do_not_move p t final :
  parse_state p = STATE_NORMAL →
  cursor_in_grid t →
  In final (bytes "ABCD") →
  let zero := snd (feed (p, t) ([ESC] ++ bytes "[0" ++ [final])) in
  let bare := snd (feed (p, t) ([ESC] ++ bytes "[A")) in
  cursor_row (active zero) = cursor_row (active t) ∧
  cursor_column (active zero) = cursor_column (active t) ∧
  (0 < cursor_row (active t) → cursor_row (active bare) = cursor_row (active t) - 1).
Proof.
  intros Hp (Hr & Hc & Hrows & Hcols) Hf. cbv zeta.
  assert (Hnz : forallb (fun c => negb (c =? 0)) ([ESC] ++ bytes "[0" ++ [final]) = true).
  { simpl in Hf. destruct Hf as [<-|[<-|[<-|[<-|[]]]]]; reflexivity. }
  rewrite (feed_fold _ _ Hnz), run_csi_zero by assumption.
  rewrite feed_fold by reflexivity.
  change ([ESC] ++ bytes "[A") with ([ESC] ++ bytes "[" ++ [ch "A"]).
  rewrite (run_csi_bare p t (ch "A")) by (assumption || (simpl; tauto)).
  rewrite !active_snap.
  assert (Hz : ∀ t' dr dc, active t' = active t → row_count t' = row_count t →
            column_count t' = column_count t → dr = 0 → dc = 0 →
            cursor_row (active (ozterm_move_cursor_diff t' dr dc)) = cursor_row (active t) ∧
            cursor_column (active (ozterm_move_cursor_diff t' dr dc))
              = cursor_column (active t)).
  { intros t' dr dc Ha Hrc Hcc -> ->. unfold ozterm_move_cursor_diff. cbv zeta.
    rewrite cursor_row_move_cursor, cursor_column_move_cursor, Ha, Hrc, Hcc.
    change (to_int16 0) with 0. rewrite !Z.add_0_r.
    rewrite !clamp16_in_grid by lia. split; reflexivity. }
  assert (Hzero : ∃ dr dc,
            csi_dispatch (snap_to_live (snap_to_live (snap_to_live t))) (bytes "0") false final
            = ozterm_move_cursor_diff (snap_to_live (snap_to_live (snap_to_live t))) dr dc
            ∧ dr = 0 ∧ dc = 0).
  { simpl in Hf. destruct Hf as [<-|[<-|[<-|[<-|[]]]]];
      do 2 eexists; (split; [reflexivity | split; reflexivity]). }
  destruct Hzero as (dr & dc & -> & Hdr & Hdc).
  split; [|split].
  - apply Hz; autorewrite with snap; auto.
  - apply Hz; autorewrite with snap; auto.
  - intros Hpos.
    change (csi_dispatch (snap_to_live (snap_to_live t)) [] false (ch "A"))
      with (ozterm_move_cursor_diff (snap_to_live (snap_to_live t)) (to_int32 (- 1)) 0).
    unfold ozterm_move_cursor_diff. cbv zeta. rewrite cursor_row_move_cursor.
    autorewrite with snap.
    change (to_int16 (to_int32 (- 1))) with (- 1).
    rewrite clamp16_in_grid by lia. lia.
Qed.

Lemma run_decstbm_5_3 p t :
  parse_state p = STATE_NORMAL →
  snd (fold_left ozterm_put_character ([ESC] ++ bytes "[5;3r") (p, t))
  = snap_to_live
      (csi_r (snap_to_live (snap_to_live (snap_to_live (snap_to_live (snap_to_live t)))))
         5 3).
Proof. intros Hp. destruct p. simpl in Hp. subst. reflexivity. Qed.

(** The range check of [case 'r'] keeps both margins inside the grid. *)
Lemma csi_r_in_range t p1 p2 :
  1 ≤ row_count t →
  0 ≤ scroll_top (csi_r t p1 p2) < row_count t ∧
  0 ≤ scroll_bottom (csi_r t p1 p2) < row_count t.
Proof.
  intros Hrows. unfold csi_r.
  destruct (Z.geb_spec p1 1), (Z.geb_spec p2 1), (Z.leb_spec p1 (row_count t)),
    (Z.leb_spec p2 (row_count t)); simpl; lia.
Qed.

(** C5 on the code: on a terminal of at least five rows, [ESC [ 5 ; 3 r]
    passes the range check and leaves [scroll_top = 4] above
    [scroll_bottom = 2]. *)
Theorem decstbm_accepts_inverted_region p t :
  parse_state p = STATE_NORMAL →
  5 ≤ row_count t →
  let t' := snd (feed (p, t) ([ESC] ++ bytes "[5;3r")) in
  scroll_top t' = 4 ∧ scroll_bottom t' = 2 ∧ ¬ (scroll_top t' ≤ scroll_bottom t').
Proof.
  intros Hp Hrows. cbv zeta.
  rewrite feed_fold by reflexivity. rewrite run_decstbm_5_3 by exact Hp.
  rewrite scroll_top_snap, scroll_bottom_snap.
  unfold csi_r. autorewrite with snap.
  destruct (Z.leb_spec 5 (row_count t)); [|lia].
  destruct (Z.leb_spec 3 (row_count t)); [|lia].
  cbn [andb Z.geb Z.compare Pos.compare Pos.compare_cont scroll_top scroll_bottom
       set_scroll_region]. lia.
Qed.

End Sequences.

(** With the cursor at (2, 3) the reply is [ESC [ 3 ; 4 R]. *)
Lemma cursor_position_report_witness :
  (parse_state (fst cursor_at_2_3) = STATE_NORMAL ∧
   write_to_master_function (snd cursor_at_2_3) = true ∧
   cursor_row (active (snd cursor_at_2_3)) = 2 ∧
   cursor_column (active (snd cursor_at_2_3)) = 3) ∧
  host_calls (snd (feed_sample cursor_at_2_3 ([ESC] ++ bytes "[6n")))
  = host_calls (snd cursor_at_2_3) ++ [WriteToMaster ([ESC] ++ bytes "[3;4R")].
Proof.
  split; [repeat split; reflexivity |].
  pose proof (@cursor_position_report sample_header (fst cursor_at_2_3) (snd cursor_at_2_3)
                eq_refl eq_refl) as Hr.
  vm_compute in Hr. vm_compute. exact Hr.
Defined.

(** From row 2, [ESC [ 0 A] stays on row 2 and [ESC [ A] reaches row 1. *)
Lemma cursor_keys_with_zero_do_not_move_witness :
  cursor_in_grid (snd cursor_at_2_3) ∧
  cursor_row (active (snd (feed_sample cursor_at_2_3 ([ESC] ++ bytes "[0A")))) = 2 ∧
  cursor_row (active (snd (feed_sample cursor_at_2_3 ([ESC] ++ bytes "[A")))) = 1.
Proof.
  assert (Hg : cursor_in_grid (snd cursor_at_2_3)).
  { unfold cursor_in_grid.
    change (cursor_row (active (snd cursor_at_2_3))) with 2.
    change (cursor_column (active (snd cursor_at_2_3))) with 3.
    change (row_count (snd cursor_at_2_3)) with 3.
    change (column_count (snd cursor_at_2_3)) with 4. lia. }
  split; [exact Hg |].
  pose proof (@cursor_keys_with_zero_do_not_move sample_header (fst cursor_at_2_3)
                (snd cursor_at_2_3) (ch "A") eq_refl Hg (or_introl eq_refl))
    as (Hzero & _ & Hbare).
  assert (Hpos : 0 < cursor_row (active (snd cursor_at_2_3)))
    by (change (cursor_row (active (snd cursor_at_2_3))) with 2; lia).
  specialize (Hbare Hpos).
  vm_compute in Hzero, Hbare. vm_compute. split; [exact Hzero | exact Hbare].
Defined.

(** On five rows, [ESC [ 5 ; 3 r] leaves the margins 4 and 2. *)
Lemma decstbm_accepts_inverted_region_witness :
  5 ≤ row_count (snd five_rows) ∧
  scroll_top (snd (feed_sample five_rows ([ESC] ++ bytes "[5;3r"))) = 4 ∧
  scroll_bottom (snd (feed_sample five_rows ([ESC] ++ bytes "[5;3r"))) = 2.
Proof.
  assert (Hr : 5 ≤ row_count (snd five_rows))
    by (change (row_count (snd five_rows)) with 5; lia).
  split; [exact Hr |].
  pose proof (@decstbm_accepts_inverted_region sample_header (fst five_rows) (snd five_rows)
                eq_refl Hr) as (Ht & Hb & _).
  vm_compute in Ht, Hb. vm_compute. split; [exact Ht | exact Hb].
Defined.

(** ** Row-major sweeps over the grid *)

Lemma sweep_rows {B : Type} (body : Z → Z → B → B) (Inv : Z → B → Prop) ylo yhi cols buf :
  0 ≤ cols → ylo ≤ yhi →
  Inv (ylo * cols) buf →
  (∀ y x b, ylo ≤ y < yhi → 0 ≤ x < cols →
     Inv (y * cols + x) b → Inv (y * cols + x + 1) (body y x b)) →
  Inv (yhi * cols) (for_up ylo yhi (fun y => for_up 0 cols (body y)) buf).
Proof.
  intros Hcols Hy Hstart Hstep.
  pose proof (for_up_inv (fun y b => Inv (y * cols) b) ylo yhi
                (fun y => for_up 0 cols (body y)) buf Hstart) as Houter.
  replace (Z.max ylo yhi) with yhi in Houter by lia.
  apply Houter. intros y b Hyr Hb.
  pose proof (for_up_inv (fun x b => Inv (y * cols + x) b) 0 cols (body y) b) as Hinner.
  replace (Z.max 0 cols) with cols in Hinner by lia.
  replace ((y + 1) * cols) with (y * cols + cols) by lia.
  apply Hinner.
  - replace (y * cols + 0) with (y * cols) by lia. exact Hb.
  - intros x b' Hx Hb'. rewrite Z.add_assoc. apply Hstep; assumption.
Qed.

(** A sweep whose step at the linear index [m] replaces the cell [m] by a
    function of itself and of the cell [d] places ahead. *)
Lemma sweep_cells (body : Z → Z → list OztermCell → list OztermCell)
    (F : OztermCell → OztermCell → OztermCell) d ylo yhi cols buf :
  0 ≤ cols → ylo ≤ yhi → 0 ≤ d →
  (∀ y x b, ylo ≤ y < yhi → 0 ≤ x < cols → length b = length buf →
     length (body y x b) = length buf ∧
     ∀ k, rd (body y x b) k
          = if decide (k = y * cols + x) then F (rd b k) (rd b (k + d)) else rd b k) →
  let out := for_up ylo yhi (fun y => for_up 0 cols (body y)) buf in
  length out = length buf ∧
  ∀ k, rd out k
       = if decide (ylo * cols ≤ k < yhi * cols) then F (rd buf k) (rd buf (k + d))
         else rd buf k.
Proof.
  intros Hcols Hy Hd Hstep out. unfold out.
  pose proof (sweep_rows body
           (fun m b => length b = length buf ∧
                       ∀ k, rd b k = if decide (ylo * cols ≤ k < m)
                                     then F (rd buf k) (rd buf (k + d)) else rd buf k)
           ylo yhi cols buf Hcols Hy) as Hs.
  cbv beta in Hs. apply Hs; clear Hs.
  - split; [reflexivity|]. intros k. destruct (decide _); [lia | reflexivity].
  - intros y x b Hyr Hx [Hlen Hb].
    destruct (Hstep y x b Hyr Hx Hlen) as [Hlen' Hrd].
    split; [exact Hlen'|]. intros k. rewrite Hrd.
    assert (Hlo : ylo * cols ≤ y * cols + x) by nia.
    destruct (decide (k = y * cols + x)) as [->|Hne].
    + rewrite !Hb.
      destruct (decide (ylo * cols ≤ y * cols + x < y * cols + x)); [lia|].
      destruct (decide (ylo * cols ≤ y * cols + x + d < y * cols + x)); [lia|].
      destruct (decide (ylo * cols ≤ y * cols + x < y * cols + x + 1)); [reflexivity | lia].
    + rewrite Hb.
      destruct (decide (ylo * cols ≤ k < y * cols + x)),
        (decide (ylo * cols ≤ k < y * cols + x + 1)); try reflexivity; lia.
Qed.

Lemma rd_out_of_range buf k : ¬ (0 ≤ k < Z.of_nat (length buf)) → rd buf k = zero_cell.
Proof.
  intros Hk. unfold rd. destruct (decide (0 ≤ k)); [|reflexivity].
  rewrite lookup_ge_None_2 by lia. reflexivity.
Qed.

(** The three steps the sweeps of the source are made of. *)
Lemma paint_step (g : OztermCell → OztermCell) m b :
  0 ≤ m < Z.of_nat (length b) →
  length (wr b m (g (rd b m))) = length b ∧
  ∀ k, rd (wr b m (g (rd b m))) k = if decide (k = m) then g (rd b k) else rd b k.
Proof.
  intros Hm. split; [apply length_wr|]. intros k.
  destruct (decide (k = m)) as [->|Hne]; [apply rd_wr_eq; exact Hm|].
  apply rd_wr_ne. congruence.
Qed.

Lemma copy_step to from b :
  0 ≤ to < Z.of_nat (length b) →
  let b' := if protected (rd b to) then b else wr b to (rd b from) in
  length b' = length b ∧
  ∀ k, rd b' k
       = if decide (k = to)
         then (if protected (rd b k) then rd b k else rd b (k + (from - to)))
         else rd b k.
Proof.
  intros Hto b'. unfold b'. destruct (protected (rd b to)) eqn:Hp.
  - split; [reflexivity|]. intros k.
    destruct (decide (k = to)) as [->|]; [rewrite Hp|]; reflexivity.
  - split; [apply length_wr|]. intros k.
    destruct (decide (k = to)) as [->|Hne].
    + rewrite Hp, rd_wr_eq by exact Hto. f_equal. lia.
    + apply rd_wr_ne. congruence.
Qed.

Lemma row_range a b r c cols :
  0 ≤ c < cols → (a * cols ≤ r * cols + c < b * cols ↔ a ≤ r < b).
Proof. intros Hc. split; intros Hr; nia. Qed.

Lemma decaln_cells t r c :
  grid_ok t → 0 ≤ r < row_count t → 0 ≤ c < column_count t →
  cell_at (decaln t) r c = mkCell (ch "E") (term_color t) (protected (cell_at t r c)).
Proof.
  intros (Hrows & Hcols & Hlen) Hr Hc. unfold decaln.
  rewrite cell_at_move_cursor, cell_at_set_active_buffer.
  pose proof (sweep_cells
    (fun y x buf => let idx := y * column_count t + x in
                    wr buf idx (repaint (ch "E") (term_color t) (rd buf idx)))
    (fun a _ => repaint (ch "E") (term_color t) a) 0 0 (row_count t) (column_count t)
    (buffer (active t)) Hcols Hrows (Z.le_refl 0)) as Hs.
  cbv zeta in Hs. destruct Hs as [_ Hs].
  - intros y x b Hy Hx Hb. rewrite <- Hb.
    apply (paint_step (repaint (ch "E") (term_color t))). rewrite Hb. nia.
  - rewrite Hs. destruct (decide _) as [_|Hn]; [reflexivity|].
    exfalso. apply Hn. apply row_range; [exact Hc | lia].
Qed.

Lemma scroll_up_region_cells t n r c :
  grid_ok t → region_ok t → 0 ≤ c < column_count t →
  cell_at (ozterm_scroll_up_region t n) r c
  = if decide (scroll_top t ≤ r ≤ scroll_bottom t - region_lines t n)
    then (if protected (cell_at t r c) then cell_at t r c
          else cell_at t (r + region_lines t n) c)
    else if decide (scroll_bottom t - region_lines t n < r ≤ scroll_bottom t)
         then blank t else cell_at t r c.
Proof.
  intros (Hrows & Hcols & Hlen) (Htop & Hreg & Hbot) Hc.
  unfold ozterm_scroll_up_region. cbv zeta. fold (region_lines t n).
  assert (Hl : 1 ≤ region_lines t n ≤ scroll_bottom t - scroll_top t + 1).
  { unfold region_lines. destruct (Z.leb_spec n 0);
      match goal with |- context [?a >? ?b] => destruct (Z.gtb_spec a b) end; lia. }
  set (lines := region_lines t n) in *.
  set (cols := column_count t) in *.
  rewrite cell_at_call_refresh, cell_at_set_active_buffer. fold cols.
  pose proof (sweep_cells
    (fun y x buf => let from := (y + lines) * cols + x in
                    let to := y * cols + x in
                    if protected (rd buf to) then buf else wr buf to (rd buf from))
    (fun a a' => if protected a then a else a') (lines * cols)
    (scroll_top t) (scroll_bottom t - lines + 1) cols
    (buffer (active t)) Hcols ltac:(lia) ltac:(nia)) as Hshift.
  cbv zeta in Hshift. destruct Hshift as [Hlen1 Hshift].
  { intros y x b Hy Hx Hb.
    pose proof (copy_step (y * cols + x) ((y + lines) * cols + x) b) as Hstep.
    cbv zeta in Hstep.
    replace ((y + lines) * cols + x - (y * cols + x)) with (lines * cols) in Hstep by lia.
    rewrite <- Hb. apply Hstep. rewrite Hb. nia. }
  set (shifted := for_up (scroll_top t) (scroll_bottom t - lines + 1) _ _) in *.
  pose proof (sweep_cells
    (fun row col buf => wr buf (row * cols + col) (blank t))
    (fun _ _ => blank t) 0
    (scroll_bottom t - lines + 1) (scroll_bottom t + 1) cols
    shifted Hcols ltac:(lia) (Z.le_refl 0)) as Hclear.
  cbv zeta in Hclear. destruct Hclear as [_ Hclear].
  { intros y x b Hy Hx Hb.
    pose proof (paint_step (fun _ => blank t) (y * cols + x) b) as Hstep.
    rewrite <- Hb. apply Hstep. rewrite Hb, Hlen1. nia. }
  rewrite Hclear, Hshift. unfold cell_at. fold cols.
  replace ((r + lines) * cols + c) with (r * cols + c + lines * cols) by lia.
  destruct (decide (scroll_top t ≤ r ≤ scroll_bottom t - lines)) as [Hin|Hout].
  - destruct (decide ((scroll_bottom t - lines + 1) * cols ≤ r * cols + c
                      < (scroll_bottom t + 1) * cols)) as [Hx|_].
    { apply row_range in Hx; [lia | exact Hc]. }
    destruct (decide (scroll_top t * cols ≤ r * cols + c
                      < (scroll_bottom t - lines + 1) * cols)) as [_|Hx]; [reflexivity|].
    exfalso. apply Hx. apply row_range; [exact Hc | lia].
  - destruct (decide (scroll_bottom t - lines < r ≤ scroll_bottom t)) as [Hcl|Hncl].
    + destruct (decide ((scroll_bottom t - lines + 1) * cols ≤ r * cols + c
                        < (scroll_bottom t + 1) * cols)) as [_|Hx]; [reflexivity|].
      exfalso. apply Hx. apply row_range; [exact Hc | lia].
    + destruct (decide ((scroll_bottom t - lines + 1) * cols ≤ r * cols + c
                        < (scroll_bottom t + 1) * cols)) as [Hx|_].
      { apply row_range in Hx; [lia | exact Hc]. }
      destruct (decide (scroll_top t * cols ≤ r * cols + c
                        < (scroll_bottom t - lines + 1) * cols)) as [Hx|_]; [|reflexivity].
      apply row_range in Hx; [lia | exact Hc].
Qed.

Lemma clamp16_0 limit : 0 ≤ limit → clamp16 limit 0 = 0.
Proof.
  intros Hl. unfold clamp16. change (to_int16 0) with 0.
  destruct (Z.geb_spec 0 limit) as [Hge|Hlt]; [|reflexivity].
  replace limit with 0 by lia. reflexivity.
Qed.

(** ** DECALN and the line feed at the bottom of the region *)

Section Screen.
Context `{OztermHeader}.

Lemma run_decaln p t :
  parse_state p = STATE_NORMAL →
  snd (fold_left ozterm_put_character ([ESC] ++ bytes "#8") (p, t))
  = snap_to_live (decaln (snap_to_live (snap_to_live t))).
Proof. intros Hp. destruct p. simpl in Hp. subst. reflexivity. Qed.

(** C10: after [ESC # 8] every cell of the active screen holds 'E' in the
    default colour, protected cells included, with its protected bit as
    before, and the cursor is at (0, 0). *)
Theorem decaln_fills_screen p t :
  parse_state p = STATE_NORMAL →
  grid_ok t →
  let t' := snd (feed (p, t) ([ESC] ++ bytes "#8")) in
  (∀ r c, 0 ≤ r < row_count t → 0 ≤ c < column_count t →
     cell_at t' r c = mkCell (ch "E") (term_color t) (protected (cell_at t r c))) ∧
  cursor_row (active t') = 0 ∧
  cursor_column (active t') = 0.
Proof.
  intros Hp Hg. cbv zeta.
  rewrite feed_fold by reflexivity. rewrite run_decaln by exact Hp.
  set (t2 := snap_to_live (snap_to_live t)).
  assert (Hg2 : grid_ok t2) by exact Hg.
  split; [|split].
  - intros r c Hr Hc. rewrite cell_at_snap.
    rewrite (decaln_cells t2 r c Hg2 Hr Hc). reflexivity.
  - rewrite active_snap. unfold decaln. rewrite cursor_row_move_cursor.
    apply clamp16_0. apply Hg.
  - rewrite active_snap. unfold decaln. rewrite cursor_column_move_cursor.
    apply clamp16_0. apply Hg.
Qed.

Lemma run_line_feed p t :
  parse_state p = STATE_NORMAL →
  snd (fold_left ozterm_put_character [LF] (p, t))
  = snap_to_live (ozterm_put_character_and_cursor t LF).
Proof. intros Hp. destruct p. simpl in Hp. subst. reflexivity. Qed.

(** The state between the two halves of [ozterm_scroll_up(terminal, 1)]:
    the row [scroll_top] is stored in the ring. *)
Lemma scroll_up_1 t :
  ozterm_scroll_up t 1
  = ozterm_scroll_up_region
      (set_scrollback
         (<[Z.to_nat (scrollback_head t) :=
              row_slice (buffer (active t)) ((scroll_top t + 0) * column_count t)
                (column_count t)]> (scrollback t))
         ((scrollback_head t + 1) mod SCROLLBACK_LINES)
         (if scrollback_count t <? SCROLLBACK_LINES
          then scrollback_count t + 1 else scrollback_count t) t) 1.
Proof. reflexivity. Qed.

Lemma scrollback_scroll_up_region t n :
  scrollback (ozterm_scroll_up_region t n) = scrollback t ∧
  scrollback_head (ozterm_scroll_up_region t n) = scrollback_head t ∧
  scrollback_count (ozterm_scroll_up_region t n) = scrollback_count t.
Proof. repeat split; reflexivity. Qed.

Lemma cursor_scroll_up_region t n :
  cursor_row (active (ozterm_scroll_up_region t n)) = cursor_row (active t) ∧
  cursor_column (active (ozterm_scroll_up_region t n)) = cursor_column (active t).
Proof.
  unfold ozterm_scroll_up_region. cbv zeta.
  unfold call_refresh. rewrite active_call_host.
  unfold set_active_buffer. rewrite active_set_active. split; reflexivity.
Qed.

(** C1 (amended): with the parser between two sequences and the cursor on
    row [scroll_bottom], a line feed appends the row [scroll_top] of the
    active screen to the scrollback ring whichever screen, main or
    alternate, is active, and leaves the cursor where it is; when the
    scroll region is well formed the region is scrolled up by one line (a
    protected cell stays, the last row of the region is blanked). *)
Theorem line_feed_at_region_bottom p t :
  parse_state p = STATE_NORMAL →
  ring_ok t →
  cursor_row (active t) = scroll_bottom t →
  let t' := snd (feed (p, t) [LF]) in
  scrollback t' !! Z.to_nat (scrollback_head t)
    = Some (row_slice (buffer (active t)) (scroll_top t * column_count t) (column_count t)) ∧
  scrollback_head t' = (scrollback_head t + 1) mod SCROLLBACK_LINES ∧
  scrollback_count t'
    = (if scrollback_count t <? SCROLLBACK_LINES
       then scrollback_count t + 1 else scrollback_count t) ∧
  cursor_row (active t') = cursor_row (active t) ∧
  cursor_column (active t') = cursor_column (active t) ∧
  (grid_ok t → region_ok t →
   ∀ r c, 0 ≤ c < column_count t →
     cell_at t' r c
     = if decide (scroll_top t ≤ r < scroll_bottom t)
       then (if protected (cell_at t r c) then cell_at t r c else cell_at t (r + 1) c)
       else if decide (r = scroll_bottom t) then blank t else cell_at t r c).
Proof.
  intros Hp [Hhead Hring] Hcur. cbv zeta.
  rewrite feed_fold by reflexivity. rewrite run_line_feed by exact Hp.
  unfold ozterm_put_character_and_cursor.
  change (LF =? LF) with true. cbv iota.
  rewrite Hcur, Z.eqb_refl, scroll_up_1.
  set (t1 := set_scrollback _ _ _ t).
  split; [|split; [|split; [|split; [|split]]]].
  - rewrite scrollback_snap.
    rewrite (proj1 (scrollback_scroll_up_region t1 1)).
    unfold t1. cbn [scrollback set_scrollback].
    rewrite Z.add_0_r. apply list_lookup_insert_eq. lia.
  - rewrite scrollback_head_snap.
    rewrite (proj1 (proj2 (scrollback_scroll_up_region t1 1))). reflexivity.
  - rewrite scrollback_count_snap.
    rewrite (proj2 (proj2 (scrollback_scroll_up_region t1 1))). reflexivity.
  - rewrite active_snap. rewrite (proj1 (cursor_scroll_up_region t1 1)). exact Hcur.
  - rewrite active_snap. rewrite (proj2 (cursor_scroll_up_region t1 1)). reflexivity.
  - intros Hg Hreg r c Hc.
    assert (Hg1 : grid_ok t1) by exact Hg.
    assert (Hreg1 : region_ok t1) by exact Hreg.
    assert (Hl : region_lines t1 1 = 1).
    { unfold region_lines. change (scroll_bottom t1) with (scroll_bottom t).
      change (scroll_top t1) with (scroll_top t). destruct Hreg as (_ & Hle & _).
      change (1 <=? 0) with false. cbv iota.
      destruct (Z.gtb_spec 1 (scroll_bottom t - scroll_top t + 1)); lia. }
    rewrite cell_at_snap.
    rewrite (scroll_up_region_cells t1 1 r c Hg1 Hreg1 Hc), Hl.
    change (scroll_top t1) with (scroll_top t).
    change (scroll_bottom t1) with (scroll_bottom t).
    change (cell_at t1) with (cell_at t). change (blank t1) with (blank t).
    destruct (decide (scroll_top t ≤ r ≤ scroll_bottom t - 1)),
      (decide (scroll_top t ≤ r < scroll_bottom t)); try lia; [reflexivity|].
    destruct (decide (scroll_bottom t - 1 < r ≤ scroll_bottom t)),
      (decide (r = scroll_bottom t)); try lia; reflexivity.
Qed.

End Screen.

(** C1, as stated, fails: on the alternate screen a line feed on the bottom
    row of the region writes a scrollback entry as well. *)
Lemma scrollback_written_from_alternate_screen :
  alternative_active (snd alt_at_bottom) = true ∧
  cursor_row (active (snd alt_at_bottom)) = scroll_bottom (snd alt_at_bottom) ∧
  scrollback_count (snd alt_at_bottom) = 0 ∧
  scrollback_count (snd (feed_sample alt_at_bottom [LF])) = 1 ∧
  scrollback (snd (feed_sample alt_at_bottom [LF])) ≠ scrollback (snd alt_at_bottom).
Proof. vm_compute. repeat split; discriminate. Qed.

(** On [protected_top] the protected 'P' becomes a protected 'E'. *)
Lemma decaln_fills_screen_witness :
  grid_ok protected_top ∧
  protected (cell_at protected_top 0 0) = true ∧
  cell_at (snd (feed_sample (parser_init, protected_top) ([ESC] ++ bytes "#8"))) 0 0
    = mkCell (ch "E") 10 true ∧
  cursor_row (active (snd (feed_sample (parser_init, protected_top) ([ESC] ++ bytes "#8")))) = 0.
Proof.
  assert (Hg : grid_ok protected_top) by (vm_compute; repeat split; discriminate).
  split; [exact Hg |]. split; [reflexivity |].
  pose proof (@decaln_fills_screen sample_header parser_init protected_top eq_refl Hg)
    as (Hcells & Hrow & _).
  assert (Hr0 : 0 ≤ 0 < row_count protected_top)
    by (change (row_count protected_top) with 2; lia).
  assert (Hc0 : 0 ≤ 0 < column_count protected_top)
    by (change (column_count protected_top) with 1; lia).
  pose proof (Hcells 0 0 Hr0 Hc0) as Hcell.
  vm_compute in Hcell, Hrow. vm_compute. split; [exact Hcell | exact Hrow].
Defined.

(** On the alternate screen the line feed stores the blank top row in the
    ring and counts one entry. *)
Lemma line_feed_at_region_bottom_witness :
  (parse_state (fst alt_at_bottom) = STATE_NORMAL ∧
   @ring_ok sample_header (snd alt_at_bottom) ∧
   cursor_row (active (snd alt_at_bottom)) = scroll_bottom (snd alt_at_bottom)) ∧
  alternative_active (snd alt_at_bottom) = true ∧
  scrollback (snd (feed_sample alt_at_bottom [LF])) !! 0%nat
    = Some [mkCell (ch " ") 10 false; mkCell (ch " ") 10 false] ∧
  scrollback_count (snd (feed_sample alt_at_bottom [LF])) = 1.
Proof.
  assert (Hs : @ring_ok sample_header (snd alt_at_bottom))
    by (vm_compute; repeat split; discriminate).
  assert (Hc : cursor_row (active (snd alt_at_bottom)) = scroll_bottom (snd alt_at_bottom))
    by reflexivity.
  split; [exact (conj eq_refl (conj Hs Hc)) |]. split; [reflexivity |].
  pose proof (@line_feed_at_region_bottom sample_header (fst alt_at_bottom)
                (snd alt_at_bottom) eq_refl Hs Hc) as (Hrow & _ & Hcount & _).
  vm_compute in Hrow, Hcount. vm_compute. split; [exact Hrow | exact Hcount].
Defined.

(** ** Key encoder *)

Section KeyProps.
Context `{OztermHeader}.

Lemma mod_value_of_spec modifier : mod_value_of modifier = spec_mod_value modifier.
Proof.
  unfold mod_value_of, spec_mod_value, has_shift, has_alt, has_ctrl.
  destruct (_ =? 0), (_ =? 0), (_ =? 0); reflexivity.
Qed.

Lemma spec_mod_value_cases modifier :
  In (spec_mod_value modifier) [1; 2; 3; 4; 5; 6; 7; 8].
Proof.
  unfold spec_mod_value.
  destruct (has_shift modifier), (has_alt modifier), (has_ctrl modifier); simpl; tauto.
Qed.

(** The sequence [write_csi_sequence] stores and returns for a code of one
    digit and a modifier value of one digit. *)
Lemma write_csi_sequence_spec code final mv :
  In code [1; 2; 3; 5; 6] → In mv [1; 2; 3; 4; 5; 6; 7; 8] →
  let '(text, n) := write_csi_sequence 16 code final mv in
  take (Z.to_nat n) (seq16 text) = spec_key_sequence code final mv ∧ (n >? 0) = true.
Proof.
  intros Hcode Hmv. simpl in Hcode, Hmv.
  repeat (destruct Hcode as [<-|Hcode]; [|]); try contradiction;
  repeat (destruct Hmv as [<-|Hmv]; [|]); try contradiction;
  (split; reflexivity).
Qed.

Lemma encode_navigation_key modifier key code final :
  NoDup key_labels →
  In (key, code, final) navigation_keys →
  encode_key modifier key =
    (let '(text, n) := write_csi_sequence 16 code final (mod_value_of modifier) in
     (seq16 text, n)).
Proof.
  intros Hnd Hin.
  unfold key_labels in Hnd.
  repeat match type of Hnd with
         | NoDup (_ :: _) => apply NoDup_cons in Hnd as [? Hnd]
         end.
  repeat match goal with
         | Hx : _ ∉ _ :: _ |- _ => apply not_elem_of_cons in Hx as [? Hx]
         end.
  unfold navigation_keys in Hin. simpl in Hin.
  unfold encode_key.
  repeat (destruct Hin as [Heq|Hin];
          [injection Heq as <- <- <-;
           repeat match goal with
                  | |- context [?a =? ?b] =>
                      first [ rewrite (Z.eqb_refl a)
                            | rewrite (proj2 (Z.eqb_neq a b)) by congruence ]
                  end; reflexivity |]).
  contradiction.
Qed.

(** C8: for every modifier mask and every navigation key, with the case
    labels of the switch distinct and [write_to_master] installed,
    [ozterm_send_key] computes [mod_value] as 1 + shift + 2 alt + 4 ctrl and
    hands the host [ESC [ code final] ([ESC [ final] for the code 1) when
    [mod_value] is 1 and [ESC [ code ; mod_value final] otherwise. *)
Theorem send_key_navigation t modifier key code final :
  NoDup key_labels →
  In (key, code, final) navigation_keys →
  write_to_master_function t = true →
  mod_value_of modifier = spec_mod_value modifier ∧
  host_calls (ozterm_send_key t modifier key)
  = host_calls t ++ [WriteToMaster (spec_key_sequence code final (spec_mod_value modifier))].
Proof.
  intros Hnd Hin Hw. split; [apply mod_value_of_spec|].
  unfold ozterm_send_key.
  rewrite (encode_navigation_key modifier key code final Hnd Hin), mod_value_of_spec.
  pose proof (write_csi_sequence_spec code final (spec_mod_value modifier)) as Hseq.
  destruct (write_csi_sequence 16 code final (spec_mod_value modifier)) as [text n].
  destruct Hseq as [Htext Hn].
  - unfold navigation_keys in Hin. simpl in Hin.
    repeat (destruct Hin as [Heq|Hin]; [injection Heq as <- <- <-; simpl; tauto|]).
    contradiction.
  - apply spec_mod_value_cases.
  - unfold call_host. cbn [host_calls set_host_calls]. rewrite Hw, Hn, Htext. reflexivity.
Qed.

End KeyProps.

(** UP with CTRL and SHIFT: the host receives [ESC [ 1 ; 6 A]. *)
Lemma send_key_navigation_witness :
  (NoDup (@key_labels sample_header) ∧
   In ((@OZTERM_KEY_UP sample_header), 1, ch "A") (@navigation_keys sample_header) ∧
   write_to_master_function (snd (fresh 3 4)) = true) ∧
  @spec_mod_value sample_header 5 = 6 ∧
  host_calls (@ozterm_send_key sample_header (snd (fresh 3 4)) 5 (@OZTERM_KEY_UP sample_header))
  = host_calls (snd (fresh 3 4)) ++ [WriteToMaster ([ESC] ++ bytes "[1;6A")].
Proof.
  assert (Hnd : NoDup (@key_labels sample_header)).
  { apply (bool_decide_unpack (NoDup (@key_labels sample_header))). vm_compute. exact I. }
  assert (Hin : In ((@OZTERM_KEY_UP sample_header), 1, ch "A") (@navigation_keys sample_header))
    by (simpl; tauto).
  split; [exact (conj Hnd (conj Hin eq_refl)) |].
  split; [reflexivity |].
  pose proof (@send_key_navigation sample_header (snd (fresh 3 4)) 5 (@OZTERM_KEY_UP sample_header)
                1 (ch "A") Hnd Hin eq_refl) as [_ Hcalls].
  vm_compute in Hcalls. vm_compute. exact Hcalls.
Defined.

(** ** Save and restore cursor *)

Section SaveRestore.
Context `{OztermHeader}.

Variables r0 c0 rows cols : Z.
Abbreviation Kept := (kept r0 c0 rows cols).

Lemma kept_snap t : Kept t → Kept (snap_to_live t).
Proof. exact id. Qed.

Lemma kept_move_cursor t row column : Kept t → Kept (ozterm_move_cursor t row column).
Proof. exact id. Qed.

Lemma kept_move_cursor_diff t row column : Kept t → Kept (ozterm_move_cursor_diff t row column).
Proof. exact id. Qed.

Lemma kept_scroll_up_1 t : Kept t → Kept (ozterm_scroll_up t 1).
Proof. rewrite scroll_up_1. exact id. Qed.

Lemma kept_put_character_and_cursor t c :
  existsb (Z.eqb c) [LF; CR; BS] = true →
  Kept t → Kept (ozterm_put_character_and_cursor t c).
Proof.
  intros Hc Hk. simpl in Hc. rewrite orb_false_r in Hc.
  apply orb_true_iff in Hc as [Hc|Hc]; [|apply orb_true_iff in Hc as [Hc|Hc]];
    apply Z.eqb_eq in Hc; subst c; unfold ozterm_put_character_and_cursor.
  - change (LF =? LF) with true. cbv iota.
    destruct (_ =? _); [apply kept_scroll_up_1 | apply kept_move_cursor]; exact Hk.
  - change (CR =? LF) with false. change (CR =? CR) with true. cbv iota.
    apply kept_move_cursor. exact Hk.
  - change (BS =? LF) with false. change (BS =? CR) with false.
    change (BS =? BS) with true. cbv iota.
    destruct (_ >? _); [apply kept_move_cursor_diff|]; exact Hk.
Qed.

(** The cursor finals dispatch to [ozterm_move_cursor]. *)
Lemma csi_dispatch_motion t param private final :
  existsb (Z.eqb final) (bytes "ABCDHfdG") = true →
  ∃ row column, csi_dispatch t param private final = ozterm_move_cursor t row column.
Proof.
  intros Hf. unfold csi_dispatch. destruct (csi_params param) as [p1 p2].
  simpl in Hf. rewrite orb_false_r in Hf.
  repeat (apply orb_true_iff in Hf as [Hf|Hf];
          [apply Z.eqb_eq in Hf; subst final; do 2 eexists; reflexivity|]).
  apply Z.eqb_eq in Hf; subst final; do 2 eexists; reflexivity.
Qed.

Lemma step_csi_param p t c :
  parse_state p = STATE_CSI → is_param_byte c = true →
  ∃ p', ozterm_put_character (p, t) c = (p', snap_to_live t) ∧ parse_state p' = STATE_CSI.
Proof.
  intros Hp Hc. unfold ozterm_put_character. rewrite Hp. unfold parse_csi.
  unfold is_param_byte, isdigit in Hc.
  assert (Hq : (c =? ch "?") || (c =? ch ">") = false).
  { apply orb_false_iff. split; apply Z.eqb_neq; intros ->; discriminate Hc. }
  set (p1 := if seq_len p <? 63 then _ else p).
  assert (Hp1 : parse_state p1 = STATE_CSI) by (unfold p1; destruct (_ <? _); exact Hp).
  rewrite Hq.
  change (ch "0") with 48. change (ch "9") with 57.
  replace ((c >=? 48) && (c <=? 57)) with ((48 <=? c) && (c <=? 57))
    by (rewrite Z.geb_leb; reflexivity).
  rewrite Hc.
  destruct (param_len p1 <? 31); eexists; (split; [reflexivity | exact Hp1]).
Qed.

Lemma run_csi_params ps : ∀ p t,
  parse_state p = STATE_CSI → forallb is_param_byte ps = true → Kept t →
  ∃ p' t', fold_left ozterm_put_character ps (p, t) = (p', t') ∧
           parse_state p' = STATE_CSI ∧ Kept t'.
Proof.
  induction ps as [|c ps IH]; intros p t Hp Hps Hk; cbn [fold_left].
  - eauto.
  - simpl in Hps. apply andb_true_iff in Hps as [Hc Hps].
    destruct (step_csi_param p t c Hp Hc) as (p' & -> & Hp').
    apply IH; [exact Hp' | exact Hps | apply kept_snap; exact Hk].
Qed.

Lemma step_csi_final p t final :
  parse_state p = STATE_CSI →
  existsb (Z.eqb final) (bytes "ABCDHfdG") = true →
  ∃ p', ozterm_put_character (p, t) final
        = (p', snap_to_live (csi_dispatch t (param_buf p) (is_private p) final)) ∧
        parse_state p' = STATE_NORMAL.
Proof.
  intros Hp Hf. unfold ozterm_put_character. rewrite Hp. unfold parse_csi.
  simpl in Hf. rewrite orb_false_r in Hf.
  repeat (apply orb_true_iff in Hf as [Hf|Hf];
          [apply Z.eqb_eq in Hf; subst final;
           destruct (seq_len p <? 63); eexists; (split; reflexivity)|]).
  apply Z.eqb_eq in Hf; subst final.
  destruct (seq_len p <? 63); eexists; (split; reflexivity).
Qed.

Lemma run_motion m p t :
  is_cursor_motion m = true → parse_state p = STATE_NORMAL → Kept t →
  ∃ p' t', fold_left ozterm_put_character (motion_bytes m) (p, t) = (p', t') ∧
           parse_state p' = STATE_NORMAL ∧ Kept t'.
Proof.
  intros Hm Hp Hk. destruct m as [params final|final|c]; simpl in Hm.
  - apply andb_true_iff in Hm as [Hps Hf].
    unfold motion_bytes. rewrite !fold_left_app.
    assert (Hstart : ∃ p1, fold_left ozterm_put_character [ESC; ch "["] (p, t)
                           = (p1, snap_to_live (snap_to_live t))
                           ∧ parse_state p1 = STATE_CSI).
    { destruct p. simpl in Hp. subst. eexists. split; reflexivity. }
    destruct Hstart as (p1 & -> & Hp1).
    destruct (run_csi_params params p1 _ Hp1 Hps (kept_snap _ (kept_snap _ Hk)))
      as (p2 & t2 & -> & Hp2 & Hk2).
    destruct (step_csi_final p2 t2 final Hp2 Hf) as (p3 & Hstep & Hp3).
    cbn [fold_left]. rewrite Hstep.
    destruct (csi_dispatch_motion t2 (param_buf p2) (is_private p2) final Hf)
      as (row & column & ->).
    do 2 eexists. split; [reflexivity|]. split; [exact Hp3|].
    apply kept_snap, kept_move_cursor. exact Hk2.
  - rewrite orb_false_r in Hm.
    apply orb_true_iff in Hm as [Hm|Hm]; apply Z.eqb_eq in Hm; subst final;
      destruct p; simpl in Hp; subst; do 2 eexists;
      (split; [reflexivity|]); (split; [reflexivity|]);
      apply kept_snap; [apply kept_move_cursor_diff | apply kept_move_cursor];
      apply kept_snap; exact Hk.
  - assert (Hstep : ozterm_put_character (p, t) c
                    = (p, snap_to_live (ozterm_put_character_and_cursor t c))).
    { rewrite orb_false_r in Hm.
      apply orb_true_iff in Hm as [Hm|Hm]; [|apply orb_true_iff in Hm as [Hm|Hm]];
        apply Z.eqb_eq in Hm; subst c; destruct p; simpl in Hp; subst; reflexivity. }
    cbn [motion_bytes fold_left]. rewrite Hstep.
    do 2 eexists. split; [reflexivity|]. split; [exact Hp|].
    apply kept_snap, kept_put_character_and_cursor; [exact Hm | exact Hk].
Qed.

Lemma run_motions ms : ∀ p t,
  forallb is_cursor_motion ms = true → parse_state p = STATE_NORMAL → Kept t →
  ∃ p' t', fold_left ozterm_put_character (concat (map motion_bytes ms)) (p, t) = (p', t') ∧
           parse_state p' = STATE_NORMAL ∧ Kept t'.
Proof.
  induction ms as [|m ms IH]; intros p t Hms Hp Hk; cbn [map concat].
  - cbn [fold_left]. eauto.
  - simpl in Hms. apply andb_true_iff in Hms as [Hm Hms].
    rewrite fold_left_app.
    destruct (run_motion m p t Hm Hp Hk) as (p1 & t1 & -> & Hp1 & Hk1).
    apply IH; assumption.
Qed.

End SaveRestore.

Section SaveRestoreTheorem.
Context `{OztermHeader}.

Lemma motion_bytes_nonzero m :
  is_cursor_motion m = true → forallb (fun c => negb (c =? 0)) (motion_bytes m) = true.
Proof.
  destruct m as [params final|final|c]; simpl; intros Hm.
  - apply andb_true_iff in Hm as [Hps Hf]. rewrite forallb_app. simpl.
    rewrite andb_true_r. apply andb_true_iff. split.
    + rewrite forallb_forall in Hps |- *. intros c Hc. specialize (Hps c Hc).
      destruct (Z.eqb_spec c 0) as [->|]; [discriminate Hps | reflexivity].
    + destruct (Z.eqb_spec final 0) as [->|]; [discriminate Hf | reflexivity].
  - rewrite andb_true_r. destruct (Z.eqb_spec final 0) as [->|]; [discriminate Hm | reflexivity].
  - rewrite andb_true_r. destruct (Z.eqb_spec c 0) as [->|]; [discriminate Hm | reflexivity].
Qed.

Lemma motions_nonzero ms :
  forallb is_cursor_motion ms = true →
  forallb (fun c => negb (c =? 0)) (concat (map motion_bytes ms)) = true.
Proof.
  induction ms as [|m ms IH]; simpl; intros Hms; [reflexivity|].
  apply andb_true_iff in Hms as [Hm Hms].
  rewrite forallb_app, motion_bytes_nonzero, IH by assumption. reflexivity.
Qed.

(** C9: with the parser between two sequences and the cursor on a cell of
    the grid, [ESC 7], then any sequence of cursor motions (CSI A, B, C, D,
    H, f, d, G with any parameters, ESC D, ESC E, line feed, carriage return,
    backspace), then [ESC 8] leaves the cursor of the active screen at the
    row and column it had when [ESC 7] was read. *)
Theorem save_restore_cursor p t ms :
  parse_state p = STATE_NORMAL →
  cursor_in_grid t →
  forallb is_cursor_motion ms = true →
  let t' := snd (feed (p, t)
                   ([ESC; ch "7"] ++ concat (map motion_bytes ms) ++ [ESC; ch "8"])) in
  cursor_row (active t') = cursor_row (active t) ∧
  cursor_column (active t') = cursor_column (active t).
Proof.
  intros Hp (Hr & Hc & Hrows & Hcols) Hms. cbv zeta.
  rewrite feed_fold.
  2:{ rewrite !forallb_app, motions_nonzero by exact Hms. reflexivity. }
  rewrite !fold_left_app.
  set (r0 := cursor_row (active t)). set (c0 := cursor_column (active t)).
  assert (Hsave : ∃ p1 t1, fold_left ozterm_put_character [ESC; ch "7"] (p, t) = (p1, t1) ∧
                    parse_state p1 = STATE_NORMAL ∧
                    kept r0 c0 (row_count t) (column_count t) t1).
  { destruct p. simpl in Hp. subst. do 2 eexists. split; [reflexivity|].
    split; [reflexivity|]. repeat split. }
  destruct Hsave as (p1 & t1 & -> & Hp1 & Hk1).
  destruct (run_motions r0 c0 (row_count t) (column_count t) ms p1 t1 Hms Hp1 Hk1)
    as (p2 & t2 & -> & Hp2 & (Hsr & Hsc & Hrc & Hcc)).
  assert (Hrestore : snd (fold_left ozterm_put_character [ESC; ch "8"] (p2, t2))
                     = snap_to_live
                         (ozterm_move_cursor (snap_to_live t2)
                            (saved_cursor_row t2) (saved_cursor_column t2))).
  { destruct p2. simpl in Hp2. subst. reflexivity. }
  rewrite Hrestore, active_snap, cursor_row_move_cursor, cursor_column_move_cursor.
  rewrite row_count_snap, column_count_snap, Hsr, Hsc, Hrc, Hcc.
  rewrite !clamp16_in_grid by (unfold r0, c0; lia). split; reflexivity.
Qed.

End SaveRestoreTheorem.

(** ** The cursor never leaves the grid *)

Section CursorInvariant.
Context `{OztermHeader}.
Variables rows cols : Z.
Hypothesis Hrows : 1 ≤ rows ≤ 32767.
Hypothesis Hcols : 1 ≤ cols ≤ 32767.

Abbreviation Inv := (cursors_ok rows cols).

Lemma inv_active t : Inv t → screen_ok rows cols (active t).
Proof.
  intros (_ & _ & Hm & Ha & _). unfold active. destruct (screen_active t); assumption.
Qed.

Lemma inv_set_active s t : Inv t → screen_ok rows cols s → Inv (set_active s t).
Proof.
  intros (Hr & Hc & Hm & Ha & Hreg) Hs. unfold cursors_ok, set_active. simpl.
  destruct (screen_active t); auto.
Qed.

Lemma inv_set_active_buffer b t : Inv t → Inv (set_active_buffer b t).
Proof. intros Ht. apply inv_set_active; [exact Ht|]. exact (inv_active t Ht). Qed.

Lemma inv_set_attr_protected b t :
  Inv t → Inv (set_active (set_attr_protected b (active t)) t).
Proof. intros Ht. apply inv_set_active; [exact Ht|]. exact (inv_active t Ht). Qed.

Lemma inv_call_host b e t : Inv t → Inv (call_host b e t).
Proof. exact id. Qed.

Lemma inv_call_refresh t : Inv t → Inv (call_refresh t).
Proof. exact id. Qed.

Lemma inv_write_to_master t data size : Inv t → Inv (write_to_master t data size).
Proof. exact id. Qed.

Lemma inv_snap t : Inv t → Inv (snap_to_live t).
Proof. exact id. Qed.

Lemma inv_set_scrollback sb h n t : Inv t → Inv (set_scrollback sb h n t).
Proof. exact id. Qed.

Lemma inv_set_saved_cursor r c t : Inv t → Inv (set_saved_cursor r c t).
Proof. exact id. Qed.

Lemma inv_set_screen_active a b t : Inv t → Inv (set_screen_active a b t).
Proof. exact id. Qed.

Lemma inv_set_callbacks w r s m t : Inv t → Inv (set_callbacks w r s m t).
Proof. exact id. Qed.

Lemma inv_move_cursor t row column : Inv t → Inv (ozterm_move_cursor t row column).
Proof.
  intros Ht. pose proof Ht as (Hr & Hc & _).
  assert (Hok : screen_ok rows cols (active (ozterm_move_cursor t row column))).
  { split.
    - rewrite cursor_row_move_cursor, Hr. apply clamp16_range. exact Hrows.
    - rewrite cursor_column_move_cursor, Hc. apply clamp16_range. exact Hcols. }
  revert Hok. unfold ozterm_move_cursor. cbv zeta. rewrite !active_set_active.
  intros Hok. unfold set_cursor_column at 1.
  cbn [buffer cursor_row cursor_column attr_protected set_cursor_row set_cursor_column] in *.
  destruct Ht as (? & ? & Hm & Ha & Htop & Hbot). unfold cursors_ok, set_active, call_host. simpl.
  destruct (screen_active t); simpl; repeat split;
    (assumption || apply Hok || apply Hm || apply Ha || apply Htop || apply Hbot).
Qed.

Lemma inv_move_cursor_diff t row column : Inv t → Inv (ozterm_move_cursor_diff t row column).
Proof. intros Ht. apply inv_move_cursor. exact Ht. Qed.

Lemma inv_scroll_up_region t n : Inv t → Inv (ozterm_scroll_up_region t n).
Proof. intros Ht. apply inv_call_refresh, inv_set_active_buffer. exact Ht. Qed.

Lemma inv_scroll_down_region t n : Inv t → Inv (ozterm_scroll_down_region t n).
Proof. intros Ht. apply inv_call_refresh, inv_set_active_buffer. exact Ht. Qed.

Lemma inv_scroll_up_1 t : Inv t → Inv (ozterm_scroll_up t 1).
Proof. intros Ht. rewrite scroll_up_1. apply inv_scroll_up_region. exact Ht. Qed.

Lemma inv_insert_lines t from_row n : Inv t → Inv (ozterm_insert_lines t from_row n).
Proof.
  intros Ht. unfold ozterm_insert_lines. cbv zeta.
  destruct (n <=? 0); [exact Ht|]. destruct (_ || _); [exact Ht|].
  apply inv_call_refresh, inv_set_active_buffer. exact Ht.
Qed.

Lemma inv_delete_lines t from_row n : Inv t → Inv (ozterm_delete_lines t from_row n).
Proof.
  intros Ht. unfold ozterm_delete_lines. cbv zeta.
  destruct (n <=? 0); [exact Ht|]. destruct (_ || _); [exact Ht|].
  apply inv_call_refresh, inv_set_active_buffer. exact Ht.
Qed.

Lemma inv_line_insert_characters t c n : Inv t → Inv (ozterm_line_insert_characters t c n).
Proof.
  intros Ht. unfold ozterm_line_insert_characters. cbv zeta.
  destruct (_ >=? _); [exact Ht|]. apply inv_set_active_buffer. exact Ht.
Qed.

Lemma inv_line_delete_characters t n : Inv t → Inv (ozterm_line_delete_characters t n).
Proof.
  intros Ht. unfold ozterm_line_delete_characters. cbv zeta.
  destruct (_ >=? _); [exact Ht|]. apply inv_set_active_buffer. exact Ht.
Qed.

Lemma inv_clear t : Inv t → Inv (ozterm_clear t).
Proof. intros Ht. apply inv_move_cursor, inv_set_active_buffer. exact Ht. Qed.

Lemma inv_decaln t : Inv t → Inv (decaln t).
Proof. intros Ht. apply inv_move_cursor, inv_set_active_buffer. exact Ht. Qed.

Lemma inv_csi_J t param : Inv t → Inv (csi_J t param).
Proof. intros Ht. apply inv_set_active_buffer. exact Ht. Qed.

Lemma inv_csi_K t param : Inv t → Inv (csi_K t param).
Proof. intros Ht. apply inv_set_active_buffer. exact Ht. Qed.

Lemma inv_sgr_loop fuel : ∀ param t, Inv t → Inv (sgr_loop fuel param t).
Proof.
  induction fuel as [|fuel IH]; intros param t Ht; simpl; [exact Ht|].
  destruct param as [|c param]; [exact Ht|].
  destruct (strtol (c :: param)) as [v rest]. apply IH.
  destruct (to_int32 v =? 0); [apply inv_set_attr_protected; exact Ht|].
  destruct (to_int32 v =? 8); [apply inv_set_attr_protected; exact Ht | exact Ht].
Qed.

Lemma inv_csi_r t p1 p2 : Inv t → Inv (csi_r t p1 p2).
Proof.
  intros (Hr & Hc & Hm & Ha & _).
  pose proof (csi_r_in_range t p1 p2 ltac:(lia)) as [Htop Hbot].
  rewrite Hr in Htop, Hbot.
  assert (Hframe : row_count (csi_r t p1 p2) = row_count t ∧
                   column_count (csi_r t p1 p2) = column_count t ∧
                   screen_main (csi_r t p1 p2) = screen_main t ∧
                   screen_alternative (csi_r t p1 p2) = screen_alternative t).
  { unfold csi_r. destruct (_ && _); repeat split. }
  destruct Hframe as (Er & Ec & Em & Ea).
  unfold cursors_ok. rewrite Er, Ec, Em, Ea.
  split; [exact Hr|]. split; [exact Hc|]. split; [exact Hm|]. split; [exact Ha|].
  split; [exact Htop | exact Hbot].
Qed.

Lemma inv_csi_n t param : Inv t → Inv (csi_n t param).
Proof. intros Ht. unfold csi_n. destruct (streq _ _); exact Ht. Qed.

Lemma inv_switch_to_alt t : Inv t → Inv (ozterm_switch_to_alt_screen t).
Proof. intros Ht. apply inv_call_refresh, inv_clear. exact Ht. Qed.

Lemma inv_restore_main t : Inv t → Inv (ozterm_restore_main_screen t).
Proof. exact id. Qed.

Lemma inv_send_key t modifier key : Inv t → Inv (ozterm_send_key t modifier key).
Proof. intros Ht. unfold ozterm_send_key. destruct (encode_key _ _). exact Ht. Qed.

Lemma inv_scroll t offset : Inv t → Inv (ozterm_scroll t offset).
Proof. exact id. Qed.

(** Under the invariant the auto-wrap test of the last branch of
    [ozterm_put_character_and_cursor] is false: the branch is dead. *)
Lemma auto_wrap_test_false t :
  Inv t → (cursor_column (active t) >=? column_count t) = false.
Proof.
  intros Ht. destruct (inv_active t Ht) as [_ Hc]. destruct Ht as (_ & Hcc & _).
  rewrite Hcc. destruct (Z.geb_spec (cursor_column (active t)) cols); [lia | reflexivity].
Qed.

Lemma inv_put_graphic t c : Inv t → Inv (put_graphic_and_cursor t c).
Proof.
  intros Ht. unfold put_graphic_and_cursor. rewrite (auto_wrap_test_false t Ht). cbv zeta iota.
  apply inv_move_cursor, inv_call_host, inv_set_active_buffer. exact Ht.
Qed.

Lemma inv_put_character_and_cursor t c : Inv t → Inv (ozterm_put_character_and_cursor t c).
Proof.
  intros Ht. unfold ozterm_put_character_and_cursor.
  destruct (c =? LF).
  { destruct (_ =? _); [apply inv_scroll_up_1 | apply inv_move_cursor]; exact Ht. }
  destruct (c =? CR); [apply inv_move_cursor; exact Ht|].
  destruct (c =? BS).
  { destruct (_ >? _); [apply inv_move_cursor_diff|]; exact Ht. }
  destruct (c =? TAB).
  { cbv zeta. apply for_up_ind; [exact Ht|]. intros _ t' _ Ht'. apply inv_put_graphic. exact Ht'. }
  destruct (_ || _); [apply inv_put_graphic|]; exact Ht.
Qed.

Create HintDb cursors discriminated.
Hint Resolve inv_move_cursor inv_move_cursor_diff inv_csi_n inv_csi_J inv_csi_K inv_sgr_loop
  inv_switch_to_alt inv_restore_main inv_write_to_master inv_line_insert_characters
  inv_line_delete_characters inv_csi_r inv_delete_lines inv_insert_lines
  inv_scroll_up_region inv_scroll_down_region inv_clear inv_decaln inv_set_saved_cursor
  inv_put_character_and_cursor : cursors.

Lemma inv_csi_dispatch t param private final : Inv t → Inv (csi_dispatch t param private final).
Proof.
  intros Ht. unfold csi_dispatch, csi_m. destruct (csi_params param) as [p1 p2].
  repeat match goal with
         | |- Inv (if ?b then _ else _) => destruct b
         end; auto with cursors.
Qed.

Lemma inv_put_character p t c : Inv t → Inv (snd (ozterm_put_character (p, t) c)).
Proof.
  intros Ht. unfold ozterm_put_character.
  destruct (parse_state p).
  - unfold parse_normal.
    repeat match goal with
           | |- context [if ?b then _ else _] => destruct b
           end; cbn [snd]; apply inv_snap; auto with cursors.
  - unfold parse_esc.
    repeat match goal with
           | |- context [if ?b then _ else _] => destruct b
           end; cbn [snd]; apply inv_snap; auto with cursors.
  - unfold parse_csi.
    repeat match goal with
           | |- context [if ?b then _ else _] => destruct b
           end; cbn [snd]; apply inv_snap; auto using inv_csi_dispatch.
  - unfold parse_osc.
    repeat match goal with
           | |- context [if ?b then _ else _] => destruct b
           end; cbn [snd]; apply inv_snap; exact Ht.
  - cbn [snd]. apply inv_snap. exact Ht.
  - cbn [snd]. apply inv_snap. exact Ht.
  - unfold parse_hash. cbn [snd]. apply inv_snap.
    destruct (c =? ch "8"); auto with cursors.
Qed.

Lemma inv_put_text_loop text : ∀ st i size,
  Inv (snd st) → Inv (snd (put_text_loop st text i size)).
Proof.
  induction text as [|c text IH]; intros [p t] i size Ht; simpl; [exact Ht|].
  destruct (_ && _); [|exact Ht]. apply IH.
  apply inv_put_character. exact Ht.
Qed.

Lemma inv_create : Inv (ozterm_create rows cols).
Proof.
  unfold ozterm_create. cbv zeta. rewrite !to_uint16_id by lia. apply inv_clear.
  unfold cursors_ok, screen_ok. simpl. lia.
Qed.

Lemma reachable_cursors_ok st : reachable rows cols st → Inv (snd st).
Proof.
  induction 1 as [w r s m|st data size _ IH|p t modifier key _ IH|p t offset _ IH
                 |p t _ IH|p t _ IH]; cbn [snd] in *.
  - apply inv_set_callbacks, inv_create.
  - apply inv_put_text_loop. exact IH.
  - apply inv_send_key. exact IH.
  - apply inv_scroll. exact IH.
  - apply inv_switch_to_alt. exact IH.
  - exact IH.
Qed.

End CursorInvariant.

(** The part of C3 the code has: from the pending-wrap position a
    printable byte sets the column to 0, scrolls when the cursor is on
    [scroll_bottom] and moves down one row otherwise, then writes the byte. *)
Lemma pending_wrap_branch `{OztermHeader} t c :
  cursor_column (active t) = column_count t →
  put_graphic_and_cursor t c
  = (let t0 := set_active (set_cursor_column 0 (active t)) t in
     let t1 := if cursor_row (active t0) =? scroll_bottom t0
               then ozterm_scroll_up t0 1
               else set_active (set_cursor_row (cursor_row (active t0) + 1) (active t0)) t0 in
     let row := cursor_row (active t1) in
     let column := cursor_column (active t1) in
     let t2 := set_active_buffer
                 (wr (buffer (active t1)) (row * column_count t1 + column)
                    (mkCell c (term_color t1) (attr_protected (active t1)))) t1 in
     ozterm_move_cursor (call_host (set_character_function t2) (SetCharacter row column c) t2)
       row (column + 1)).
Proof.
  intros Hc. unfold put_graphic_and_cursor. rewrite Hc.
  destruct (Z.geb_spec (column_count t) (column_count t)); [reflexivity | lia].
Qed.

(** C3 on the code: the pending-wrap position is not reachable.  In every
    state the entry points reach from [ozterm_create], the cursor column of
    the active screen is below [column_count]: [ozterm_move_cursor] clamps
    the column to [column_count - 1] after every printable write. *)
Theorem pending_wrap_unreachable `{OztermHeader} rows cols st :
  1 ≤ rows ≤ 32767 → 1 ≤ cols ≤ 32767 →
  reachable rows cols st →
  column_count (snd st) = cols ∧
  0 ≤ cursor_column (active (snd st)) < column_count (snd st).
Proof.
  intros Hrows Hcols Hreach.
  pose proof (reachable_cursors_ok rows cols Hrows Hcols st Hreach) as Hinv.
  pose proof (inv_active rows cols (snd st) Hinv) as [_ Hc].
  destruct Hinv as (_ & Hcc & _). rewrite Hcc. split; [reflexivity | exact Hc].
Qed.

(** After "abc" on three columns the cursor column is still below 3. *)
Lemma pending_wrap_unreachable_witness :
  (1 ≤ 1 ≤ 32767 ∧ 1 ≤ 3 ≤ 32767 ∧ @reachable sample_header 1 3 last_column_written) ∧
  column_count (snd last_column_written) = 3 ∧
  0 ≤ cursor_column (active (snd last_column_written))
    < column_count (snd last_column_written).
Proof.
  assert (Hr : 1 ≤ 1 ≤ 32767) by lia.
  assert (Hc : 1 ≤ 3 ≤ 32767) by lia.
  assert (Hreach : @reachable sample_header 1 3 last_column_written)
    by (apply reach_read, reach_create).
  split; [exact (conj Hr (conj Hc Hreach)) |].
  exact (@pending_wrap_unreachable sample_header 1 3 last_column_written Hr Hc Hreach).
Defined.

(** On a row of three columns the fourth byte of "abcd" overwrites the
    third: the cursor stays on the last column and nothing wraps. *)
Lemma last_column_is_overwritten :
  cursor_column (active (snd (feed_sample (fresh 1 3) (bytes "abc")))) = 2 ∧
  character (cell_at (snd (feed_sample (fresh 1 3) (bytes "abcd"))) 0 2) = ch "d" ∧
  cursor_row (active (snd (feed_sample (fresh 1 3) (bytes "abcd")))) = 0 ∧
  cursor_column (active (snd (feed_sample (fresh 1 3) (bytes "abcd")))) = 2.
Proof. vm_compute. repeat split; reflexivity. Qed.

(** The part of C5 the code has: in every reachable state both margins of
    the scroll region are rows of the grid. *)
Lemma reachable_margins_in_grid `{OztermHeader} rows cols st :
  1 ≤ rows ≤ 32767 → 1 ≤ cols ≤ 32767 →
  reachable rows cols st →
  row_count (snd st) = rows ∧
  0 ≤ scroll_top (snd st) < row_count (snd st) ∧
  0 ≤ scroll_bottom (snd st) < row_count (snd st).
Proof.
  intros Hrows Hcols Hreach.
  destruct (reachable_cursors_ok rows cols Hrows Hcols st Hreach)
    as (Hrc & _ & _ & _ & Htop & Hbot).
  rewrite Hrc. auto.
Qed.

(** The states of C9 include every reachable one. *)
Lemma reachable_cursor_in_grid `{OztermHeader} rows cols st :
  1 ≤ rows ≤ 32767 → 1 ≤ cols ≤ 32767 →
  reachable rows cols st → cursor_in_grid (snd st).
Proof.
  intros Hrows Hcols Hreach.
  pose proof (reachable_cursors_ok rows cols Hrows Hcols st Hreach) as Hinv.
  pose proof (inv_active rows cols (snd st) Hinv) as [Hr Hc].
  destruct Hinv as (Hrc & Hcc & _). unfold cursor_in_grid. rewrite Hrc, Hcc. lia.
Qed.

(** From (1, 2), the sample motions between [ESC 7] and [ESC 8] end at (1, 2). *)
Lemma save_restore_cursor_witness :
  (parse_state (fst cursor_at_1_2) = STATE_NORMAL ∧
   cursor_in_grid (snd cursor_at_1_2) ∧
   forallb is_cursor_motion sample_motions = true) ∧
  cursor_row (active (snd cursor_at_1_2)) = 1 ∧
  cursor_column (active (snd cursor_at_1_2)) = 2 ∧
  cursor_row (active (snd (feed_sample cursor_at_1_2
    ([ESC; ch "7"] ++ concat (map motion_bytes sample_motions) ++ [ESC; ch "8"])))) = 1 ∧
  cursor_column (active (snd (feed_sample cursor_at_1_2
    ([ESC; ch "7"] ++ concat (map motion_bytes sample_motions) ++ [ESC; ch "8"])))) = 2.
Proof.
  assert (Hg : cursor_in_grid (snd cursor_at_1_2)) by (vm_compute; repeat split; discriminate).
  assert (Hm : forallb is_cursor_motion sample_motions = true) by reflexivity.
  split; [exact (conj eq_refl (conj Hg Hm)) |].
  split; [reflexivity |]. split; [reflexivity |].
  pose proof (@save_restore_cursor sample_header (fst cursor_at_1_2) (snd cursor_at_1_2)
                sample_motions eq_refl Hg Hm) as [Hrow Hcol].
  vm_compute in Hrow, Hcol. vm_compute. split; [exact Hrow | exact Hcol].
Defined.

(** ** A frame rule for the parser

    A predicate on terminals that survives the assignments the operations
    are made of survives every byte fed to the terminal. *)

Ltac length_loops n :=
  repeat first
    [ assumption
    | reflexivity
    | rewrite length_wr
    | progress cbv zeta
    | match goal with
      | |- length (for_up _ _ _ _) = _ =>
          apply (for_up_ind (fun b => length b = n)); [| intros ? ? _ ?]
      | |- length (for_down _ _ _ _) = _ =>
          apply (for_down_ind (fun b => length b = n)); [| intros ? ? _ ?]
      | |- length (erase_cell _ _ _) = _ => unfold erase_cell
      | |- length (if ?b then _ else _) = _ => destruct b
      end ].

Section Frame.
Context `{OztermHeader}.
Variable Q : Ozterm → Prop.

Hypothesis Q_buffer : ∀ b t,
  length b = length (buffer (active t)) → Q t → Q (set_active_buffer b t).
Hypothesis Q_cursor_row : ∀ r t, Q t → Q (set_active (set_cursor_row r (active t)) t).
Hypothesis Q_cursor_column : ∀ c t, Q t → Q (set_active (set_cursor_column c (active t)) t).
Hypothesis Q_attr : ∀ b t, Q t → Q (set_active (set_attr_protected b (active t)) t).
Hypothesis Q_calls : ∀ l t, Q t → Q (set_host_calls l t).
Hypothesis Q_saved : ∀ r c t, Q t → Q (set_saved_cursor r c t).
Hypothesis Q_region : ∀ p1 p2 t, Q t → Q (csi_r t p1 p2).
Hypothesis Q_alt : ∀ t, Q t → Q (set_screen_active AlternativeScreen true t).
Hypothesis Q_push : ∀ t, Q t →
  Q (set_scrollback
       (<[Z.to_nat (scrollback_head t) :=
            row_slice (buffer (active t)) ((scroll_top t + 0) * column_count t)
              (column_count t)]> (scrollback t))
       ((scrollback_head t + 1) mod SCROLLBACK_LINES)
       (if scrollback_count t <? SCROLLBACK_LINES
        then scrollback_count t + 1 else scrollback_count t) t).
Hypothesis Q_snap : ∀ t, Q t → Q (snap_to_live t).

Lemma frame_call_host b e t : Q t → Q (call_host b e t).
Proof. apply Q_calls. Qed.

Lemma frame_move_cursor t row column : Q t → Q (ozterm_move_cursor t row column).
Proof.
  intros Ht. unfold ozterm_move_cursor. cbv zeta.
  apply Q_cursor_column, Q_cursor_row, frame_call_host. exact Ht.
Qed.

Lemma frame_move_cursor_diff t row column : Q t → Q (ozterm_move_cursor_diff t row column).
Proof. apply frame_move_cursor. Qed.

Lemma frame_scroll_up_region t n : Q t → Q (ozterm_scroll_up_region t n).
Proof.
  intros Ht. unfold ozterm_scroll_up_region. cbv zeta.
  apply frame_call_host, Q_buffer; [|exact Ht]. length_loops (length (buffer (active t))).
Qed.

Lemma frame_scroll_down_region t n : Q t → Q (ozterm_scroll_down_region t n).
Proof.
  intros Ht. unfold ozterm_scroll_down_region. cbv zeta.
  apply frame_call_host, Q_buffer; [|exact Ht]. length_loops (length (buffer (active t))).
Qed.

Lemma frame_scroll_up_1 t : Q t → Q (ozterm_scroll_up t 1).
Proof. intros Ht. rewrite scroll_up_1. apply frame_scroll_up_region, Q_push. exact Ht. Qed.

Lemma frame_insert_lines t from_row n : Q t → Q (ozterm_insert_lines t from_row n).
Proof.
  intros Ht. unfold ozterm_insert_lines. cbv zeta.
  destruct (n <=? 0); [exact Ht|]. destruct (_ || _); [exact Ht|].
  apply frame_call_host, Q_buffer; [|exact Ht]. length_loops (length (buffer (active t))).
Qed.

Lemma frame_delete_lines t from_row n : Q t → Q (ozterm_delete_lines t from_row n).
Proof.
  intros Ht. unfold ozterm_delete_lines. cbv zeta.
  destruct (n <=? 0); [exact Ht|]. destruct (_ || _); [exact Ht|].
  apply frame_call_host, Q_buffer; [|exact Ht]. length_loops (length (buffer (active t))).
Qed.

Lemma frame_line_insert_characters t c n : Q t → Q (ozterm_line_insert_characters t c n).
Proof.
  intros Ht. unfold ozterm_line_insert_characters. cbv zeta.
  destruct (_ >=? _); [exact Ht|].
  apply Q_buffer; [|exact Ht]. length_loops (length (buffer (active t))).
Qed.

Lemma frame_line_delete_characters t n : Q t → Q (ozterm_line_delete_characters t n).
Proof.
  intros Ht. unfold ozterm_line_delete_characters. cbv zeta.
  destruct (_ >=? _); [exact Ht|].
  apply Q_buffer; [|exact Ht]. length_loops (length (buffer (active t))).
Qed.

Lemma frame_clear t : Q t → Q (ozterm_clear t).
Proof.
  intros Ht. unfold ozterm_clear. cbv zeta.
  apply frame_move_cursor, Q_buffer; [|exact Ht]. length_loops (length (buffer (active t))).
Qed.

Lemma frame_decaln t : Q t → Q (decaln t).
Proof.
  intros Ht. unfold decaln. cbv zeta.
  apply frame_move_cursor, Q_buffer; [|exact Ht]. length_loops (length (buffer (active t))).
Qed.

Lemma frame_csi_J t param : Q t → Q (csi_J t param).
Proof.
  intros Ht. unfold csi_J. cbv zeta.
  apply Q_buffer; [|exact Ht]. length_loops (length (buffer (active t))).
Qed.

Lemma frame_csi_K t param : Q t → Q (csi_K t param).
Proof.
  intros Ht. unfold csi_K. cbv zeta.
  apply Q_buffer; [|exact Ht]. length_loops (length (buffer (active t))).
Qed.

Lemma frame_sgr_loop fuel : ∀ param t, Q t → Q (sgr_loop fuel param t).
Proof.
  induction fuel as [|fuel IH]; intros param t Ht; simpl; [exact Ht|].
  destruct param as [|c param]; [exact Ht|].
  destruct (strtol (c :: param)) as [v rest]. apply IH.
  destruct (to_int32 v =? 0); [apply Q_attr; exact Ht|].
  destruct (to_int32 v =? 8); [apply Q_attr; exact Ht | exact Ht].
Qed.

Lemma frame_csi_n t param : Q t → Q (csi_n t param).
Proof.
  intros Ht. unfold csi_n. destruct (streq _ _); [|exact Ht].
  destruct (snprintf _ _). apply frame_call_host. exact Ht.
Qed.

Lemma frame_write_to_master t data size : Q t → Q (write_to_master t data size).
Proof. apply frame_call_host. Qed.

Lemma frame_switch_to_alt t : Q t → Q (ozterm_switch_to_alt_screen t).
Proof. intros Ht. apply frame_call_host, frame_clear, Q_alt. exact Ht. Qed.

Lemma frame_put_graphic t c : Q t → Q (put_graphic_and_cursor t c).
Proof.
  intros Ht. unfold put_graphic_and_cursor. cbv zeta.
  set (t1 := if _ >=? _ then _ else t).
  assert (Ht1 : Q t1).
  { unfold t1. destruct (_ >=? _); [|exact Ht].
    destruct (_ =? _); [apply frame_scroll_up_1 | apply Q_cursor_row];
      apply Q_cursor_column; exact Ht. }
  clearbody t1.
  apply frame_move_cursor, frame_call_host, Q_buffer; [|exact Ht1]. apply length_wr.
Qed.

Lemma frame_put_character_and_cursor t c : Q t → Q (ozterm_put_character_and_cursor t c).
Proof.
  intros Ht. unfold ozterm_put_character_and_cursor.
  destruct (c =? LF).
  { destruct (_ =? _); [apply frame_scroll_up_1 | apply frame_move_cursor]; exact Ht. }
  destruct (c =? CR); [apply frame_move_cursor; exact Ht|].
  destruct (c =? BS).
  { destruct (_ >? _); [apply frame_move_cursor_diff|]; exact Ht. }
  destruct (c =? TAB).
  { cbv zeta. apply for_up_ind; [exact Ht|]. intros _ t' _ Ht'. apply frame_put_graphic. exact Ht'. }
  destruct (_ || _); [apply frame_put_graphic|]; exact Ht.
Qed.

Lemma frame_csi_dispatch t param private final :
  restore_allowed Q final → Q t → Q (csi_dispatch t param private final).
Proof.
  intros Hl Ht. unfold csi_dispatch, csi_m. destruct (csi_params param) as [p1 p2].
  repeat match goal with
         | |- Q (if ?b then _ else _) => destruct b eqn:?
         end;
    auto using frame_move_cursor, frame_move_cursor_diff, frame_csi_n, frame_csi_J,
      frame_csi_K, frame_sgr_loop, frame_switch_to_alt, frame_write_to_master,
      frame_line_insert_characters, frame_line_delete_characters, frame_delete_lines,
      frame_insert_lines, frame_scroll_up_region, frame_scroll_down_region.
  unfold ozterm_restore_main_screen. apply frame_call_host.
  apply Hl; [|exact Ht]. apply Z.eqb_eq. assumption.
Qed.

Lemma frame_parse_normal p t c : Q t → Q (snd (parse_normal p t c)).
Proof.
  intros Ht. unfold parse_normal.
  repeat match goal with
         | |- context [if ?b then _ else _] => destruct b
         end; cbn [snd]; auto using frame_put_character_and_cursor.
Qed.

Lemma frame_parse_esc p t c : Q t → Q (snd (parse_esc p t c)).
Proof.
  intros Ht. unfold parse_esc.
  repeat match goal with
         | |- context [if ?b then _ else _] => destruct b
         end; cbn [snd];
    auto using frame_move_cursor, frame_move_cursor_diff, frame_clear,
      frame_scroll_down_region, frame_write_to_master.
Qed.

Lemma frame_parse_osc p t c : Q t → Q (snd (parse_osc p t c)).
Proof.
  intros Ht. unfold parse_osc.
  repeat match goal with
         | |- context [if ?b then _ else _] => destruct b
         end; exact Ht.
Qed.

Lemma frame_parse_hash p t c : Q t → Q (snd (parse_hash p t c)).
Proof.
  intros Ht. unfold parse_hash. cbn [snd]. destruct (_ =? _); auto using frame_decaln.
Qed.

Lemma frame_parse_csi p t c : restore_allowed Q c → Q t → Q (snd (parse_csi p t c)).
Proof.
  intros Hl Ht. unfold parse_csi. cbv zeta.
  repeat match goal with
         | |- context [if ?b then _ else _] => destruct b
         end; cbn [snd]; auto using frame_csi_dispatch.
Qed.

(** What a byte does before the view snaps back to live. *)
Lemma frame_parse p t c :
  restore_allowed Q c → Q t →
  ∃ p' t', ozterm_put_character (p, t) c = (p', snap_to_live t') ∧ Q t'.
Proof.
  intros Hl Ht. unfold ozterm_put_character.
  destruct (parse_state p).
  - pose proof (frame_parse_normal p t c Ht). destruct (parse_normal p t c); eauto.
  - pose proof (frame_parse_esc p t c Ht). destruct (parse_esc p t c); eauto.
  - pose proof (frame_parse_csi p t c Hl Ht). destruct (parse_csi p t c); eauto.
  - pose proof (frame_parse_osc p t c Ht). destruct (parse_osc p t c); eauto.
  - eauto.
  - eauto.
  - pose proof (frame_parse_hash p t c Ht). destruct (parse_hash p t c); eauto.
Qed.

Lemma frame_put_character p t c :
  restore_allowed Q c → Q t → Q (snd (ozterm_put_character (p, t) c)).
Proof.
  intros Hl Ht. destruct (frame_parse p t c Hl Ht) as (p' & t' & -> & Ht').
  apply Q_snap. exact Ht'.
Qed.

(** Outside a control sequence no byte reaches the switch back to the
    main screen. *)
Lemma frame_put_character_outside_csi p t c :
  parse_state p ≠ STATE_CSI → Q t → Q (snd (ozterm_put_character (p, t) c)).
Proof.
  intros Hp Ht. unfold ozterm_put_character.
  destruct (parse_state p); [| |congruence| | | |].
  - pose proof (frame_parse_normal p t c Ht). destruct (parse_normal p t c).
    apply Q_snap. assumption.
  - pose proof (frame_parse_esc p t c Ht). destruct (parse_esc p t c).
    apply Q_snap. assumption.
  - pose proof (frame_parse_osc p t c Ht). destruct (parse_osc p t c).
    apply Q_snap. assumption.
  - apply Q_snap. exact Ht.
  - apply Q_snap. exact Ht.
  - pose proof (frame_parse_hash p t c Ht). destruct (parse_hash p t c).
    apply Q_snap. assumption.
Qed.

Lemma frame_put_text_loop text : ∀ st i size,
  Forall (restore_allowed Q) text →
  Q (snd st) → Q (snd (put_text_loop st text i size)).
Proof.
  induction text as [|c text IH]; intros [p t] i size Hall Ht; simpl; [exact Ht|].
  inversion Hall; subst.
  destruct (_ && _); [|exact Ht]. apply IH; [assumption|].
  apply frame_put_character; assumption.
Qed.

End Frame.

(** ** Reachable terminals are well formed *)

Lemma length_row_slice buf start columns :
  0 ≤ start → 0 ≤ columns → start + columns ≤ Z.of_nat (length buf) →
  Z.of_nat (length (row_slice buf start columns)) = columns.
Proof.
  intros Hs Hc Hle. unfold row_slice. destruct (decide (0 ≤ start)); [|lia].
  rewrite length_take, length_drop. lia.
Qed.

Lemma snap_idempotent t : snap_to_live (snap_to_live t) = snap_to_live t.
Proof.
  unfold snap_to_live, set_scroll_offset. cbn [scroll_offset]. f_equal.
  destruct (Z.gtb_spec (scroll_offset t) 0); [reflexivity|].
  destruct (Z.gtb_spec (scroll_offset t) 0); [lia | reflexivity].
Qed.

Section RingBounds.
Context `{OztermHeader}.
Hypothesis Hring : 1 ≤ SCROLLBACK_LINES.

Lemma rb_set_active s t : ring_bounds t → ring_bounds (set_active s t).
Proof. intros Ht. unfold set_active. destruct (screen_active t); exact Ht. Qed.

Lemma rb_region p1 p2 t : ring_bounds t → ring_bounds (csi_r t p1 p2).
Proof. intros Ht. unfold csi_r. destruct (_ && _); exact Ht. Qed.

Lemma rb_push t :
  ring_bounds t →
  ring_bounds
    (set_scrollback
       (<[Z.to_nat (scrollback_head t) :=
            row_slice (buffer (active t)) ((scroll_top t + 0) * column_count t)
              (column_count t)]> (scrollback t))
       ((scrollback_head t + 1) mod SCROLLBACK_LINES)
       (if scrollback_count t <? SCROLLBACK_LINES
        then scrollback_count t + 1 else scrollback_count t) t).
Proof.
  intros (Hhead & Hcount & Hoff). unfold ring_bounds.
  cbn [scrollback_head scrollback_count scroll_offset set_scrollback].
  assert (Hpos : 0 < SCROLLBACK_LINES) by (clear - Hring; lia).
  pose proof (Z.mod_pos_bound (scrollback_head t + 1) SCROLLBACK_LINES Hpos).
  destruct (Z.ltb_spec (scrollback_count t) SCROLLBACK_LINES); lia.
Qed.

Lemma rb_snap t : ring_bounds t → ring_bounds (snap_to_live t).
Proof.
  intros (Hhead & Hcount & Hoff). unfold ring_bounds, snap_to_live.
  cbn [scrollback_head scrollback_count scroll_offset set_scroll_offset].
  destruct (Z.gtb_spec (scroll_offset t) 0); lia.
Qed.

Lemma rb_scroll t offset : ring_bounds t → ring_bounds (ozterm_scroll t offset).
Proof.
  intros (Hhead & Hcount & Hoff). unfold ring_bounds, ozterm_scroll. cbv zeta.
  cbn [scrollback_head scrollback_count scroll_offset set_scroll_offset call_refresh
       call_host set_host_calls].
  destruct (Z.gtb_spec (to_int16 offset) (scrollback_count t));
    match goal with |- context [?a <? 0] => destruct (Z.ltb_spec a 0) end; lia.
Qed.

Lemma rb_create rows cols : ring_bounds (ozterm_create rows cols).
Proof.
  unfold ozterm_create. cbv zeta.
  apply (frame_clear ring_bounds (fun b t _ => rb_set_active _ t)
           (fun r t => rb_set_active _ t) (fun c t => rb_set_active _ t)
           (fun _ _ Ht => Ht)).
  unfold ring_bounds. cbn [scrollback_head scrollback_count scroll_offset]. lia.
Qed.

Lemma rb_put_text_loop text st i size :
  ring_bounds (snd st) → ring_bounds (snd (put_text_loop st text i size)).
Proof.
  apply (frame_put_text_loop ring_bounds (fun b t _ => rb_set_active _ t)
           (fun r t => rb_set_active _ t) (fun c t => rb_set_active _ t)
           (fun b t => rb_set_active _ t)
           (fun _ _ Ht => Ht) (fun _ _ _ Ht => Ht) rb_region (fun _ Ht => Ht)
           rb_push rb_snap).
  apply Forall_forall. intros c _ _ t Ht. exact Ht.
Qed.

(** The bounds of the ring hold in every reachable state. *)
Lemma reachable_ring_bounds rows cols st : reachable rows cols st → ring_bounds (snd st).
Proof.
  induction 1 as [w r s m|st data size _ IH|p t modifier key _ IH|p t offset _ IH
                 |p t _ IH|p t _ IH]; cbn [snd] in *.
  - exact (rb_create rows cols).
  - apply rb_put_text_loop. exact IH.
  - unfold ozterm_send_key. destruct (encode_key _ _). exact IH.
  - apply rb_scroll. exact IH.
  - apply (frame_switch_to_alt ring_bounds (fun b t _ => rb_set_active _ t)
             (fun r t => rb_set_active _ t) (fun c t => rb_set_active _ t)
             (fun _ _ Ht => Ht) (fun _ Ht => Ht)). exact IH.
  - exact IH.
Qed.

End RingBounds.

(** [rows] and [cols] are the dimensions the terminal stores: the arguments
    of [ozterm_create] as [uint16_t]. *)
Section WellFormed.
Context `{OztermHeader}.
Variables rows cols : Z.
Hypothesis Hrows : 1 ≤ rows.
Hypothesis Hcols : 0 ≤ cols.
Hypothesis Hring : 1 ≤ SCROLLBACK_LINES.

Abbreviation WF := (well_formed rows cols).

Lemma wf_active_length t :
  WF t → Z.of_nat (length (buffer (active t))) = rows * cols.
Proof. intros (_ & _ & Hm & Ha & _). unfold active. destruct (screen_active t); assumption. Qed.

Lemma wf_buffer b t : length b = length (buffer (active t)) → WF t → WF (set_active_buffer b t).
Proof.
  intros Hb Ht. pose proof (wf_active_length t Ht) as Hlen.
  destruct Ht as (Hr & Hc & Hm & Ha & Hrest).
  unfold well_formed, set_active_buffer, set_active. simpl.
  destruct (screen_active t); simpl; repeat split; try apply Hrest; try assumption; lia.
Qed.

Lemma wf_cursor_row r t : WF t → WF (set_active (set_cursor_row r (active t)) t).
Proof.
  intros (Hr & Hc & Hm & Ha & Hrest).
  unfold well_formed, set_active, active. simpl.
  destruct (screen_active t); simpl; repeat split; try apply Hrest; assumption.
Qed.

Lemma wf_cursor_column c t : WF t → WF (set_active (set_cursor_column c (active t)) t).
Proof.
  intros (Hr & Hc & Hm & Ha & Hrest).
  unfold well_formed, set_active, active. simpl.
  destruct (screen_active t); simpl; repeat split; try apply Hrest; assumption.
Qed.

Lemma wf_attr b t : WF t → WF (set_active (set_attr_protected b (active t)) t).
Proof.
  intros (Hr & Hc & Hm & Ha & Hrest).
  unfold well_formed, set_active, active. simpl.
  destruct (screen_active t); simpl; repeat split; try apply Hrest; assumption.
Qed.

Lemma wf_region p1 p2 t : WF t → WF (csi_r t p1 p2).
Proof.
  intros (Hr & Hc & Hm & Ha & _ & Hrest).
  pose proof (csi_r_in_range t p1 p2 ltac:(lia)) as [Htop Hbot].
  rewrite Hr in Htop, Hbot.
  assert (Hframe : csi_r t p1 p2
                   = set_scroll_region (scroll_top (csi_r t p1 p2))
                       (scroll_bottom (csi_r t p1 p2)) t).
  { unfold csi_r. destruct (_ && _); reflexivity. }
  rewrite Hframe. unfold well_formed. cbn [row_count column_count screen_main
    screen_alternative scroll_top scroll_bottom scrollback scrollback_head
    scrollback_count scroll_offset set_scroll_region].
  repeat split; try apply Hrest; try assumption; lia.
Qed.

Lemma wf_push t :
  WF t →
  WF (set_scrollback
        (<[Z.to_nat (scrollback_head t) :=
             row_slice (buffer (active t)) ((scroll_top t + 0) * column_count t)
               (column_count t)]> (scrollback t))
        ((scrollback_head t + 1) mod SCROLLBACK_LINES)
        (if scrollback_count t <? SCROLLBACK_LINES
         then scrollback_count t + 1 else scrollback_count t) t).
Proof.
  intros Ht. pose proof (wf_active_length t Ht) as Hlen.
  destruct Ht as (Hr & Hc & Hm & Ha & Hmargins & (Hhead & Hcount & Hoff) & Hsb & Hall).
  unfold well_formed. cbn [row_count column_count screen_main screen_alternative
    scroll_top scroll_bottom scrollback scrollback_head scrollback_count scroll_offset
    set_scrollback].
  assert (Hpos : 0 < SCROLLBACK_LINES) by (clear - Hring; lia).
  pose proof (Z.mod_pos_bound (scrollback_head t + 1) SCROLLBACK_LINES Hpos).
  split; [exact Hr|]. split; [exact Hc|]. split; [exact Hm|]. split; [exact Ha|].
  split; [exact Hmargins|]. split.
  { destruct (Z.ltb_spec (scrollback_count t) SCROLLBACK_LINES); lia. }
  split; [rewrite length_insert; exact Hsb|].
  apply Forall_insert; [exact Hall|].
  rewrite Hc.
  apply length_row_slice; [nia | lia |].
  rewrite Hlen, Z.add_0_r.
  replace (scroll_top t * cols + cols) with ((scroll_top t + 1) * cols) by lia.
  apply Z.mul_le_mono_nonneg_r; lia.
Qed.

Lemma wf_snap t : WF t → WF (snap_to_live t).
Proof.
  intros (Hr & Hc & Hm & Ha & Hmargins & (Hhead & Hcount & Hoff) & Hsb & Hall).
  unfold well_formed, snap_to_live. cbn [row_count column_count screen_main
    screen_alternative scroll_top scroll_bottom scrollback scrollback_head
    scrollback_count scroll_offset set_scroll_offset].
  repeat split; try assumption; try lia;
    destruct (Z.gtb_spec (scroll_offset t) 0); lia.
Qed.

Lemma wf_restore_allowed c : restore_allowed WF c.
Proof. intros _ t Ht. exact Ht. Qed.

Lemma wf_put_text_loop text st i size :
  WF (snd st) → WF (snd (put_text_loop st text i size)).
Proof.
  apply (frame_put_text_loop WF wf_buffer wf_cursor_row wf_cursor_column wf_attr
           (fun _ _ Ht => Ht) (fun _ _ _ Ht => Ht) wf_region (fun _ Ht => Ht) wf_push wf_snap).
  apply Forall_forall. intros c _. apply wf_restore_allowed.
Qed.

Lemma wf_create r c :
  to_uint16 r = rows → to_uint16 c = cols → WF (ozterm_create r c).
Proof.
  intros Hr Hc. unfold ozterm_create. cbv zeta. rewrite Hr, Hc.
  apply (frame_clear WF wf_buffer wf_cursor_row wf_cursor_column (fun _ _ Ht => Ht)).
  unfold well_formed. cbn [row_count column_count screen_main screen_alternative
    scroll_top scroll_bottom scrollback scrollback_head scrollback_count scroll_offset
    buffer].
  rewrite !length_replicate.
  repeat split; try lia; try nia.
  apply Forall_replicate. rewrite length_replicate. lia.
Qed.

Lemma wf_scroll t offset : WF t → WF (ozterm_scroll t offset).
Proof.
  intros (Hr & Hc & Hm & Ha & Hmargins & (Hhead & Hcount & Hoff) & Hsb & Hall).
  unfold well_formed, ozterm_scroll. cbv zeta. cbn [row_count column_count screen_main
    screen_alternative scroll_top scroll_bottom scrollback scrollback_head
    scrollback_count scroll_offset set_scroll_offset call_refresh call_host set_host_calls].
  repeat split; try assumption; try lia;
    destruct (Z.gtb_spec (to_int16 offset) (scrollback_count t));
    match goal with |- context [?a <? 0] => destruct (Z.ltb_spec a 0) end; lia.
Qed.

Lemma reachable_well_formed r c st :
  to_uint16 r = rows → to_uint16 c = cols → reachable r c st → WF (snd st).
Proof.
  intros Hr Hc.
  induction 1 as [w rf s m|st data size _ IH|p t modifier key _ IH|p t offset _ IH
                 |p t _ IH|p t _ IH]; cbn [snd] in *.
  - exact (wf_create _ _ Hr Hc).
  - apply wf_put_text_loop. exact IH.
  - unfold ozterm_send_key. destruct (encode_key _ _). exact IH.
  - apply wf_scroll. exact IH.
  - apply (frame_switch_to_alt WF wf_buffer wf_cursor_row wf_cursor_column
             (fun _ _ Ht => Ht) (fun _ Ht => Ht)). exact IH.
  - exact IH.
Qed.

Lemma wf_put_character p t c :
  well_formed rows cols t → well_formed rows cols (snd (ozterm_put_character (p, t) c)).
Proof.
  intros Ht.
  apply (frame_put_character WF wf_buffer wf_cursor_row wf_cursor_column wf_attr
           (fun _ _ Ht => Ht) (fun _ _ _ Ht => Ht) wf_region (fun _ Ht => Ht) wf_push wf_snap);
    [apply wf_restore_allowed | exact Ht].
Qed.

Lemma ring_row_length t i :
  well_formed rows cols t → 0 ≤ i < SCROLLBACK_LINES →
  Z.of_nat (length (ring_row (scrollback t) i)) = cols.
Proof.
  intros (_ & _ & _ & _ & _ & _ & Hsb & Hall) Hi. unfold ring_row.
  destruct (decide (0 ≤ i)); [|lia].
  destruct (scrollback t !! Z.to_nat i) as [line|] eqn:Hline.
  - simpl. exact (proj1 (Forall_lookup _ _) Hall _ _ Hline).
  - apply lookup_ge_None_1 in Hline. lia.
Qed.

Lemma get_row_length t row :
  rows ≤ 32767 → well_formed rows cols t → 0 ≤ row < rows →
  Z.of_nat (length (ozterm_get_row t row)) = cols.
Proof.
  intros Hmax Ht Hrow. pose proof (wf_active_length t Ht) as Hlen.
  pose proof Ht as (Hr & Hc & _ & _ & _ & (Hhead & Hcount & Hoff) & _).
  unfold ozterm_get_row, row_buffer. cbv zeta. rewrite to_int16_id by lia.
  assert (Hslice : ∀ y, 0 ≤ y < rows →
            Z.of_nat (length (row_slice (buffer (active t)) (y * column_count t)
                                (column_count t))) = cols).
  { intros y Hy. rewrite Hc. apply length_row_slice; [nia | lia |].
    rewrite Hlen. replace (y * cols + cols) with ((y + 1) * cols) by lia.
    apply Z.mul_le_mono_nonneg_r; lia. }
  destruct (Z.gtb_spec (scroll_offset t) 0); [|apply Hslice; lia].
  destruct (Z.ltb_spec (scrollback_count t - scroll_offset t + row) (scrollback_count t)).
  - apply ring_row_length; [exact Ht|].
    apply Z.rem_bound_pos; lia.
  - apply Hslice. lia.
Qed.

End WellFormed.

(** With both dimensions in the range of [uint16_t] the terminal stores them
    as they were passed. *)
Lemma reachable_well_formed_sized `{OztermHeader} rows cols st :
  1 ≤ rows ≤ 65535 → 0 ≤ cols ≤ 65535 → 1 ≤ SCROLLBACK_LINES →
  reachable rows cols st → well_formed rows cols (snd st).
Proof.
  intros Hr Hc Hs.
  apply (reachable_well_formed rows cols); try lia; apply to_uint16_id; lia.
Qed.





(** X3: ozterm_scroll stores the requested offset when it lies between 0
    and the number of rows in the scrollback, and otherwise the nearer of
    these two bounds, in every reachable state. *)
Theorem scroll_clamps_offset `{OztermHeader} rows cols p t offset :
  1 ≤ rows → 0 ≤ cols → 1 ≤ SCROLLBACK_LINES →
  reachable rows cols (p, t) →
  -32768 ≤ offset ≤ 32767 →
  ozterm_get_scroll (ozterm_scroll t offset)
  = Z.max 0 (Z.min offset (scrollback_count t)) ∧
  scrollback_count (ozterm_scroll t offset) = scrollback_count t ∧
  0 ≤ ozterm_get_scroll (ozterm_scroll t offset) ≤ scrollback_count t.
Proof.
  intros Hr Hc Hs Hreach Hoff.
  destruct (reachable_ring_bounds Hs _ _ _ Hreach) as (_ & Hcount & _).
  cbn [snd] in Hcount.
  unfold ozterm_get_scroll, ozterm_scroll. cbv zeta.
  rewrite (to_int16_id offset) by lia.
  change (scroll_offset (call_refresh (set_scroll_offset ?o t))) with o.
  change (scrollback_count (call_refresh (set_scroll_offset ?o t))) with (scrollback_count t).
  destruct (Z.gtb_spec offset (scrollback_count t));
    match goal with |- context [?a <? 0] => destruct (Z.ltb_spec a 0) end; lia.
Qed.

Lemma scroll_clamps_offset_witness :
  ozterm_get_scroll (ozterm_scroll (snd two_lines_read) 7)
  = Z.max 0 (Z.min 7 (scrollback_count (snd two_lines_read))) ∧
  scrollback_count (ozterm_scroll (snd two_lines_read) 7)
  = scrollback_count (snd two_lines_read) ∧
  0 ≤ ozterm_get_scroll (ozterm_scroll (snd two_lines_read) 7)
    ≤ scrollback_count (snd two_lines_read).
Proof.
  apply (@scroll_clamps_offset sample_header 2 2 (fst two_lines_read) (snd two_lines_read) 7);
    [lia | lia | simpl; lia | | lia].
  rewrite <- surjective_pairing. apply reach_read, reach_create.
Defined.

Lemma ring_row_insert sb i line :
  0 ≤ i → Z.of_nat (length sb) > i → ring_row (<[Z.to_nat i := line]> sb) i = line.
Proof.
  intros Hi Hlen. unfold ring_row. destruct (decide (0 ≤ i)); [|lia].
  rewrite list_lookup_insert_eq by lia. reflexivity.
Qed.

Lemma ring_newest_index head n :
  1 ≤ n → 0 ≤ head < n → Z.rem ((head + 1) mod n - 1 + n) n = head.
Proof.
  intros Hn Hhead.
  assert (Hcase : (head + 1) mod n = head + 1 ∨ ((head + 1) mod n = 0 ∧ head + 1 = n)).
  { destruct (Z.eq_dec (head + 1) n) as [->|Hne].
    - right. split; [apply Z_mod_same_full | reflexivity].
    - left. apply Z.mod_small. lia. }
  pose proof (Z.mod_pos_bound (head + 1) n ltac:(lia)) as Hbound.
  rewrite Z.rem_mod_nonneg by lia.
  destruct Hcase as [->|[-> Heq]].
  - replace (head + 1 - 1 + n) with (head + 1 * n) by lia.
    rewrite Z_mod_plus_full. apply Z.mod_small. lia.
  - rewrite Z.mod_small by lia. lia.
Qed.

(** X4: with the parser between two sequences and the cursor on row
    scroll_bottom, after a line feed the host that scrolls back by one row
    reads on row 0 the row that was at scroll_top before the line feed, and
    on every row below it the row just above of the live screen. *)
Theorem evicted_row_is_shown `{OztermHeader} rows cols p t :
  1 ≤ rows ≤ 32767 → 0 ≤ cols → 1 ≤ SCROLLBACK_LINES →
  reachable rows cols (p, t) →
  parse_state p = STATE_NORMAL →
  cursor_row (active t) = scroll_bottom t →
  ozterm_get_scroll t = 0 →
  let t1 := snd (ozterm_put_character (p, t) LF) in
  ozterm_get_row (ozterm_scroll t1 1) 0 = ozterm_get_row t (scroll_top t) ∧
  ∀ row, 1 ≤ row < rows →
    ozterm_get_row (ozterm_scroll t1 1) row = ozterm_get_row t1 (row - 1).
Proof.
  intros Hr Hc Hs Hreach Hp Hcur Hlive t1.
  assert (Hr1 : 1 ≤ rows) by lia.
  assert (Hc0 : 0 ≤ to_uint16 cols) by (apply Z.mod_pos_bound; lia).
  assert (Hrw : to_uint16 rows = rows) by (apply to_uint16_id; lia).
  destruct (reachable_well_formed rows (to_uint16 cols) Hr1 Hc0 Hs _ _ _ Hrw eq_refl Hreach)
    as (Hrows & _ & _ & _ & (Htop & _) & (Hhead & Hcount & _) & Hlen & _).
  cbn [snd] in *. unfold ozterm_get_scroll in Hlive.
  assert (Ht1 : t1 = snap_to_live (ozterm_scroll_up t 1)).
  { subst t1. pose proof (run_line_feed p t Hp) as Hrun. cbn [fold_left] in Hrun.
    rewrite Hrun. unfold ozterm_put_character_and_cursor. rewrite Z.eqb_refl.
    rewrite (proj2 (Z.eqb_eq _ _) Hcur). reflexivity. }
  set (count' := if scrollback_count t <? SCROLLBACK_LINES
                 then scrollback_count t + 1 else scrollback_count t).
  assert (Hcount' : 1 ≤ count').
  { subst count'. destruct (Z.ltb_spec (scrollback_count t) SCROLLBACK_LINES); lia. }
  assert (Hc1 : scrollback_count t1 = count') by (rewrite Ht1; reflexivity).
  assert (Hh1 : scrollback_head t1 = (scrollback_head t + 1) mod SCROLLBACK_LINES)
    by (rewrite Ht1; reflexivity).
  assert (Hsb1 : scrollback t1
                 = <[Z.to_nat (scrollback_head t) :=
                       row_slice (buffer (active t)) ((scroll_top t + 0) * column_count t)
                         (column_count t)]> (scrollback t))
    by (rewrite Ht1; reflexivity).
  assert (Ho1 : scroll_offset t1 = 0).
  { rewrite Ht1. unfold snap_to_live. cbn [scroll_offset set_scroll_offset].
    destruct (_ >? 0); [reflexivity|].
    rewrite scroll_up_1. exact Hlive. }
  assert (Hoff : scroll_offset (ozterm_scroll t1 1) = 1).
  { unfold ozterm_scroll. cbv zeta.
    change (scroll_offset (call_refresh (set_scroll_offset ?o t1))) with o.
    rewrite to_int16_id by lia. rewrite Hc1.
    destruct (Z.gtb_spec 1 count'); [lia|]. reflexivity. }
  assert (Hview : ∀ row,
            ozterm_get_row (ozterm_scroll t1 1) row
            = let row := to_int16 row in
              if scrollback_count t1 - 1 + row <? scrollback_count t1
              then ring_row (scrollback t1)
                     (Z.rem (scrollback_head t1 - scrollback_count t1
                             + (scrollback_count t1 - 1 + row) + SCROLLBACK_LINES)
                        SCROLLBACK_LINES)
              else row_slice (buffer (active t1)) ((row - 1) * column_count t1)
                     (column_count t1)).
  { intros row. unfold ozterm_get_row, row_buffer. rewrite Hoff. cbv zeta.
    change (1 >? 0) with true. cbv iota.
    change (scrollback_count (ozterm_scroll t1 1)) with (scrollback_count t1).
    destruct (scrollback_count t1 - 1 + to_int16 row <? scrollback_count t1);
      reflexivity. }
  split.
  - rewrite Hview. cbv zeta. rewrite to_int16_id by lia.
    destruct (Z.ltb_spec (scrollback_count t1 - 1 + 0) (scrollback_count t1)); [|lia].
    rewrite Hh1, Hsb1.
    replace (_ - scrollback_count t1 + _ + SCROLLBACK_LINES)
      with ((scrollback_head t + 1) mod SCROLLBACK_LINES - 1 + SCROLLBACK_LINES) by lia.
    rewrite ring_newest_index by lia.
    rewrite ring_row_insert by lia.
    unfold ozterm_get_row, row_buffer. cbv zeta. rewrite Hlive.
    rewrite to_int16_id by lia.
    rewrite Z.add_0_r. reflexivity.
  - intros row Hrow. rewrite Hview. cbv zeta. rewrite to_int16_id by lia.
    destruct (Z.ltb_spec (scrollback_count t1 - 1 + row) (scrollback_count t1)); [lia|].
    unfold ozterm_get_row, row_buffer. cbv zeta. rewrite Ho1.
    rewrite to_int16_id by lia.
    reflexivity.
Qed.

Lemma evicted_row_is_shown_witness :
  @ozterm_get_row sample_header
    (ozterm_scroll
       (snd (@ozterm_put_character sample_header
               (fst first_line_read, snd first_line_read) LF)) 1) 0
  = [mkCell (ch "a") 10 false; mkCell (ch " ") 10 false].
Proof.
  assert (Hreach : @reachable sample_header 2 2 (fst first_line_read, snd first_line_read)).
  { rewrite <- surjective_pairing. apply reach_read, reach_create. }
  pose proof (@evicted_row_is_shown sample_header 2 2 (fst first_line_read)
                (snd first_line_read) ltac:(lia) ltac:(lia) ltac:(simpl; lia) Hreach
                eq_refl eq_refl eq_refl) as [Hrow _].
  rewrite Hrow. reflexivity.
Defined.

Lemma scroll_offset_csi_r `{OztermHeader} t p1 p2 :
  scroll_offset (csi_r t p1 p2) = scroll_offset t.
Proof. unfold csi_r. destruct (_ && _); reflexivity. Qed.



(** ** Control sequences byte by byte *)

Section CsiRun.
Context `{OztermHeader}.

Lemma step_csi_open p t :
  parse_state p = STATE_NORMAL →
  ∃ p', fold_left ozterm_put_character [ESC; ch "["] (p, t) = (p', snap_to_live t) ∧
        collecting [] false p'.
Proof.
  intros Hp. destruct p. simpl in Hp. subst. eexists. split.
  - rewrite <- (snap_idempotent t). reflexivity.
  - repeat split.
Qed.

Lemma step_csi_private p t consumed private :
  collecting consumed private p →
  ∃ p', ozterm_put_character (p, t) (ch "?") = (p', snap_to_live t) ∧
        collecting consumed true p'.
Proof.
  intros (Hp & Hbuf & Hlen & _). unfold ozterm_put_character. rewrite Hp.
  unfold parse_csi. cbn [Z.eqb orb ch]. 
  destruct (seq_len p <? 63); eexists; (split; [reflexivity|]);
    repeat split; assumption.
Qed.

Lemma take_31_snoc (consumed : list Z) (c : Z) :
  (length (take 31 consumed) < 31)%nat →
  take (Z.to_nat (Z.of_nat (length (take 31 consumed)))) (take 31 consumed) ++ [c]
  = take 31 (consumed ++ [c]).
Proof.
  intros Hlen. rewrite Nat2Z.id, firstn_all.
  rewrite length_take in Hlen.
  rewrite take_ge by lia. rewrite take_ge by (rewrite length_app; simpl; lia).
  reflexivity.
Qed.

Lemma take_31_full (consumed : list Z) (c : Z) :
  ¬ (length (take 31 consumed) < 31)%nat →
  take 31 consumed = take 31 (consumed ++ [c]).
Proof.
  intros Hlen. rewrite length_take in Hlen.
  rewrite take_app_le by lia. reflexivity.
Qed.

Lemma step_csi_collect p t consumed private c :
  collecting consumed private p → is_param_byte c = true →
  ∃ p', ozterm_put_character (p, t) c = (p', snap_to_live t) ∧
        collecting (consumed ++ [c]) private p'.
Proof.
  intros (Hp & Hbuf & Hlen & Hpriv) Hc. unfold ozterm_put_character. rewrite Hp.
  unfold parse_csi.
  unfold is_param_byte, isdigit in Hc.
  assert (Hq : (c =? ch "?") || (c =? ch ">") = false).
  { apply orb_false_iff. split; apply Z.eqb_neq; intros ->; discriminate Hc. }
  set (p1 := if seq_len p <? 63 then _ else p).
  assert (Hp1 : parse_state p1 = STATE_CSI ∧ param_buf p1 = param_buf p ∧
                param_len p1 = param_len p ∧ is_private p1 = is_private p ∧
                seq_buf p1 = seq_buf p1)
    by (unfold p1; destruct (_ <? _); repeat split; exact Hp).
  destruct Hp1 as (Hs1 & Hb1 & Hl1 & Hi1 & _).
  rewrite Hq.
  change (ch "0") with 48. change (ch "9") with 57.
  replace ((c >=? 48) && (c <=? 57)) with ((48 <=? c) && (c <=? 57))
    by (rewrite Z.geb_leb; reflexivity).
  rewrite Hc. rewrite Hl1, Hb1, Hlen, Hbuf.
  destruct (Z.ltb_spec (Z.of_nat (length (take 31 consumed))) 31) as [Hlt|Hge];
    eexists; (split; [reflexivity|]); unfold collecting; cbn [parse_state param_buf param_len is_private].
  - split; [exact Hs1|]. split; [|split; [|congruence]].
    + unfold append_at. apply take_31_snoc. lia.
    + rewrite <- take_31_snoc by lia. rewrite Nat2Z.id, firstn_all.
      rewrite length_app. simpl. lia.
  - split; [exact Hs1|]. rewrite Hb1, Hl1, Hlen, Hbuf.
    rewrite <- take_31_full by lia. repeat split. congruence.
Qed.

Lemma run_csi_collect ps : ∀ p t consumed private,
  collecting consumed private p → forallb is_param_byte ps = true →
  ∃ p', fold_left ozterm_put_character ps (p, snap_to_live t) = (p', snap_to_live t) ∧
        collecting (consumed ++ ps) private p'.
Proof.
  induction ps as [|c ps IH]; intros p t consumed private Hp Hps; cbn [fold_left].
  - rewrite app_nil_r. eauto.
  - simpl in Hps. apply andb_true_iff in Hps as [Hc Hps].
    destruct (step_csi_collect p (snap_to_live t) consumed private c Hp Hc) as (p' & -> & Hp').
    rewrite snap_idempotent.
    destruct (IH p' t _ private Hp' Hps) as (p'' & -> & Hp'').
    rewrite <- app_assoc in Hp''. eauto.
Qed.

Lemma step_csi_dispatch p t consumed private final :
  collecting consumed private p → is_final_byte final = true →
  ∃ p', ozterm_put_character (p, t) final
        = (p', snap_to_live (csi_dispatch t (take 31 consumed) private final)) ∧
        parse_state p' = STATE_NORMAL ∧
        param_buf p' = take 31 consumed.
Proof.
  intros (Hp & Hbuf & Hlen & Hpriv) Hf. unfold ozterm_put_character. rewrite Hp.
  unfold parse_csi. unfold is_final_byte in Hf. apply andb_true_iff in Hf as [Hlo Hhi].
  apply Z.leb_le in Hlo, Hhi. change (ch "@") with 64 in *. change (ch "~") with 126 in *.
  assert (Hq : (final =? ch "?") || (final =? ch ">") = false).
  { apply orb_false_iff. split; apply Z.eqb_neq; change (ch "?") with 63;
      change (ch ">") with 62; lia. }
  assert (Hd : ((final >=? ch "0") && (final <=? ch "9")) || (final =? ch ";") = false).
  { change (ch "0") with 48. change (ch "9") with 57. change (ch ";") with 59.
    apply orb_false_iff. split; [apply andb_false_iff; right; apply Z.leb_gt; lia
                                | apply Z.eqb_neq; lia]. }
  assert (Hr : (final <? 64) || (final >? 126) = false).
  { apply orb_false_iff. split; [apply Z.ltb_ge; lia|].
    rewrite Z.gtb_ltb. apply Z.ltb_ge. lia. }
  rewrite Hq, Hd, Hr.
  destruct (seq_len p <? 63); cbn [param_buf is_private]; rewrite Hbuf, Hpriv;
    eexists; (split; [reflexivity | split; reflexivity]).
Qed.

(** The parser reads a whole control sequence: [param_buf] holds the first
    31 parameter bytes and the terminal is the one [csi_dispatch] gives for
    them. *)
Lemma run_csi_buffer p t private ps final :
  parse_state p = STATE_NORMAL →
  forallb is_param_byte ps = true → is_final_byte final = true →
  ∃ p', fold_left ozterm_put_character (csi_sequence private ps final) (p, t)
        = (p', snap_to_live (csi_dispatch (snap_to_live t) (take 31 ps) private final)) ∧
        parse_state p' = STATE_NORMAL ∧
        param_buf p' = take 31 ps.
Proof.
  intros Hp Hps Hf. unfold csi_sequence. rewrite !fold_left_app.
  destruct (step_csi_open p t Hp) as (p1 & -> & Hp1).
  assert (Hmark : ∃ p2, fold_left ozterm_put_character (if private then [ch "?"] else [])
                          (p1, snap_to_live t) = (p2, snap_to_live t)
                        ∧ collecting [] private p2).
  { destruct private; cbn [fold_left].
    - destruct (step_csi_private p1 (snap_to_live t) [] false Hp1) as (p2 & -> & Hp2).
      rewrite snap_idempotent. eauto.
    - eauto. }
  destruct Hmark as (p2 & -> & Hp2).
  destruct (run_csi_collect ps p2 t [] private Hp2 Hps) as (p3 & -> & Hp3).
  cbn [fold_left app] in *.
  exact (step_csi_dispatch p3 (snap_to_live t) ps private final Hp3 Hf).
Qed.

Lemma run_csi p t private ps final :
  parse_state p = STATE_NORMAL →
  forallb is_param_byte ps = true → is_final_byte final = true →
  ∃ p', fold_left ozterm_put_character (csi_sequence private ps final) (p, t)
        = (p', snap_to_live (csi_dispatch (snap_to_live t) (take 31 ps) private final)) ∧
        parse_state p' = STATE_NORMAL.
Proof.
  intros Hp Hps Hf.
  destruct (run_csi_buffer p t private ps final Hp Hps Hf) as (p' & Hrun & Hp' & _).
  eauto.
Qed.

End CsiRun.

Lemma forallb_take {A} (f : A → bool) n : ∀ l,
  forallb f l = true → forallb f (take n l) = true.
Proof.
  induction n as [|n IH]; intros [|x l] Hl; try reflexivity.
  simpl in *. apply andb_true_iff in Hl as [Hx Hl]. rewrite Hx. apply IH. exact Hl.
Qed.

Section Sequences2.
Context `{OztermHeader}.

(** X6: of the parameter bytes of a control sequence the parser keeps the
    first 31 and drops the rest.  After a whole sequence, whatever the
    number of its parameter bytes, the parameter buffer holds exactly the
    first 31 of them, the terminal is the one the final byte gives for
    these 31 bytes, with the view on the live screen, and the parser is
    between two sequences; so a sequence and the same sequence with its
    parameter string cut after 31 bytes leave the same terminal. *)
Theorem csi_parameters_cut_at_31 p t private ps final :
  parse_state p = STATE_NORMAL →
  forallb is_param_byte ps = true → is_final_byte final = true →
  (∃ p', fold_left ozterm_put_character (csi_sequence private ps final) (p, t)
         = (p', snap_to_live (csi_dispatch (snap_to_live t) (take 31 ps) private final)) ∧
         param_buf p' = take 31 ps ∧
         parse_state p' = STATE_NORMAL) ∧
  snd (fold_left ozterm_put_character (csi_sequence private ps final) (p, t))
  = snd (fold_left ozterm_put_character (csi_sequence private (take 31 ps) final) (p, t)).
Proof.
  intros Hp Hps Hf.
  destruct (run_csi_buffer p t private ps final Hp Hps Hf) as (p1 & Hrun & Hp1 & Hbuf).
  split; [exists p1; auto|].
  rewrite Hrun.
  pose proof (forallb_take is_param_byte 31 ps Hps) as Hcut.
  destruct (run_csi p t private (take 31 ps) final Hp Hcut Hf) as (p2 & -> & _).
  cbn [snd]. rewrite take_take. reflexivity.
Qed.

Lemma step_osc p t c :
  parse_state p = STATE_OSC → c ≠ BEL → c ≠ ESC →
  ∃ p', ozterm_put_character (p, t) c = (p', snap_to_live t) ∧ parse_state p' = STATE_OSC.
Proof.
  intros Hp Hbel Hesc. unfold ozterm_put_character. rewrite Hp. unfold parse_osc.
  rewrite (proj2 (Z.eqb_neq _ _) Hbel), (proj2 (Z.eqb_neq _ _) Hesc).
  destruct (osc_index p <? 63); eexists; (split; [reflexivity | exact Hp]).
Qed.

Lemma run_osc_payload payload : ∀ p t,
  parse_state p = STATE_OSC → Forall (fun c => c ≠ BEL ∧ c ≠ ESC) payload →
  ∃ p', fold_left ozterm_put_character payload (p, snap_to_live t) = (p', snap_to_live t) ∧
        parse_state p' = STATE_OSC.
Proof.
  induction payload as [|c payload IH]; intros p t Hp Hall; cbn [fold_left].
  - eauto.
  - inversion Hall as [|? ? [Hbel Hesc] Hrest]; subst.
    destruct (step_osc p (snap_to_live t) c Hp Hbel Hesc) as (p' & -> & Hp').
    rewrite snap_idempotent. apply IH; assumption.
Qed.

(** X7: an operating-system command is swallowed whole.  Whatever its
    payload (without BEL and ESC) and whichever terminator ends it, BEL or
    ESC \, the terminal is left as it was, apart from the view returning to
    the live screen, and the parser is between two sequences again. *)
Theorem osc_is_swallowed p t payload terminator :
  parse_state p = STATE_NORMAL →
  Forall (fun c => c ≠ BEL ∧ c ≠ ESC) payload →
  terminator = [BEL] ∨ terminator = ST →
  ∃ p', fold_left ozterm_put_character (osc_sequence payload terminator) (p, t)
        = (p', snap_to_live t) ∧
        parse_state p' = STATE_NORMAL.
Proof.
  intros Hp Hall Hterm. unfold osc_sequence. rewrite !fold_left_app.
  assert (Hopen : ∃ p1, fold_left ozterm_put_character [ESC; ch "]"] (p, t)
                        = (p1, snap_to_live t) ∧ parse_state p1 = STATE_OSC).
  { destruct p. simpl in Hp. subst. eexists.
    split; [rewrite <- (snap_idempotent t); reflexivity | reflexivity]. }
  destruct Hopen as (p1 & -> & Hp1).
  destruct (run_osc_payload payload p1 t Hp1 Hall) as (p2 & -> & Hp2).
  destruct p2 as [s2 ? ? ? ? ? ? ? ?]. simpl in Hp2. subst s2.
  destruct Hterm as [-> | ->]; eexists.
  - split.
    + cbn [fold_left]. rewrite <- (snap_idempotent t) at 2. reflexivity.
    + reflexivity.
  - split.
    + cbn [fold_left ST]. rewrite <- (snap_idempotent t) at 2.
      rewrite <- (snap_idempotent (snap_to_live t)). reflexivity.
    + reflexivity.
Qed.

End Sequences2.

Lemma csi_parameters_cut_at_31_witness :
  snd (fold_left (@ozterm_put_character sample_header)
         (csi_sequence false (replicate 32 (ch "1")) (ch "H")) cursor_at_1_2)
  = snd (fold_left (@ozterm_put_character sample_header)
           (csi_sequence false (replicate 31 (ch "1")) (ch "H")) cursor_at_1_2).
Proof.
  exact (proj2 (@csi_parameters_cut_at_31 sample_header (fst cursor_at_1_2)
                  (snd cursor_at_1_2) false (replicate 32 (ch "1")) (ch "H")
                  eq_refl eq_refl eq_refl)).
Defined.

Lemma osc_is_swallowed_witness :
  ∃ p', fold_left (@ozterm_put_character sample_header)
          (osc_sequence (bytes "0;title") ST) cursor_at_1_2
        = (p', snap_to_live (snd cursor_at_1_2)) ∧
        parse_state p' = STATE_NORMAL.
Proof.
  apply (@osc_is_swallowed sample_header (fst cursor_at_1_2) (snd cursor_at_1_2)
           (bytes "0;title") ST eq_refl).
  - repeat constructor; discriminate.
  - right. reflexivity.
Defined.

(** ** Numbers in parameter strings *)

Lemma strtol_digits_all ds : ∀ acc,
  forallb isdigit ds = true →
  strtol_digits ds acc = (fold_left (fun acc d => acc * 10 + (d - 48)) ds acc, []).
Proof.
  induction ds as [|d ds IH]; intros acc Hds; simpl in *; [reflexivity|].
  apply andb_true_iff in Hds as [Hd Hds]. rewrite Hd. apply IH. exact Hds.
Qed.

Lemma atoi_digits ds :
  ds ≠ [] → forallb isdigit ds = true → 0 ≤ decimal_value ds ≤ 2147483647 →
  atoi ds = decimal_value ds.
Proof.
  intros Hne Hds Hv. destruct ds as [|d ds]; [congruence|].
  pose proof Hds as Hall. simpl in Hds. apply andb_true_iff in Hds as [Hd _].
  assert (Hrange : 48 ≤ d ≤ 57) by (unfold isdigit in Hd; lia).
  unfold atoi, strtol.
  assert (Hsp : skip_spaces (d :: ds) = d :: ds).
  { simpl. unfold isspace.
    destruct (Z.eqb_spec d 32); [lia|].
    destruct (Z.leb_spec 9 d); destruct (Z.leb_spec d 13); try lia; reflexivity. }
  rewrite Hsp. change (ch "-") with 45. change (ch "+") with 43.
  destruct (Z.eqb_spec d 45); [lia|]. destruct (Z.eqb_spec d 43); [lia|].
  rewrite Hd. rewrite (strtol_digits_all (d :: ds) 0 Hall).
  fold (decimal_value (d :: ds)). cbn [fst].
  unfold LONG_MIN, LONG_MAX, to_int32.
  rewrite Z.min_r by lia. rewrite Z.max_r by lia.
  rewrite Z.mod_small by lia. lia.
Qed.

Lemma atoi_fmt_d n : 0 ≤ n ≤ 2147483647 → atoi (fmt_d n) = n.
Proof.
  intros Hn. destruct (fmt_d_decimal n ltac:(lia)) as [Hds Hv].
  apply atoi_digits in Hds; [congruence | | lia].
  intros Hnil. rewrite Hnil in Hv. cbn in Hv. subst n. discriminate Hnil.
Qed.

Lemma strchr_digits pre post :
  forallb isdigit pre = true →
  strchr (pre ++ [ch ";"] ++ post) (ch ";") = Some (pre, post).
Proof.
  induction pre as [|d pre IH]; intros Hpre; simpl in *; [reflexivity|].
  apply andb_true_iff in Hpre as [Hd Hpre].
  change (ch ";") with 59 in *.
  destruct (Z.eqb_spec d 59) as [->|_]; [discriminate Hd|].
  rewrite (IH Hpre). reflexivity.
Qed.

Lemma csi_params_pair a b :
  0 ≤ a ≤ 2147483647 → 0 ≤ b ≤ 2147483647 →
  csi_params (fmt_d a ++ [ch ";"] ++ fmt_d b) = (a, b).
Proof.
  intros Ha Hb. unfold csi_params.
  rewrite strchr_digits by (apply fmt_d_decimal; lia).
  rewrite !atoi_fmt_d by lia. reflexivity.
Qed.

Lemma is_param_byte_digits ds : forallb isdigit ds = true → forallb is_param_byte ds = true.
Proof.
  induction ds as [|d ds IH]; simpl; [reflexivity|]. intros Hds.
  apply andb_true_iff in Hds as [Hd Hds]. unfold is_param_byte at 1. rewrite Hd. simpl.
  apply IH. exact Hds.
Qed.

Lemma param_pair_bytes a b :
  0 ≤ a ≤ 2147483647 → 0 ≤ b ≤ 2147483647 →
  forallb is_param_byte (fmt_d a ++ [ch ";"] ++ fmt_d b) = true ∧
  take 31 (fmt_d a ++ [ch ";"] ++ fmt_d b) = fmt_d a ++ [ch ";"] ++ fmt_d b.
Proof.
  intros Ha Hb. split.
  - rewrite !forallb_app.
    rewrite (is_param_byte_digits (fmt_d a)) by (apply fmt_d_decimal; lia).
    rewrite (is_param_byte_digits (fmt_d b)) by (apply fmt_d_decimal; lia).
    reflexivity.
  - apply take_ge. rewrite !length_app. pose proof (length_fmt_d a). pose proof (length_fmt_d b).
    simpl. lia.
Qed.

Section Positioning.
Context `{OztermHeader}.

Lemma csi_dispatch_cup t param private final p1 p2 :
  csi_params param = (p1, p2) → final = ch "H" ∨ final = ch "f" →
  csi_dispatch t param private final
  = ozterm_move_cursor t (if p1 >? 0 then p1 - 1 else 0) (if p2 >? 0 then p2 - 1 else 0).
Proof.
  intros Hp [-> | ->]; unfold csi_dispatch; rewrite Hp; reflexivity.
Qed.

(** X8: the sequence ESC [ r+1 ; c+1 H (or f), with the two numbers in
    decimal, puts the cursor on row r and column c of the grid and leaves
    the cells of the screen as they are. *)
Theorem cursor_position_sets_cursor p t r c final :
  parse_state p = STATE_NORMAL →
  final = ch "H" ∨ final = ch "f" →
  0 ≤ r < row_count t → row_count t ≤ 32767 →
  0 ≤ c < column_count t → column_count t ≤ 32767 →
  let t' := snd (fold_left ozterm_put_character
                   (csi_sequence false (fmt_d (r + 1) ++ [ch ";"] ++ fmt_d (c + 1)) final)
                   (p, t)) in
  cursor_row (active t') = r ∧ cursor_column (active t') = c ∧
  buffer (active t') = buffer (active t).
Proof.
  intros Hp Hfinal Hr Hrows Hc Hcols t'.
  assert (Hr1 : 0 ≤ r + 1 ≤ 2147483647) by lia.
  assert (Hc1 : 0 ≤ c + 1 ≤ 2147483647) by lia.
  destruct (param_pair_bytes (r + 1) (c + 1) Hr1 Hc1) as [Hbytes Htake].
  assert (Hf : is_final_byte final = true) by (destruct Hfinal as [-> | ->]; reflexivity).
  destruct (run_csi p t false _ final Hp Hbytes Hf) as (p' & Hrun & _).
  subst t'. rewrite Hrun. cbn [snd]. rewrite Htake.
  rewrite (csi_dispatch_cup _ _ _ _ (r + 1) (c + 1)
             (csi_params_pair _ _ Hr1 Hc1) Hfinal).
  rewrite active_snap.
  rewrite cursor_row_move_cursor, cursor_column_move_cursor, buffer_move_cursor.
  rewrite active_snap, row_count_snap, column_count_snap.
  destruct (Z.gtb_spec (r + 1) 0); [|lia]. destruct (Z.gtb_spec (c + 1) 0); [|lia].
  rewrite !clamp16_in_grid by lia. repeat split; lia.
Qed.

End Positioning.

Lemma cursor_position_sets_cursor_witness :
  let t' := snd (fold_left (@ozterm_put_character sample_header)
                   (csi_sequence false (fmt_d (2 + 1) ++ [ch ";"] ++ fmt_d (3 + 1)) (ch "H"))
                   (fst cursor_at_1_2, snd cursor_at_1_2)) in
  cursor_row (active t') = 2 ∧ cursor_column (active t') = 3 ∧
  buffer (active t') = buffer (active (snd cursor_at_1_2)).
Proof.
  apply (@cursor_position_sets_cursor sample_header (fst cursor_at_1_2) (snd cursor_at_1_2)
           2 3 (ch "H") eq_refl (or_introl eq_refl));
    change (row_count (snd cursor_at_1_2)) with 3;
    change (column_count (snd cursor_at_1_2)) with 4; lia.
Defined.

(** ** The main screen while the alternate screen is active *)

Section Parked.
Context `{OztermHeader}.
Variable m : OztermScreen.

Abbreviation Parked := (main_parked m).

Lemma parked_set_active s t : Parked t → Parked (set_active s t).
Proof.
  intros [Ha Hm]. unfold main_parked, set_active. cbn [screen_active screen_main].
  rewrite Ha. split; [reflexivity | exact Hm].
Qed.

Lemma parked_region p1 p2 t : Parked t → Parked (csi_r t p1 p2).
Proof. intros Ht. unfold csi_r. destruct (_ && _); exact Ht. Qed.

Lemma parked_alt t : Parked t → Parked (set_screen_active AlternativeScreen true t).
Proof. intros [_ Hm]. split; [reflexivity | exact Hm]. Qed.

Lemma parse_csi_l p t :
  snd (parse_csi p t (ch "l"))
  = if is_private p && streq (param_buf p) (bytes "1049")
    then ozterm_restore_main_screen t else t.
Proof.
  unfold parse_csi. destruct (seq_len p <? 63); cbn [snd param_buf is_private];
    unfold csi_dispatch; destruct (csi_params (param_buf p)); reflexivity.
Qed.

Lemma parked_put_character p t c :
  Parked t →
  is_alternative (screen_active (snd (ozterm_put_character (p, t) c))) = true →
  Parked (snd (ozterm_put_character (p, t) c)).
Proof.
  intros Ht Halt.
  destruct (Z.eq_dec c (ch "l")) as [->|Hne].
  - destruct (parse_state p) eqn:Hp.
    3:{ revert Halt. unfold ozterm_put_character. rewrite Hp.
        pose proof (parse_csi_l p t) as Hl.
        destruct (parse_csi p t (ch "l")) as [p' t']. cbn [snd] in *. subst t'.
        destruct (_ && _); [discriminate|]. intros _.
        destruct Ht as [Ha Hm]. split; assumption. }
    all: apply (frame_put_character_outside_csi Parked (fun b t _ => parked_set_active _ t)
             (fun r t => parked_set_active _ t) (fun c t => parked_set_active _ t)
             (fun _ _ Ht => Ht) (fun _ _ _ Ht => Ht)
             (fun _ Ht => Ht) (fun _ Ht => Ht)); [rewrite Hp; discriminate | exact Ht].
  - apply (frame_put_character Parked (fun b t _ => parked_set_active _ t)
             (fun r t => parked_set_active _ t) (fun c t => parked_set_active _ t)
             (fun b t => parked_set_active _ t) (fun _ _ Ht => Ht) (fun _ _ _ Ht => Ht)
             parked_region parked_alt (fun _ Ht => Ht) (fun _ Ht => Ht));
      [intros Hc; contradiction | exact Ht].
Qed.

Lemma parked_run data : ∀ p t,
  Parked t → stays_on_alt (p, t) data = true →
  Parked (snd (fold_left ozterm_put_character data (p, t))).
Proof.
  induction data as [|c data IH]; intros p t Ht Hstay; cbn [fold_left]; [exact Ht|].
  cbn [stays_on_alt] in Hstay. apply andb_true_iff in Hstay as [Halt Hstay].
  pose proof (parked_put_character p t c Ht Halt) as Hstep.
  destruct (ozterm_put_character (p, t) c) as [p' t'].
  apply IH; assumption.
Qed.

End Parked.



(** ** Keys *)

Ltac split_labels Hnd :=
  unfold key_labels in Hnd;
  repeat match type of Hnd with
         | NoDup (_ :: _) => apply NoDup_cons in Hnd as [? Hnd]
         end;
  repeat match goal with
         | Hx : _ ∉ _ :: _ |- _ => apply not_elem_of_cons in Hx as [? Hx]
         end.

Ltac decide_labels :=
  repeat match goal with
         | |- context [?a =? ?b] =>
             first [ rewrite (Z.eqb_refl a)
                   | rewrite (proj2 (Z.eqb_neq a b)) by congruence ]
         end.

Section KeyProps2.
Context `{OztermHeader}.

Lemma mod_value_of_cases modifier : In (mod_value_of modifier) [1; 2; 3; 4; 5; 6; 7; 8].
Proof. rewrite mod_value_of_spec. apply spec_mod_value_cases. Qed.

Lemma encode_key_size modifier key :
  ∃ seq n, encode_key modifier key = (seq, n) ∧ 1 ≤ n ≤ 8 ∧
           Z.of_nat (length (take (Z.to_nat n) seq)) = n.
Proof.
  pose proof (mod_value_of_cases modifier) as Hmv. simpl in Hmv.
  unfold encode_key.
  repeat (destruct Hmv as [Hmv|Hmv]; [|]); try contradiction; rewrite <- Hmv; clear Hmv;
    repeat match goal with
           | |- context [key =? ?b] => destruct (key =? b); cbn [orb]
           end;
    (do 2 eexists; split; [reflexivity|]; split; [lazy -[Z.le]; lia | reflexivity]).
Qed.

(** X10: whatever the key and the modifier mask, ozterm_send_key hands
    the host one message of one to eight bytes when write_to_master is
    installed, makes no call otherwise, and leaves the rest of the terminal
    as it is. *)
Theorem send_key_sends_one_message t modifier key :
  ∃ data, 1 ≤ Z.of_nat (length data) ≤ 8 ∧
    ozterm_send_key t modifier key
    = call_host (write_to_master_function t) (WriteToMaster data) t.
Proof.
  destruct (encode_key_size modifier key) as (seq & n & Henc & Hn & Hlen).
  exists (take (Z.to_nat n) seq). split; [lia|].
  unfold ozterm_send_key. rewrite Henc.
  destruct (Z.gtb_spec n 0); [|lia]. rewrite andb_true_r. reflexivity.
Qed.

Lemma write_csi_sequence_function code final mv :
  In code [15; 17; 18; 19; 20; 21; 23; 24] → In mv [1; 2; 3; 4; 5; 6; 7; 8] →
  let '(text, n) := write_csi_sequence 16 code final mv in
  take (Z.to_nat n) (seq16 text) = spec_key_sequence code final mv ∧ (n >? 0) = true.
Proof.
  intros Hcode Hmv. simpl in Hcode, Hmv.
  repeat (destruct Hcode as [<-|Hcode]; [|]); try contradiction;
  repeat (destruct Hmv as [<-|Hmv]; [|]); try contradiction;
  (split; reflexivity).
Qed.

(** X11: for every modifier mask and every function key from F5 to F12,
    with the case labels distinct and write_to_master installed,
    ozterm_send_key hands the host ESC [ code ~ when no modifier is held
    and ESC [ code ; mod_value ~ otherwise, with the codes 15, 17, 18, 19,
    20, 21, 23 and 24. *)
Theorem send_key_function t modifier key code :
  NoDup key_labels →
  In (key, code) function_keys →
  write_to_master_function t = true →
  host_calls (ozterm_send_key t modifier key)
  = host_calls t ++ [WriteToMaster (spec_key_sequence code (ch "~") (spec_mod_value modifier))].
Proof.
  intros Hnd Hin Hw.
  assert (Henc : encode_key modifier key
                 = (let '(text, n) := write_csi_sequence 16 code (ch "~") (mod_value_of modifier)
                    in (seq16 text, n))).
  { split_labels Hnd. unfold function_keys in Hin. simpl in Hin. unfold encode_key.
    repeat (destruct Hin as [Heq|Hin];
            [injection Heq as <- <-; decide_labels; reflexivity |]).
    contradiction. }
  unfold ozterm_send_key. rewrite Henc, mod_value_of_spec.
  pose proof (write_csi_sequence_function code (ch "~") (spec_mod_value modifier)) as Hseq.
  destruct (write_csi_sequence 16 code (ch "~") (spec_mod_value modifier)) as [text n].
  destruct Hseq as [Htext Hn].
  - unfold function_keys in Hin. simpl in Hin.
    repeat (destruct Hin as [Heq|Hin]; [injection Heq as <- <-; simpl; tauto|]).
    contradiction.
  - apply spec_mod_value_cases.
  - unfold call_host. cbn [host_calls set_host_calls]. rewrite Hw, Hn, Htext. reflexivity.
Qed.

(** X12: RETURN, BACKSPACE, ESCAPE and TAB send the single byte 13, 127,
    27 and 9, whatever the modifier mask. *)
Theorem send_key_control t modifier key byte :
  NoDup key_labels →
  In (key, byte) control_keys →
  write_to_master_function t = true →
  host_calls (ozterm_send_key t modifier key) = host_calls t ++ [WriteToMaster [byte]].
Proof.
  intros Hnd Hin Hw.
  assert (Henc : encode_key modifier key = (seq16 [byte], 1)).
  { split_labels Hnd. unfold control_keys in Hin. simpl in Hin. unfold encode_key.
    repeat (destruct Hin as [Heq|Hin];
            [injection Heq as <- <-; decide_labels; reflexivity |]).
    contradiction. }
  unfold ozterm_send_key. rewrite Henc.
  unfold call_host. cbn [host_calls set_host_calls]. rewrite Hw. reflexivity.
Qed.

Lemma encode_other_key modifier key :
  key ∉ key_labels →
  encode_key modifier key
  = (seq16 [if (modifier =? OZTERM_KEYM_CTRL) && isgraph key
            then to_uint8 (C (toupper key)) else key], 1).
Proof.
  intros Hkey. unfold key_labels in Hkey.
  repeat match goal with
         | Hx : _ ∉ _ :: _ |- _ => apply not_elem_of_cons in Hx as [? Hx]
         end.
  unfold encode_key. decide_labels. reflexivity.
Qed.

(** X13: a key that is none of the named keys is sent as its own byte,
    except with the modifier mask equal to CTRL: then a letter, upper or
    lower case, is sent as the control code 1 to 26 of its upper-case
    form. *)
Theorem send_key_other t modifier key :
  key ∉ key_labels →
  write_to_master_function t = true →
  (modifier ≠ OZTERM_KEYM_CTRL →
   host_calls (ozterm_send_key t modifier key) = host_calls t ++ [WriteToMaster [key]]) ∧
  (is_letter key = true →
   host_calls (ozterm_send_key t OZTERM_KEYM_CTRL key)
   = host_calls t ++ [WriteToMaster [toupper key - 64]] ∧
   1 ≤ toupper key - 64 ≤ 26).
Proof.
  intros Hkey Hw. split.
  - intros Hmod. unfold ozterm_send_key. rewrite (encode_other_key _ _ Hkey).
    rewrite (proj2 (Z.eqb_neq _ _) Hmod).
    unfold call_host. cbn [host_calls set_host_calls andb]. rewrite Hw. reflexivity.
  - intros Hletter. unfold ozterm_send_key. rewrite (encode_other_key _ _ Hkey).
    rewrite Z.eqb_refl.
    assert (Hup : 1 ≤ toupper key - 64 ≤ 26 ∧ isgraph key = true).
    { unfold is_letter in Hletter. unfold toupper, isgraph.
      destruct (Z.leb_spec 97 key); destruct (Z.leb_spec key 122);
        destruct (Z.leb_spec 65 key); destruct (Z.leb_spec key 90);
        destruct (Z.leb_spec 33 key); destruct (Z.leb_spec key 126);
        cbn [andb orb] in *; try discriminate; try lia; split; (lia || reflexivity). }
    destruct Hup as [Hrange ->]. cbn [andb].
    unfold to_uint8, C. change (ch "@") with 64. rewrite Z.mod_small by lia.
    unfold call_host. cbn [host_calls set_host_calls]. rewrite Hw.
    split; [reflexivity | exact Hrange].
Qed.

End KeyProps2.

Lemma send_key_function_witness :
  host_calls (@ozterm_send_key sample_header (snd (fresh 3 4)) 8 (@OZTERM_KEY_F5 sample_header))
  = host_calls (snd (fresh 3 4)) ++ [WriteToMaster ([ESC] ++ bytes "[15;3~")].
Proof.
  assert (Hnd : NoDup (@key_labels sample_header)).
  { apply (bool_decide_unpack (NoDup (@key_labels sample_header))). vm_compute. exact I. }
  assert (Hin : In (@OZTERM_KEY_F5 sample_header, 15) (@function_keys sample_header)).
  { simpl. tauto. }
  exact (@send_key_function sample_header (snd (fresh 3 4)) 8 _ 15 Hnd Hin eq_refl).
Defined.

Lemma send_key_control_witness :
  host_calls (@ozterm_send_key sample_header (snd (fresh 3 4)) 4
                (@OZTERM_KEY_BACKSPACE sample_header))
  = host_calls (snd (fresh 3 4)) ++ [WriteToMaster [127]].
Proof.
  assert (Hnd : NoDup (@key_labels sample_header)).
  { apply (bool_decide_unpack (NoDup (@key_labels sample_header))). vm_compute. exact I. }
  assert (Hin : In (@OZTERM_KEY_BACKSPACE sample_header, 127) (@control_keys sample_header)).
  { simpl. tauto. }
  exact (@send_key_control sample_header (snd (fresh 3 4)) 4 _ 127 Hnd Hin eq_refl).
Defined.

Lemma send_key_other_witness :
  host_calls (@ozterm_send_key sample_header (snd (fresh 3 4))
                (@OZTERM_KEYM_CTRL sample_header) (ch "c"))
  = host_calls (snd (fresh 3 4)) ++ [WriteToMaster [3]].
Proof.
  assert (Hkey : ch "c" ∉ @key_labels sample_header).
  { apply (bool_decide_unpack (ch "c" ∉ @key_labels sample_header)). vm_compute. exact I. }
  exact (proj1 (proj2 (@send_key_other sample_header (snd (fresh 3 4)) 0 (ch "c") Hkey eq_refl)
                  eq_refl)).
Defined.

(** ** The terminal reads its own arrow keys *)

Lemma clamp16_step limit v :
  1 ≤ limit ≤ 32767 → -1 ≤ v ≤ limit →
  clamp16 limit v = Z.max 0 (Z.min (limit - 1) v).
Proof.
  intros Hl Hv. unfold clamp16. rewrite to_int16_id by lia.
  destruct (Z.geb_spec v limit).
  - rewrite to_int16_id by lia. destruct (Z.ltb_spec (limit - 1) 0); lia.
  - destruct (Z.ltb_spec v 0); lia.
Qed.

Section ArrowEcho.
Context `{OztermHeader}.

Lemma key_message_arrow modifier key final step :
  NoDup key_labels →
  In (key, final, step) arrow_keys →
  key_message modifier key = spec_key_sequence 1 final (spec_mod_value modifier).
Proof.
  intros Hnd Hin.
  assert (Hnav : In (key, 1, final) navigation_keys).
  { unfold arrow_keys in Hin. simpl in Hin. unfold navigation_keys. simpl.
    repeat (destruct Hin as [Heq|Hin]; [injection Heq as <- <- _; tauto|]).
    contradiction. }
  unfold key_message.
  rewrite (encode_navigation_key modifier key 1 final Hnd Hnav), mod_value_of_spec.
  pose proof (write_csi_sequence_spec 1 final (spec_mod_value modifier)) as Hseq.
  destruct (write_csi_sequence 16 1 final (spec_mod_value modifier)) as [text n].
  destruct Hseq as [Htext _]; [simpl; tauto | apply spec_mod_value_cases | exact Htext].
Qed.

Lemma arrow_sequence final mv :
  In mv [1; 2; 3; 4; 5; 6; 7; 8] →
  ∃ ps, spec_key_sequence 1 final mv = csi_sequence false ps final ∧
        forallb is_param_byte ps = true ∧ take 31 ps = ps ∧ fst (csi_params ps) = 1.
Proof.
  intros Hmv. simpl in Hmv.
  repeat (destruct Hmv as [<-|Hmv]; [|]); try contradiction.
  - exists []. repeat split.
  - exists (bytes "1;2"). repeat split.
  - exists (bytes "1;3"). repeat split.
  - exists (bytes "1;4"). repeat split.
  - exists (bytes "1;5"). repeat split.
  - exists (bytes "1;6"). repeat split.
  - exists (bytes "1;7"). repeat split.
  - exists (bytes "1;8"). repeat split.
Qed.

Lemma csi_dispatch_arrow t ps private key final dr dc :
  In (key, final, (dr, dc)) arrow_keys → fst (csi_params ps) = 1 →
  csi_dispatch t ps private final = ozterm_move_cursor_diff t dr dc.
Proof.
  intros Hin Hps. unfold csi_dispatch. destruct (csi_params ps) as [p1 p2].
  cbn [fst] in Hps. subst p1.
  unfold arrow_keys in Hin. simpl in Hin.
  repeat (destruct Hin as [Heq|Hin]; [injection Heq as _ <- <- <-; reflexivity|]).
  contradiction.
Qed.

(** X14: the terminal reads its own arrow keys.  The bytes ozterm_send_key
    hands the host for UP, DOWN, RIGHT or LEFT, with any modifier mask,
    move the cursor by one cell in that direction when they are fed back
    to the terminal, stopping at the edge of the grid, and leave the cells
    as they are. *)
Theorem arrow_key_echo p t modifier key final dr dc :
  NoDup key_labels →
  In (key, final, (dr, dc)) arrow_keys →
  parse_state p = STATE_NORMAL →
  cursor_in_grid t →
  let t' := snd (fold_left ozterm_put_character (key_message modifier key) (p, t)) in
  cursor_row (active t') = Z.max 0 (Z.min (row_count t - 1) (cursor_row (active t) + dr)) ∧
  cursor_column (active t')
  = Z.max 0 (Z.min (column_count t - 1) (cursor_column (active t) + dc)) ∧
  buffer (active t') = buffer (active t).
Proof.
  intros Hnd Hin Hp (Hr & Hc & Hrows & Hcols) t'. subst t'.
  rewrite (key_message_arrow modifier key final (dr, dc) Hnd Hin).
  destruct (arrow_sequence final (spec_mod_value modifier) (spec_mod_value_cases modifier))
    as (ps & -> & Hps & Htake & Hp1).
  assert (Hf : is_final_byte final = true).
  { unfold arrow_keys in Hin. simpl in Hin.
    repeat (destruct Hin as [Heq|Hin]; [injection Heq as _ <- _ _; reflexivity|]).
    contradiction. }
  destruct (run_csi p t false ps final Hp Hps Hf) as (p' & -> & _).
  cbn [snd]. rewrite Htake.
  rewrite (csi_dispatch_arrow _ ps false key final dr dc Hin Hp1).
  assert (Hstep : (dr = -1 ∨ dr = 0 ∨ dr = 1) ∧ (dc = -1 ∨ dc = 0 ∨ dc = 1)).
  { unfold arrow_keys in Hin. simpl in Hin.
    repeat (destruct Hin as [Heq|Hin]; [injection Heq as _ _ <- <-; lia|]).
    contradiction. }
  rewrite active_snap. unfold ozterm_move_cursor_diff. cbv zeta.
  rewrite cursor_row_move_cursor, cursor_column_move_cursor, buffer_move_cursor.
  autorewrite with snap.
  rewrite (to_int16_id dr), (to_int16_id dc) by lia.
  rewrite !clamp16_step by lia. repeat split; reflexivity.
Qed.

End ArrowEcho.

Lemma arrow_key_echo_witness :
  let t' := snd (fold_left (@ozterm_put_character sample_header)
                   (@key_message sample_header 5 (@OZTERM_KEY_UP sample_header))
                   (fst cursor_at_1_2, snd cursor_at_1_2)) in
  cursor_row (active t')
  = Z.max 0 (Z.min (row_count (snd cursor_at_1_2) - 1)
               (cursor_row (active (snd cursor_at_1_2)) + -1)) ∧
  cursor_column (active t')
  = Z.max 0 (Z.min (column_count (snd cursor_at_1_2) - 1)
               (cursor_column (active (snd cursor_at_1_2)) + 0)) ∧
  buffer (active t') = buffer (active (snd cursor_at_1_2)).
Proof.
  assert (Hnd : NoDup (@key_labels sample_header)).
  { apply (bool_decide_unpack (NoDup (@key_labels sample_header))). vm_compute. exact I. }
  assert (Hin : In (@OZTERM_KEY_UP sample_header, ch "A", (-1, 0))
                  (@arrow_keys sample_header)).
  { simpl. tauto. }
  assert (Hg : cursor_in_grid (snd cursor_at_1_2)).
  { unfold cursor_in_grid.
    change (cursor_row (active (snd cursor_at_1_2))) with 1.
    change (cursor_column (active (snd cursor_at_1_2))) with 2.
    change (row_count (snd cursor_at_1_2)) with 3.
    change (column_count (snd cursor_at_1_2)) with 4. lia. }
  exact (@arrow_key_echo sample_header (fst cursor_at_1_2) (snd cursor_at_1_2) 5 _
           (ch "A") (-1) 0 Hnd Hin eq_refl Hg).
Defined.

(** ** Printable bytes and tabs *)

Section Typing.
Context `{OztermHeader}.

Lemma attr_protected_move_cursor t row column :
  attr_protected (active (ozterm_move_cursor t row column)) = attr_protected (active t).
Proof. unfold ozterm_move_cursor. cbv zeta. rewrite !active_set_active. reflexivity. Qed.

(** One printable byte with the cursor on the grid: the cell under the
    cursor is written and the cursor moves right, stopping at the last
    column. *)
Lemma put_graphic_spec t x :
  cursor_in_grid t →
  let r := cursor_row (active t) in
  let c := cursor_column (active t) in
  let t' := put_graphic_and_cursor t x in
  buffer (active t')
  = wr (buffer (active t)) (r * column_count t + c)
      (mkCell x (term_color t) (attr_protected (active t))) ∧
  cursor_row (active t') = r ∧
  cursor_column (active t') = Z.min (c + 1) (column_count t - 1) ∧
  attr_protected (active t') = attr_protected (active t) ∧
  row_count t' = row_count t ∧ column_count t' = column_count t ∧
  term_color t' = term_color t.
Proof.
  intros (Hr & Hc & Hrows & Hcols). cbv zeta.
  unfold put_graphic_and_cursor.
  destruct (Z.geb_spec (cursor_column (active t)) (column_count t)); [lia|].
  cbv zeta.
  rewrite cursor_row_move_cursor, cursor_column_move_cursor, buffer_move_cursor.
  rewrite active_call_host, buffer_set_active_buffer.
  split; [reflexivity|].
  change (row_count (call_host _ _ (set_active_buffer _ t))) with (row_count t).
  change (column_count (call_host _ _ (set_active_buffer _ t))) with (column_count t).
  rewrite clamp16_in_grid by lia.
  rewrite clamp16_step by lia.
  split; [reflexivity|]. split; [lia|].
  split; [|repeat split].
  rewrite attr_protected_move_cursor, active_call_host.
  unfold set_active_buffer. rewrite active_set_active. reflexivity.
Qed.

End Typing.

(** A run of printable bytes.  [W] is what follows each byte: nothing
    inside [ozterm_put_character_and_cursor], the return of the view to
    the live screen in [ozterm_put_character]. *)
Section TypedRun.
Context `{OztermHeader}.
Variable W : Ozterm → Ozterm.
Hypothesis W_active : ∀ t, active (W t) = active t.
Hypothesis W_rows : ∀ t, row_count (W t) = row_count t.
Hypothesis W_cols : ∀ t, column_count (W t) = column_count t.
Hypothesis W_color : ∀ t, term_color (W t) = term_color t.

Lemma typed_run t chars :
  grid_ok t → cursor_in_grid t →
  let r := cursor_row (active t) in
  let c := cursor_column (active t) in
  let cols := column_count t in
  let len := Z.of_nat (length chars) in
  let t' := fold_left (fun t x => W (put_graphic_and_cursor t x)) chars t in
  row_count t' = row_count t ∧ column_count t' = cols ∧ term_color t' = term_color t ∧
  attr_protected (active t') = attr_protected (active t) ∧
  cursor_row (active t') = r ∧
  cursor_column (active t') = Z.min (c + len) (cols - 1) ∧
  length (buffer (active t')) = length (buffer (active t)) ∧
  ∀ k, rd (buffer (active t')) k
       = if decide (r * cols + c ≤ k < r * cols + Z.min (c + len) cols)
         then mkCell (default 0 (chars !! Z.to_nat
                                   (if k - r * cols <? cols - 1
                                    then k - r * cols - c else len - 1)))
                (term_color t) (attr_protected (active t))
         else rd (buffer (active t)) k.
Proof.
  intros (Hrows0 & Hcols0 & Hlen) (Hr & Hc & Hrows & Hcols). cbv zeta.
  induction chars as [|x chars IH] using rev_ind.
  - cbn [fold_left length]. repeat split; try lia.
    intros k. destruct (decide _); [lia | reflexivity].
  - rewrite fold_left_app. cbn [fold_left].
    set (ti := fold_left (fun t x => W (put_graphic_and_cursor t x)) chars t) in *.
    destruct IH as (IHrows & IHcols & IHcolor & IHattr & IHr & IHc & IHlen & IHcells).
    assert (Hgrid : cursor_in_grid ti).
    { unfold cursor_in_grid. rewrite IHrows, IHcols, IHr, IHc. lia. }
    destruct (put_graphic_spec ti x Hgrid)
      as (Sbuf & Srow & Scol & Sattr & Srows & Scols & Scolor).
    rewrite W_active, W_rows, W_cols, W_color.
    rewrite Sbuf, Srow, Scol, Sattr, Srows, Scols, Scolor.
    rewrite IHrows, IHcols, IHcolor, IHattr, IHr, IHc.
    rewrite length_app, length_wr. cbn [length].
    set (n := Z.of_nat (length chars)) in *.
    replace (Z.of_nat (length chars + 1)) with (n + 1) by lia.
    repeat split; try lia.
    intros k.
    set (cu := Z.min (cursor_column (active t) + n) (column_count t - 1)).
    destruct (Z.eq_dec k (cursor_row (active t) * column_count t + cu)) as [->|Hk].
    + rewrite rd_wr_eq by (rewrite IHlen; subst cu; nia).
      destruct (decide _) as [_|Hout]; [|subst cu; lia].
      f_equal.
      replace (Z.to_nat _) with (length chars).
      * rewrite lookup_app_r by lia. rewrite Nat.sub_diag. reflexivity.
      * subst cu.
        destruct (Z.ltb_spec (cursor_row (active t) * column_count t
                              + Z.min (cursor_column (active t) + n) (column_count t - 1)
                              - cursor_row (active t) * column_count t)
                    (column_count t - 1)); lia.
    + rewrite rd_wr_ne by congruence. rewrite IHcells.
      destruct (decide _) as [Hin|Hout]; destruct (decide _) as [Hin'|Hout'];
        try reflexivity; try (subst cu; lia).
      f_equal.
      destruct (Z.ltb_spec (k - cursor_row (active t) * column_count t) (column_count t - 1)).
      * rewrite lookup_app_l by (subst cu; lia). reflexivity.
      * subst cu. lia.
Qed.

End TypedRun.

Lemma for_up_replicate {S : Type} (g : S → Z → S) x n s :
  for_up 0 n (fun _ s => g s x) s = fold_left g (replicate (Z.to_nat n) x) s.
Proof.
  unfold for_up. rewrite Z.sub_0_r.
  assert (Hgen : ∀ (l : list Z) s,
            fold_left (fun s _ => g s x) l s = fold_left g (replicate (length l) x) s).
  { induction l as [|i l IH]; intros s'; [reflexivity|]. cbn [fold_left length replicate].
    apply IH. }
  rewrite Hgen, length_seqZ. reflexivity.
Qed.

Section TypingTheorems.
Context `{OztermHeader}.

Lemma step_printable p t x :
  parse_state p = STATE_NORMAL → 32 ≤ x ≤ 126 →
  ozterm_put_character (p, t) x = (p, snap_to_live (put_graphic_and_cursor t x)).
Proof.
  intros Hp Hx. unfold ozterm_put_character. rewrite Hp. unfold parse_normal.
  unfold ESC, LF, CR, BS, TAB.
  destruct (Z.eqb_spec x 27); [lia|].
  destruct (Z.geb_spec x 32); [|lia]. destruct (Z.leb_spec x 126); [|lia].
  cbn [andb orb]. unfold ozterm_put_character_and_cursor.
  unfold LF, CR, BS, TAB.
  destruct (Z.eqb_spec x 10); [lia|]. destruct (Z.eqb_spec x 13); [lia|].
  destruct (Z.eqb_spec x 8); [lia|]. destruct (Z.eqb_spec x 9); [lia|].
  assert (Hg : isgraph x || isspace x = true).
  { unfold isgraph, isspace. destruct (Z.eqb_spec x 32) as [->|]; [reflexivity|].
    destruct (Z.leb_spec 33 x); [|lia]. destruct (Z.leb_spec x 126); [|lia]. reflexivity. }
  rewrite Hg. reflexivity.
Qed.

Lemma run_printable text : ∀ p t,
  parse_state p = STATE_NORMAL → Forall (fun x => 32 ≤ x ≤ 126) text →
  fold_left ozterm_put_character text (p, t)
  = (p, fold_left (fun t x => snap_to_live (put_graphic_and_cursor t x)) text t).
Proof.
  induction text as [|x text IH]; intros p t Hp Hall; cbn [fold_left]; [reflexivity|].
  inversion Hall; subst. rewrite step_printable by assumption. apply IH; assumption.
Qed.

(** X15: printable bytes that fit between the cursor and the end of its
    row are written from the cursor on, each with the colour of the
    terminal and the current protected attribute; ozterm_get_character
    reads them back, every other cell of the grid is as before, and the
    cursor ends after the last byte or on the last column. *)
Theorem printable_text_is_written p t text :
  parse_state p = STATE_NORMAL → grid_ok t → cursor_in_grid t →
  Forall (fun x => 32 ≤ x ≤ 126) text →
  cursor_column (active t) + Z.of_nat (length text) ≤ column_count t →
  let r := cursor_row (active t) in
  let c := cursor_column (active t) in
  let t' := snd (fold_left ozterm_put_character text (p, t)) in
  (∀ (i : nat) x, text !! i = Some x →
     cell_at t' r (c + Z.of_nat i) = mkCell x (term_color t) (attr_protected (active t)) ∧
     ozterm_get_character t' r (c + Z.of_nat i) = x) ∧
  (∀ r' c', 0 ≤ c' < column_count t →
     ¬ (r' = r ∧ c ≤ c' < c + Z.of_nat (length text)) →
     cell_at t' r' c' = cell_at t r' c') ∧
  cursor_row (active t') = r ∧
  cursor_column (active t') = Z.min (c + Z.of_nat (length text)) (column_count t - 1).
Proof.
  intros Hp Hgrid Hcur Hall Hfit r c t'.
  subst t'. rewrite (run_printable text p t Hp Hall). cbn [snd].
  destruct (typed_run snap_to_live active_snap row_count_snap column_count_snap
              term_color_snap t text Hgrid Hcur)
    as (Trows & Tcols & Tcolor & Tattr & Tr & Tc & Tlen & Tcells).
  set (t' := fold_left _ text t) in *.
  destruct Hcur as (Hr & Hc & Hrows & Hcols).
  fold r in Tr, Tcells, Hr. fold c in Tc, Tcells, Hc, Hfit.
  assert (Hcell : ∀ (i : nat) x, text !! i = Some x →
            rd (buffer (active t')) (r * column_count t + (c + Z.of_nat i))
            = mkCell x (term_color t) (attr_protected (active t))).
  { intros i x Hi. pose proof (lookup_lt_Some _ _ _ Hi) as Hlt.
    rewrite Tcells. destruct (decide _) as [_|Hout]; [|lia].
    replace (Z.to_nat _) with i; [rewrite Hi; reflexivity|].
    destruct (Z.ltb_spec (r * column_count t + (c + Z.of_nat i) - r * column_count t)
                (column_count t - 1)); lia. }
  split; [|split; [|split]].
  - intros i x Hi. pose proof (lookup_lt_Some _ _ _ Hi) as Hlt. split.
    + unfold cell_at. rewrite Tcols. apply Hcell. exact Hi.
    + unfold ozterm_get_character. rewrite Tcols.
      rewrite !to_int16_id by lia. rewrite (Hcell i x Hi). reflexivity.
  - intros r' c' Hc' Hout. unfold cell_at. rewrite Tcols, Tcells.
    destruct (decide _) as [Hin|_]; [|reflexivity].
    exfalso. apply Hout.
    assert (r' = r) by nia. subst r'. split; [reflexivity | lia].
  - exact Tr.
  - exact Tc.
Qed.

(** X16: a tab writes spaces from the cursor up to the next multiple of
    eight columns, or up to the end of the row, over whatever the cells
    hold, and leaves the cursor on that tab stop or on the last column;
    the other cells and the cursor row are as before. *)
Theorem tab_fills_to_next_stop t :
  grid_ok t → cursor_in_grid t →
  let r := cursor_row (active t) in
  let c := cursor_column (active t) in
  let stop := 8 * (c / 8 + 1) in
  let t' := ozterm_put_character_and_cursor t TAB in
  cursor_row (active t') = r ∧
  cursor_column (active t') = Z.min stop (column_count t - 1) ∧
  ∀ r' c', 0 ≤ c' < column_count t →
    cell_at t' r' c'
    = if decide (r' = r ∧ c ≤ c' < stop)
      then mkCell (ch " ") (term_color t) (attr_protected (active t))
      else cell_at t r' c'.
Proof.
  intros Hgrid Hcur r c stop t'.
  destruct Hcur as (Hr & Hc & Hrows & Hcols). fold r in Hr. fold c in Hc.
  assert (Hstop : stop - c = TAB_WIDTH - Z.rem c TAB_WIDTH ∧ c < stop ≤ c + 8).
  { unfold TAB_WIDTH, stop. rewrite Z.rem_mod_nonneg by lia.
    pose proof (Z.div_mod c 8 ltac:(lia)). pose proof (Z.mod_pos_bound c 8 ltac:(lia)). lia. }
  destruct Hstop as [Hspaces Hstop].
  assert (Hrun : t' = fold_left (fun t x => id (put_graphic_and_cursor t x))
                        (replicate (Z.to_nat (stop - c)) (ch " ")) t).
  { subst t'. unfold ozterm_put_character_and_cursor.
    change (TAB =? LF) with false. change (TAB =? CR) with false.
    change (TAB =? BS) with false. change (TAB =? TAB) with true.
    cbv zeta. fold c. rewrite <- Hspaces.
    apply (for_up_replicate (fun t x => put_graphic_and_cursor t x)). }
  destruct (typed_run id (fun _ => eq_refl) (fun _ => eq_refl) (fun _ => eq_refl)
              (fun _ => eq_refl) t (replicate (Z.to_nat (stop - c)) (ch " ")) Hgrid
              (conj Hr (conj Hc (conj Hrows Hcols))))
    as (Trows & Tcols & Tcolor & Tattr & Tr & Tc & Tlen & Tcells).
  rewrite <- Hrun in *. clear Hrun.
  rewrite length_replicate in Tc, Tcells.
  fold r in Tr, Tcells. fold c in Tc, Tcells.
  replace (c + Z.of_nat (Z.to_nat (stop - c))) with stop in Tc, Tcells by lia.
  split; [exact Tr|]. split; [exact Tc|].
  intros r' c' Hc'. unfold cell_at. rewrite Tcols, Tcells.
  destruct (decide (r * column_count t + c ≤ r' * column_count t + c'
                    < r * column_count t + Z.min stop (column_count t))) as [Hin|Hout];
    destruct (decide (r' = r ∧ c ≤ c' < stop)) as [Hin'|Hout']; try reflexivity.
  - f_equal. rewrite lookup_replicate_2; [reflexivity|]. destruct Hin' as [-> Hin'].
    destruct (Z.ltb_spec (r * column_count t + c' - r * column_count t) (column_count t - 1));
      lia.
  - exfalso. apply Hout'. assert (r' = r) by nia. subst r'. split; [reflexivity | lia].
  - exfalso. apply Hout. destruct Hin' as [-> Hin']. lia.
Qed.

End TypingTheorems.

Lemma cursor_at_1_2_on_grid : grid_ok (snd cursor_at_1_2) ∧ cursor_in_grid (snd cursor_at_1_2).
Proof.
  unfold grid_ok, cursor_in_grid.
  change (cursor_row (active (snd cursor_at_1_2))) with 1.
  change (cursor_column (active (snd cursor_at_1_2))) with 2.
  change (row_count (snd cursor_at_1_2)) with 3.
  change (column_count (snd cursor_at_1_2)) with 4.
  change (Z.of_nat (length (buffer (active (snd cursor_at_1_2))))) with 12. lia.
Defined.

Lemma printable_text_is_written_witness :
  ozterm_get_character
    (snd (fold_left (@ozterm_put_character sample_header) (bytes "hi")
            (fst cursor_at_1_2, snd cursor_at_1_2))) 1 3 = ch "i".
Proof.
  assert (Hall : Forall (fun x => 32 ≤ x ≤ 126) (bytes "hi")).
  { repeat constructor; vm_compute; discriminate. }
  assert (Hfit : cursor_column (active (snd cursor_at_1_2)) + Z.of_nat (length (bytes "hi"))
                 ≤ column_count (snd cursor_at_1_2)).
  { vm_compute. discriminate. }
  pose proof (@printable_text_is_written sample_header (fst cursor_at_1_2) (snd cursor_at_1_2)
                (bytes "hi") eq_refl (proj1 cursor_at_1_2_on_grid)
                (proj2 cursor_at_1_2_on_grid) Hall Hfit) as (Hcells & _).
  exact (proj2 (Hcells 1%nat (ch "i") eq_refl)).
Defined.

Lemma tab_fills_to_next_stop_witness :
  cursor_column (active (@ozterm_put_character_and_cursor sample_header (snd cursor_at_1_2) TAB))
  = 3.
Proof.
  pose proof (@tab_fills_to_next_stop sample_header (snd cursor_at_1_2)
                (proj1 cursor_at_1_2_on_grid) (proj2 cursor_at_1_2_on_grid))
    as (_ & Hcol & _).
  exact Hcol.
Defined.

(** ** Clearing and erasing *)

(** A loop over the cells [base + lo .. base + hi - 1] that rewrites the
    cell it visits with [F] and leaves the others. *)
Lemma sweep_range (body : Z → list OztermCell → list OztermCell)
    (F : OztermCell → OztermCell) base lo hi buf :
  lo ≤ hi →
  (∀ i b, lo ≤ i < hi → length b = length buf →
     length (body i b) = length buf ∧
     ∀ k, rd (body i b) k = if decide (k = base + i) then F (rd b k) else rd b k) →
  let out := for_up lo hi body buf in
  length out = length buf ∧
  ∀ k, rd out k = if decide (base + lo ≤ k < base + hi) then F (rd buf k) else rd buf k.
Proof.
  intros Hle Hstep out. unfold out.
  pose proof (for_up_inv
                (fun i b => length b = length buf ∧
                            ∀ k, rd b k = if decide (base + lo ≤ k < base + i)
                                          then F (rd buf k) else rd buf k)
                lo hi body buf) as Hinv.
  cbv beta in Hinv. rewrite Z.max_r in Hinv by lia. apply Hinv; clear Hinv.
  - split; [reflexivity|]. intros k. destruct (decide _); [lia | reflexivity].
  - intros i b Hi [Hlen Hb]. destruct (Hstep i b Hi Hlen) as [Hlen' Hrd].
    split; [exact Hlen'|]. intros k. rewrite Hrd.
    destruct (decide (k = base + i)) as [->|Hne].
    + rewrite Hb. destruct (decide (base + lo ≤ base + i < base + i)); [lia|].
      destruct (decide (base + lo ≤ base + i < base + (i + 1))); [reflexivity | lia].
    + rewrite Hb.
      destruct (decide (base + lo ≤ k < base + i)),
        (decide (base + lo ≤ k < base + (i + 1))); try reflexivity; lia.
Qed.

Lemma clear_cells t :
  grid_ok t →
  let video := for_up 0 (row_count t * column_count t) (fun i video => wr video i (blank t))
                 (buffer (active t)) in
  length video = length (buffer (active t)) ∧
  ∀ k, rd video k = if decide (0 ≤ k < row_count t * column_count t)
                    then blank t else rd (buffer (active t)) k.
Proof.
  intros (Hrows & Hcols & Hlen).
  pose proof (sweep_range (fun i video => wr video i (blank t)) (fun _ => blank t) 0 0
                (row_count t * column_count t) (buffer (active t)) ltac:(nia)) as Hs.
  cbv zeta in Hs. rewrite !Z.add_0_l in Hs. apply Hs.
  intros i b Hi Hb. rewrite Z.add_0_l, <- Hb.
  apply (paint_step (fun _ => blank t)). lia.
Qed.

Section Clearing.
Context `{OztermHeader}.

Lemma clear_spec t :
  grid_ok t →
  (∀ r c, 0 ≤ r < row_count t → 0 ≤ c < column_count t →
     cell_at (ozterm_clear t) r c = blank t) ∧
  cursor_row (active (ozterm_clear t)) = 0 ∧
  cursor_column (active (ozterm_clear t)) = 0.
Proof.
  intros Hgrid. pose proof Hgrid as (Hrows & Hcols & Hlen).
  destruct (clear_cells t Hgrid) as [_ Hcells].
  unfold ozterm_clear. cbv zeta.
  rewrite cursor_row_move_cursor, cursor_column_move_cursor.
  unfold set_active_buffer at 2 3. cbn [row_count column_count set_active].
  rewrite !clamp16_0 by lia.
  split; [|split; reflexivity].
  intros r c Hr Hc. rewrite cell_at_move_cursor, cell_at_set_active_buffer, Hcells.
  destruct (decide _) as [_|Hout]; [reflexivity|]. exfalso. apply Hout. nia.
Qed.

(** X17: ESC c blanks every cell of the active screen, protected or not,
    and puts the cursor on the first cell; it is not a full reset: the
    scroll region, the protected attribute, the saved cursor and the
    choice of the active screen stay as they are. *)
Theorem reset_clears_the_active_screen p t :
  parse_state p = STATE_NORMAL → grid_ok t →
  let t' := snd (fold_left ozterm_put_character [ESC; ch "c"] (p, t)) in
  (∀ r c, 0 ≤ r < row_count t → 0 ≤ c < column_count t → cell_at t' r c = blank t) ∧
  cursor_row (active t') = 0 ∧ cursor_column (active t') = 0 ∧
  scroll_top t' = scroll_top t ∧ scroll_bottom t' = scroll_bottom t ∧
  attr_protected (active t') = attr_protected (active t) ∧
  saved_cursor_row t' = saved_cursor_row t ∧ saved_cursor_column t' = saved_cursor_column t ∧
  screen_active t' = screen_active t.
Proof.
  intros Hp Hgrid t'.
  assert (Hrun : t' = snap_to_live (ozterm_move_cursor (ozterm_clear (snap_to_live t)) 0 0)).
  { subst t'. destruct p as [s ? ? ? ? ? ? ? ?]. simpl in Hp. subst s. reflexivity. }
  assert (Hgrid' : grid_ok (snap_to_live t)) by exact Hgrid.
  destruct (clear_spec (snap_to_live t) Hgrid') as (Hcells & Hrow & Hcol).
  pose proof Hgrid as (Hrows & Hcols & _).
  rewrite Hrun. rewrite active_snap.
  rewrite cursor_row_move_cursor, cursor_column_move_cursor.
  split; [|split; [|split]].
  - intros r c Hr Hc. rewrite cell_at_snap, cell_at_move_cursor. apply Hcells; assumption.
  - apply clamp16_0. exact Hrows.
  - apply clamp16_0. exact Hcols.
  - rewrite attr_protected_move_cursor. unfold ozterm_clear. cbv zeta.
    rewrite attr_protected_move_cursor. unfold set_active_buffer.
    rewrite active_set_active. repeat split; reflexivity.
Qed.

(** X18: a terminal made by ozterm_create with 1 to 32767 rows and 1 to
    32767 columns stores these dimensions and shows its main screen with
    every cell blank in the colour 0x0A and the cursor on the first cell;
    the scroll region is the whole screen, the scrollback is empty, the view
    is live, no callback is installed and none has been called. *)
Theorem create_gives_a_blank_screen rows cols :
  1 ≤ rows ≤ 32767 → 1 ≤ cols ≤ 32767 →
  let t := ozterm_create rows cols in
  row_count t = rows ∧ column_count t = cols ∧
  screen_active t = MainScreen ∧
  (∀ r c, 0 ≤ r < rows → 0 ≤ c < cols → cell_at t r c = mkCell (ch " ") 10 false) ∧
  cursor_row (active t) = 0 ∧ cursor_column (active t) = 0 ∧
  scroll_top t = 0 ∧ scroll_bottom t = rows - 1 ∧
  scrollback_count t = 0 ∧ ozterm_get_scroll t = 0 ∧
  (write_to_master_function t = false ∧ refresh_function t = false ∧
   set_character_function t = false ∧ move_cursor_function t = false) ∧
  host_calls t = [].
Proof.
  intros Hrows Hcols t.
  set (t0 := mkOzterm
               (mkScreen (replicate (Z.to_nat (rows * cols)) zero_cell) 0 0 false)
               (mkScreen (replicate (Z.to_nat (rows * cols)) zero_cell) 0 0 false)
               MainScreen false 0 0 rows cols 0 (rows - 1) 10
               (replicate (Z.to_nat SCROLLBACK_LINES) (replicate (Z.to_nat cols) zero_cell))
               0 0 0 false false false false []).
  assert (Ht : t = ozterm_clear t0).
  { subst t t0. unfold ozterm_create. cbv zeta.
    rewrite (to_uint16_id rows), (to_uint16_id cols) by lia. reflexivity. }
  assert (Hgrid : grid_ok t0).
  { unfold grid_ok, t0. cbn [row_count column_count active screen_active screen_main buffer].
    rewrite length_replicate. split; [lia|]. split; [lia|]. nia. }
  destruct (clear_spec t0 Hgrid) as (Hcells & Hrow & Hcol).
  rewrite Ht. repeat split; try assumption.
Qed.

End Clearing.

(** ** Erase in line and erase in display *)

Lemma erase_step t m b :
  0 ≤ m < Z.of_nat (length b) →
  length (erase_cell t m b) = length b ∧
  ∀ k, rd (erase_cell t m b) k = if decide (k = m) then erased t (rd b k) else rd b k.
Proof.
  intros Hm. unfold erase_cell, erased.
  destruct (protected (rd b m)) eqn:Hprot.
  - split; [reflexivity|]. intros k. destruct (decide (k = m)) as [->|_]; [|reflexivity].
    rewrite Hprot. reflexivity.
  - destruct (paint_step (repaint (ch " ") (term_color t)) m b Hm) as [Hlen Hrd].
    split; [exact Hlen|]. intros k. rewrite Hrd.
    destruct (decide (k = m)) as [->|_]; [|reflexivity]. rewrite Hprot. reflexivity.
Qed.

(** Rows swept one after the other, each between its own two columns,
    when the cells visited are contiguous in the buffer: the cells from
    [e ylo] up to [e yhi] are rewritten. *)
Lemma sweep_ragged (body : Z → Z → list OztermCell → list OztermCell)
    (F : OztermCell → OztermCell) (e xs xe : Z → Z) ylo yhi cols buf :
  ylo ≤ yhi →
  (∀ y, ylo ≤ y < yhi →
     xs y ≤ xe y ∧ y * cols + xs y = e y ∧ y * cols + xe y = e (y + 1)) →
  (∀ y x b, ylo ≤ y < yhi → xs y ≤ x < xe y → length b = length buf →
     length (body y x b) = length buf ∧
     ∀ k, rd (body y x b) k = if decide (k = y * cols + x) then F (rd b k) else rd b k) →
  let out := for_up ylo yhi (fun y => for_up (xs y) (xe y) (body y)) buf in
  length out = length buf ∧
  ∀ k, rd out k = if decide (e ylo ≤ k < e yhi) then F (rd buf k) else rd buf k.
Proof.
  intros Hle Hrows Hstep out. unfold out.
  pose proof (for_up_inv
                (fun y b => e ylo ≤ e y ∧ length b = length buf ∧
                            ∀ k, rd b k = if decide (e ylo ≤ k < e y)
                                          then F (rd buf k) else rd buf k)
                ylo yhi (fun y => for_up (xs y) (xe y) (body y)) buf) as Hinv.
  cbv beta in Hinv. rewrite Z.max_r in Hinv by lia.
  destruct Hinv as (_ & Hlen & Hcells); [| |split; assumption].
  - split; [lia|]. split; [reflexivity|].
    intros k. destruct (decide _); [lia | reflexivity].
  - intros y b Hy (Hmono & Hlen & Hb).
    destruct (Hrows y Hy) as (Hx & Hs & He).
    pose proof (sweep_range (body y) F (y * cols) (xs y) (xe y) b Hx) as Hsweep.
    cbv zeta in Hsweep. destruct Hsweep as [Hlen' Hrd].
    { intros i b' Hi Hb'. rewrite Hlen in Hb'. rewrite Hlen.
      exact (Hstep y i b' Hy Hi Hb'). }
    split; [lia|]. split; [congruence|].
    intros k. rewrite Hrd, !Hb.
    destruct (decide (y * cols + xs y ≤ k < y * cols + xe y)),
      (decide (e ylo ≤ k < e y)), (decide (e ylo ≤ k < e (y + 1)));
      try reflexivity; lia.
Qed.

Section Erasing.
Context `{OztermHeader}.

Lemma csi_dispatch_K t ps private : csi_dispatch t ps private (ch "K") = csi_K t ps.
Proof. unfold csi_dispatch. destruct (csi_params ps). reflexivity. Qed.

Lemma csi_dispatch_J t ps private : csi_dispatch t ps private (ch "J") = csi_J t ps.
Proof. unfold csi_dispatch. destruct (csi_params ps). reflexivity. Qed.

Lemma csi_K_cells t ps k :
  grid_ok t → cursor_in_grid t →
  let cy := cursor_row (active t) in
  let cx := cursor_column (active t) in
  let first := if erase_mode ps =? 0 then cx else 0 in
  let last := if erase_mode ps =? 1 then cx else column_count t - 1 in
  rd (buffer (active (csi_K t ps))) k
  = if decide (cy * column_count t + first ≤ k ≤ cy * column_count t + last)
    then erased t (rd (buffer (active t)) k) else rd (buffer (active t)) k.
Proof.
  intros (Hrows & Hcols & Hlen) (Hr & Hc & _ & _). cbv zeta.
  unfold csi_K. cbv zeta. rewrite buffer_set_active_buffer.
  fold (erase_mode ps).
  set (first := if erase_mode ps =? 0 then cursor_column (active t) else 0).
  set (xend := if erase_mode ps =? 1 then cursor_column (active t) + 1 else column_count t).
  assert (Hfirst : 0 ≤ first ≤ cursor_column (active t))
    by (subst first; destruct (_ =? 0); lia).
  assert (Hend : cursor_column (active t) < xend ≤ column_count t)
    by (subst xend; destruct (_ =? 1); lia).
  pose proof (sweep_range
                (fun x => erase_cell t (cursor_row (active t) * column_count t + x))
                (erased t) (cursor_row (active t) * column_count t) first xend
                (buffer (active t)) ltac:(lia)) as Hs.
  cbv zeta in Hs. destruct Hs as [_ Hs].
  { intros i b Hi Hb. rewrite <- Hb. apply erase_step. rewrite Hb. nia. }
  rewrite Hs.
  destruct (decide _), (decide _); try reflexivity;
    subst xend; destruct (erase_mode ps =? 1); lia.
Qed.


Lemma csi_J_cells t ps k :
  grid_ok t → cursor_in_grid t →
  let at_cursor := cursor_row (active t) * column_count t + cursor_column (active t) in
  let first := if erase_mode ps =? 0 then at_cursor else 0 in
  let last := if erase_mode ps =? 1 then at_cursor else row_count t * column_count t - 1 in
  rd (buffer (active (csi_J t ps))) k
  = if decide (first ≤ k ≤ last)
    then erased t (rd (buffer (active t)) k) else rd (buffer (active t)) k.
Proof.
  intros (Hrows & Hcols & Hlen) (Hr & Hc & _ & _). cbv zeta.
  unfold csi_J. cbv zeta. rewrite buffer_set_active_buffer.
  fold (erase_mode ps).
  set (cy := cursor_row (active t)) in *. set (cx := cursor_column (active t)) in *.
  set (cols := column_count t) in *. set (rows := row_count t) in *.
  assert (Hstep : ∀ y x b, 0 ≤ y < rows → 0 ≤ x < cols →
            length b = length (buffer (active t)) →
            length (erase_cell t (y * cols + x) b) = length (buffer (active t)) ∧
            ∀ k, rd (erase_cell t (y * cols + x) b) k
                 = if decide (k = y * cols + x) then erased t (rd b k) else rd b k).
  { intros y x b Hy Hx Hb. rewrite <- Hb. apply erase_step. rewrite Hb. nia. }
  destruct (Z.eqb_spec (erase_mode ps) 0) as [H0|H0];
    [|destruct (Z.eqb_spec (erase_mode ps) 1) as [H1|H1]].
  - (* from the cursor to the end of the screen *)
    pose proof (sweep_ragged (fun y x => erase_cell t (y * cols + x)) (erased t)
                  (fun y => if y =? cy then cy * cols + cx else y * cols)
                  (fun y => if y =? cy then cx else 0) (fun _ => cols)
                  cy rows cols (buffer (active t)) ltac:(lia)) as Hs.
    cbv zeta in Hs. cbv beta in Hs. destruct Hs as [_ Hs].
    + intros y Hy. destruct (Z.eqb_spec y cy); destruct (Z.eqb_spec (y + 1) cy); lia.
    + intros y x b Hy Hx Hb. apply Hstep; [lia | | exact Hb].
      destruct (Z.eqb_spec y cy); lia.
    + rewrite Hs. rewrite Z.eqb_refl.
      destruct (Z.eqb_spec rows cy); [lia|].
      destruct (Z.eqb_spec (erase_mode ps) 1); [lia|].
      destruct (decide _), (decide _); try reflexivity; lia.
  - (* from the top of the screen to the cursor *)
    pose proof (sweep_ragged (fun y x => erase_cell t (y * cols + x)) (erased t)
                  (fun y => if y =? cy + 1 then cy * cols + cx + 1 else y * cols)
                  (fun _ => 0) (fun y => if y =? cy then cx + 1 else cols)
                  0 (cy + 1) cols (buffer (active t)) ltac:(lia)) as Hs.
    cbv zeta in Hs. cbv beta in Hs. destruct Hs as [_ Hs].
    + intros y Hy. destruct (Z.eqb_spec y cy); destruct (Z.eqb_spec (y + 1) (cy + 1));
        destruct (Z.eqb_spec y (cy + 1)); lia.
    + intros y x b Hy Hx Hb. apply Hstep; [lia | | exact Hb].
      destruct (Z.eqb_spec y cy); lia.
    + rewrite Hs. rewrite Z.eqb_refl.
      destruct (Z.eqb_spec 0 (cy + 1)); [lia|].
      destruct (decide _), (decide _); try reflexivity; lia.
  - (* the entire screen *)
    pose proof (sweep_ragged (fun y x => erase_cell t (y * cols + x)) (erased t)
                  (fun y => y * cols) (fun _ => 0) (fun _ => cols)
                  0 rows cols (buffer (active t)) ltac:(lia)) as Hs.
    cbv zeta in Hs. cbv beta in Hs. destruct Hs as [_ Hs].
    + intros y Hy. lia.
    + intros y x b Hy Hx Hb. apply Hstep; assumption.
    + rewrite Hs.
      destruct (decide _), (decide _); try reflexivity; lia.
Qed.


End Erasing.

(** ** Select graphic rendition *)

Lemma strtol_digits_app ds rest : ∀ acc,
  forallb isdigit ds = true →
  (rest = [] ∨ ∃ r, rest = ch ";" :: r) →
  strtol_digits (ds ++ rest) acc
  = (fold_left (fun acc d => acc * 10 + (d - 48)) ds acc, rest).
Proof.
  induction ds as [|d ds IH]; intros acc Hds Hrest; simpl in *.
  - destruct Hrest as [->|[r ->]]; reflexivity.
  - apply andb_true_iff in Hds as [Hd Hds]. rewrite Hd. apply IH; assumption.
Qed.

Lemma strtol_number ds rest :
  ds ≠ [] → forallb isdigit ds = true →
  (rest = [] ∨ ∃ r, rest = ch ";" :: r) →
  0 ≤ decimal_value ds ≤ 2147483647 →
  strtol (ds ++ rest) = (decimal_value ds, rest).
Proof.
  intros Hne Hds Hrest Hv. destruct ds as [|d ds]; [congruence|].
  pose proof Hds as Hall. simpl in Hds. apply andb_true_iff in Hds as [Hd _].
  assert (Hrange : 48 ≤ d ≤ 57) by (unfold isdigit in Hd; lia).
  unfold strtol.
  assert (Hsp : skip_spaces ((d :: ds) ++ rest) = (d :: ds) ++ rest).
  { simpl. unfold isspace.
    destruct (Z.eqb_spec d 32); [lia|].
    destruct (Z.leb_spec 9 d); destruct (Z.leb_spec d 13); try lia; reflexivity. }
  rewrite Hsp. cbn [app]. change (ch "-") with 45. change (ch "+") with 43.
  destruct (Z.eqb_spec d 45); [lia|]. destruct (Z.eqb_spec d 43); [lia|].
  rewrite Hd.
  change (d :: ds ++ rest) with ((d :: ds) ++ rest).
  rewrite (strtol_digits_app (d :: ds) rest 0 Hall Hrest).
  fold (decimal_value (d :: ds)).
  unfold LONG_MIN, LONG_MAX.
  rewrite Z.min_r by lia. rewrite Z.max_r by lia. reflexivity.
Qed.

Lemma fmt_d_digits n :
  0 ≤ n ≤ 2147483647 →
  fmt_d n ≠ [] ∧ forallb isdigit (fmt_d n) = true ∧ decimal_value (fmt_d n) = n.
Proof.
  intros Hn. destruct (fmt_d_decimal n ltac:(lia)) as [Hds Hv].
  split; [|split; assumption].
  intros Hnil. rewrite Hnil in Hv. cbn in Hv. subst n. discriminate Hnil.
Qed.

Section Rendition.
Context `{OztermHeader}.

Lemma sgr_step t n :
  let t' := if n =? 0 then ozterm_reset_attributes t
            else if n =? 8 then set_active (set_attr_protected true (active t)) t
            else t in
  attr_protected (active t') = sgr_attr (attr_protected (active t)) n ∧
  buffer (active t') = buffer (active t) ∧
  cursor_row (active t') = cursor_row (active t) ∧
  cursor_column (active t') = cursor_column (active t).
Proof.
  cbv zeta. unfold sgr_attr, ozterm_reset_attributes.
  destruct (n =? 0); [|destruct (n =? 8)]; rewrite ?active_set_active; repeat split.
Qed.

Lemma sgr_loop_spec ns : ∀ fuel t,
  (length (param_string ns) < fuel)%nat →
  Forall (fun n => 0 ≤ n ≤ 2147483647) ns →
  let t' := sgr_loop fuel (param_string ns) t in
  attr_protected (active t') = fold_left sgr_attr ns (attr_protected (active t)) ∧
  buffer (active t') = buffer (active t) ∧
  cursor_row (active t') = cursor_row (active t) ∧
  cursor_column (active t') = cursor_column (active t).
Proof.
  induction ns as [|n ns IH]; intros fuel t Hfuel Hall; cbv zeta.
  - destruct fuel; repeat split.
  - inversion Hall as [|? ? Hn Hrest]; subst.
    destruct (fmt_d_digits n Hn) as (Hne & Hds & Hv).
    destruct fuel as [|fuel]; [lia|].
    assert (Hstr : ∃ rest, param_string (n :: ns) = fmt_d n ++ rest ∧
                           (rest = [] ∨ ∃ r, rest = ch ";" :: r) ∧
                           (match rest with
                            | c :: r => if c =? ch ";" then r else rest
                            | [] => rest
                            end) = param_string ns).
    { destruct ns as [|n' ns'].
      - exists []. cbn [param_string]. rewrite app_nil_r. repeat split. left. reflexivity.
      - exists (ch ";" :: param_string (n' :: ns')). repeat split. right. eauto. }
    destruct Hstr as (rest & Hstr & Hrest' & Hnext).
    rewrite Hstr in *. rewrite length_app in Hfuel.
    cbn [sgr_loop].
    destruct (fmt_d n ++ rest) as [|c0 s0] eqn:Hs0.
    { destruct (fmt_d n); [congruence | discriminate]. }
    rewrite <- Hs0.
    rewrite (strtol_number (fmt_d n) rest Hne Hds Hrest' ltac:(lia)).
    rewrite Hv. unfold to_int32. rewrite Z.mod_small by lia.
    replace (n + 2147483648 - 2147483648) with n by lia.
    rewrite Hnext.
    destruct (sgr_step t n) as (Sattr & Sbuf & Srow & Scol).
    set (t1 := if n =? 0 then _ else _) in *.
    destruct (IH fuel t1) as (Iattr & Ibuf & Irow & Icol); [|exact Hrest|].
    { rewrite <- Hnext.
      destruct Hrest' as [->|[r ->]]; cbn [length].
      - destruct (fmt_d n); [congruence|]. cbn [length] in Hfuel. simpl. lia.
      - change (ch ";" =? ch ";") with true. cbn [length] in Hfuel. lia. }
    cbn [fold_left]. rewrite Iattr, Ibuf, Irow, Icol, Sattr, Sbuf, Srow, Scol.
    repeat split.
Qed.

Lemma csi_dispatch_m t ps private : csi_dispatch t ps private (ch "m") = csi_m t ps.
Proof. unfold csi_dispatch. destruct (csi_params ps). reflexivity. Qed.

Lemma param_string_bytes ns :
  Forall (fun n => 0 ≤ n ≤ 2147483647) ns → forallb is_param_byte (param_string ns) = true.
Proof.
  induction ns as [|n ns IH]; intros Hall; [reflexivity|].
  inversion Hall as [|? ? Hn Hrest]; subst.
  destruct (fmt_d_digits n Hn) as (_ & Hds & _).
  destruct ns as [|n' ns'].
  - cbn [param_string]. apply is_param_byte_digits. exact Hds.
  - change (param_string (n :: n' :: ns'))
      with (fmt_d n ++ [ch ";"] ++ param_string (n' :: ns')).
    rewrite !forallb_app. rewrite (is_param_byte_digits _ Hds). rewrite (IH Hrest). reflexivity.
Qed.

(** X21: ESC [ n1 ; n2 ; ... m reads its parameters in order: 0 clears the
    protected attribute of the active screen, 8 sets it and every other
    number leaves it; without any parameter the sequence changes nothing,
    so ESC [ m is not a reset.  The cells and the cursor are as before. *)
Theorem select_graphic_rendition p t ns :
  parse_state p = STATE_NORMAL →
  Forall (fun n => 0 ≤ n ≤ 2147483647) ns →
  (length (param_string ns) ≤ 31)%nat →
  let t' := snd (fold_left ozterm_put_character
                   (csi_sequence false (param_string ns) (ch "m")) (p, t)) in
  attr_protected (active t') = fold_left sgr_attr ns (attr_protected (active t)) ∧
  buffer (active t') = buffer (active t) ∧
  cursor_row (active t') = cursor_row (active t) ∧
  cursor_column (active t') = cursor_column (active t).
Proof.
  intros Hp Hall Hlen t'.
  destruct (run_csi p t false (param_string ns) (ch "m") Hp (param_string_bytes ns Hall)
              eq_refl) as (p' & Hrun & _).
  subst t'. rewrite Hrun. cbn [snd]. rewrite take_ge by lia.
  rewrite csi_dispatch_m. rewrite active_snap. unfold csi_m.
  apply (sgr_loop_spec ns (Datatypes.S (length (param_string ns))) (snap_to_live t));
    [lia | exact Hall].
Qed.

End Rendition.

(** ** Rows shifted inside the scroll region *)

(** One row swept from left to right, each cell rewritten from itself and
    from the cell [d] places away, which lies outside the row or further
    right. *)
Lemma sweep_row_from (body : Z → list OztermCell → list OztermCell)
    (F : OztermCell → OztermCell → OztermCell) d base cols buf :
  0 ≤ cols → (0 ≤ d ∨ d ≤ - cols) →
  (∀ x b, 0 ≤ x < cols → length b = length buf →
     length (body x b) = length buf ∧
     ∀ k, rd (body x b) k
          = if decide (k = base + x) then F (rd b k) (rd b (k + d)) else rd b k) →
  let out := for_up 0 cols body buf in
  length out = length buf ∧
  ∀ k, rd out k = if decide (base ≤ k < base + cols)
                  then F (rd buf k) (rd buf (k + d)) else rd buf k.
Proof.
  intros Hcols Hd Hstep out. unfold out.
  pose proof (for_up_inv
                (fun x b => length b = length buf ∧
                            ∀ k, rd b k = if decide (base ≤ k < base + x)
                                          then F (rd buf k) (rd buf (k + d)) else rd buf k)
                0 cols body buf) as Hinv.
  cbv beta in Hinv. rewrite Z.max_r in Hinv by lia. apply Hinv; clear Hinv.
  - split; [reflexivity|]. intros k. destruct (decide _); [lia | reflexivity].
  - intros x b Hx [Hlen Hb]. destruct (Hstep x b Hx Hlen) as [Hlen' Hrd].
    split; [exact Hlen'|]. intros k. rewrite Hrd.
    destruct (decide (k = base + x)) as [->|Hne].
    + rewrite !Hb.
      destruct (decide (base ≤ base + x < base + x)); [lia|].
      destruct (decide (base ≤ base + x + d < base + x)); [lia|].
      destruct (decide (base ≤ base + x < base + (x + 1))); [reflexivity | lia].
    + rewrite Hb.
      destruct (decide (base ≤ k < base + x)), (decide (base ≤ k < base + (x + 1)));
        try reflexivity; lia.
Qed.

(** Rows swept from the bottom one up to the top one, each cell rewritten
    from itself and from the cell [d] places before it, at least one row
    above. *)
Lemma sweep_cells_down (body : Z → Z → list OztermCell → list OztermCell)
    (F : OztermCell → OztermCell → OztermCell) d yhi ylo cols buf :
  0 ≤ cols → ylo ≤ yhi + 1 → cols ≤ d →
  (∀ y x b, ylo ≤ y ≤ yhi → 0 ≤ x < cols → length b = length buf →
     length (body y x b) = length buf ∧
     ∀ k, rd (body y x b) k
          = if decide (k = y * cols + x) then F (rd b k) (rd b (k - d)) else rd b k) →
  let out := for_down yhi ylo (fun y => for_up 0 cols (body y)) buf in
  length out = length buf ∧
  ∀ k, rd out k
       = if decide (ylo * cols ≤ k < (yhi + 1) * cols) then F (rd buf k) (rd buf (k - d))
         else rd buf k.
Proof.
  intros Hcols Hy Hd Hstep out. unfold out.
  pose proof (for_down_inv
                (fun y b => length b = length buf ∧
                            ∀ k, rd b k = if decide ((y + 1) * cols ≤ k < (yhi + 1) * cols)
                                          then F (rd buf k) (rd buf (k - d)) else rd buf k)
                yhi ylo (fun y => for_up 0 cols (body y)) buf) as Hinv.
  cbv beta in Hinv. rewrite Z.min_r in Hinv by lia.
  replace (ylo - 1 + 1) with ylo in Hinv by lia. apply Hinv; clear Hinv.
  - split; [reflexivity|]. intros k. destruct (decide _); [lia | reflexivity].
  - intros y b Hyr [Hlen Hb].
    pose proof (sweep_row_from (body y) (fun a a' => F a a') (- d) (y * cols) cols b
                  Hcols ltac:(lia)) as Hrow.
    cbv zeta in Hrow. destruct Hrow as [Hlen' Hrd].
    { intros x b' Hx Hb'. rewrite Hlen in Hb'. rewrite Hlen.
      destruct (Hstep y x b' Hyr Hx Hb') as [Hl Hr]. split; [exact Hl|].
      intros k. rewrite Hr. replace (k + - d) with (k - d) by lia. reflexivity. }
    split; [congruence|]. intros k. rewrite Hrd.
    replace (y - 1 + 1) with y by lia.
    replace (k + - d) with (k - d) by lia. rewrite !Hb.
    destruct (decide (y * cols ≤ k < y * cols + cols)) as [Hin|Hout].
    + destruct (decide ((y + 1) * cols ≤ k < (yhi + 1) * cols)); [lia|].
      destruct (decide ((y + 1) * cols ≤ k - d < (yhi + 1) * cols)); [lia|].
      destruct (decide (y * cols ≤ k < (yhi + 1) * cols)); [reflexivity | nia].
    + destruct (decide ((y + 1) * cols ≤ k < (yhi + 1) * cols)),
        (decide (y * cols ≤ k < (yhi + 1) * cols)); try reflexivity; lia.
Qed.

(** The two loops of [ozterm_scroll_down_region] and [ozterm_insert_lines]:
    the rows from [top] to [bottom] move down by [count] and the rows
    uncovered at [top] are blanked. *)
Lemma shift_down_cells top bottom count cols bl buf :
  0 ≤ cols → 0 ≤ top → 1 ≤ count ≤ bottom - top + 1 →
  (bottom + 1) * cols ≤ Z.of_nat (length buf) →
  let shifted :=
    for_down bottom (top + count) (fun row =>
      for_up 0 cols (fun col buf =>
        if protected (rd buf (row * cols + col)) then buf
        else wr buf (row * cols + col) (rd buf ((row - count) * cols + col)))) buf in
  let out :=
    for_up top (top + count) (fun row =>
      for_up 0 cols (fun col buf => wr buf (row * cols + col) bl)) shifted in
  length out = length buf ∧
  ∀ k, rd out k
       = if decide (top * cols ≤ k < (top + count) * cols) then bl
         else if decide ((top + count) * cols ≤ k < (bottom + 1) * cols)
              then (if protected (rd buf k) then rd buf k else rd buf (k - count * cols))
              else rd buf k.
Proof.
  intros Hcols Htop Hcount Hlen shifted out.
  pose proof (sweep_cells_down
    (fun row col buf => if protected (rd buf (row * cols + col)) then buf
                        else wr buf (row * cols + col) (rd buf ((row - count) * cols + col)))
    (fun a a' => if protected a then a else a') (count * cols)
    bottom (top + count) cols buf Hcols ltac:(lia) ltac:(nia)) as Hshift.
  cbv zeta in Hshift. destruct Hshift as [Hlen1 Hshift].
  { intros y x b Hy Hx Hb.
    pose proof (copy_step (y * cols + x) ((y - count) * cols + x) b) as Hstep.
    cbv zeta in Hstep.
    replace ((y - count) * cols + x - (y * cols + x)) with (- (count * cols)) in Hstep by lia.
    rewrite <- Hb.
    destruct Hstep as [Hl Hr]; [rewrite Hb; nia|]. split; [exact Hl|].
    intros k. rewrite Hr. replace (k + - (count * cols)) with (k - count * cols) by lia.
    reflexivity. }
  fold shifted in Hlen1, Hshift.
  pose proof (sweep_cells
    (fun row col buf => wr buf (row * cols + col) bl)
    (fun _ _ => bl) 0 top (top + count) cols shifted Hcols ltac:(lia) (Z.le_refl 0))
    as Hclear.
  cbv zeta in Hclear. destruct Hclear as [Hlen2 Hclear].
  { intros y x b Hy Hx Hb.
    pose proof (paint_step (fun _ => bl) (y * cols + x) b) as Hstep.
    rewrite <- Hb. apply Hstep. rewrite Hb, Hlen1. nia. }
  fold out in Hlen2, Hclear.
  split; [congruence|]. intros k. rewrite Hclear, Hshift.
  destruct (decide (top * cols ≤ k < (top + count) * cols)); [reflexivity|].
  reflexivity.
Qed.

(** The two loops of [ozterm_scroll_up_region] and [ozterm_delete_lines]:
    the rows from [top] to [bottom] move up by [count] and the rows
    uncovered at [bottom] are blanked. *)
Lemma shift_up_cells top bottom count cols bl buf :
  0 ≤ cols → 0 ≤ top → 1 ≤ count ≤ bottom - top + 1 →
  (bottom + 1) * cols ≤ Z.of_nat (length buf) →
  let shifted :=
    for_up top (bottom - count + 1) (fun row =>
      for_up 0 cols (fun col buf =>
        if protected (rd buf (row * cols + col)) then buf
        else wr buf (row * cols + col) (rd buf ((row + count) * cols + col)))) buf in
  let out :=
    for_up (bottom - count + 1) (bottom + 1) (fun row =>
      for_up 0 cols (fun col buf => wr buf (row * cols + col) bl)) shifted in
  length out = length buf ∧
  ∀ k, rd out k
       = if decide ((bottom - count + 1) * cols ≤ k < (bottom + 1) * cols) then bl
         else if decide (top * cols ≤ k < (bottom - count + 1) * cols)
              then (if protected (rd buf k) then rd buf k else rd buf (k + count * cols))
              else rd buf k.
Proof.
  intros Hcols Htop Hcount Hlen shifted out.
  pose proof (sweep_cells
    (fun row col buf => if protected (rd buf (row * cols + col)) then buf
                        else wr buf (row * cols + col) (rd buf ((row + count) * cols + col)))
    (fun a a' => if protected a then a else a') (count * cols)
    top (bottom - count + 1) cols buf Hcols ltac:(lia) ltac:(nia)) as Hshift.
  cbv zeta in Hshift. destruct Hshift as [Hlen1 Hshift].
  { intros y x b Hy Hx Hb.
    pose proof (copy_step (y * cols + x) ((y + count) * cols + x) b) as Hstep.
    cbv zeta in Hstep.
    replace ((y + count) * cols + x - (y * cols + x)) with (count * cols) in Hstep by lia.
    rewrite <- Hb. apply Hstep. rewrite Hb. nia. }
  fold shifted in Hlen1, Hshift.
  pose proof (sweep_cells
    (fun row col buf => wr buf (row * cols + col) bl)
    (fun _ _ => bl) 0 (bottom - count + 1) (bottom + 1) cols shifted Hcols ltac:(lia)
    (Z.le_refl 0)) as Hclear.
  cbv zeta in Hclear. destruct Hclear as [Hlen2 Hclear].
  { intros y x b Hy Hx Hb.
    pose proof (paint_step (fun _ => bl) (y * cols + x) b) as Hstep.
    rewrite <- Hb. apply Hstep. rewrite Hb, Hlen1. nia. }
  fold out in Hlen2, Hclear.
  split; [congruence|]. intros k. rewrite Hclear, Hshift.
  destruct (decide ((bottom - count + 1) * cols ≤ k < (bottom + 1) * cols)); reflexivity.
Qed.

Section Shifts.
Context `{OztermHeader}.

Lemma shifted_down_cells t top n r c out :
  grid_ok t → 0 ≤ top → 1 ≤ n ≤ scroll_bottom t - top + 1 → scroll_bottom t < row_count t →
  0 ≤ c < column_count t →
  (∀ k, rd out k
        = if decide (top * column_count t ≤ k < (top + n) * column_count t) then blank t
          else if decide ((top + n) * column_count t ≤ k
                          < (scroll_bottom t + 1) * column_count t)
               then (if protected (rd (buffer (active t)) k) then rd (buffer (active t)) k
                     else rd (buffer (active t)) (k - n * column_count t))
               else rd (buffer (active t)) k) →
  rd out (r * column_count t + c) = shifted_down t top n r c.
Proof.
  intros (Hrows & Hcols & Hlen) Htop Hn Hbot Hc Hout. rewrite Hout.
  unfold shifted_down, cell_at.
  replace ((r - n) * column_count t + c) with (r * column_count t + c - n * column_count t)
    by lia.
  destruct (decide (top ≤ r < top + n)) as [Hin|Hnot].
  - destruct (decide _) as [_|Hx]; [reflexivity|].
    exfalso. apply Hx. apply row_range; assumption.
  - destruct (decide (top * column_count t ≤ r * column_count t + c
                      < (top + n) * column_count t)) as [Hx|_].
    { apply row_range in Hx; [contradiction | exact Hc]. }
    destruct (decide (top + n ≤ r ≤ scroll_bottom t)) as [Hin|Hnot'].
    + destruct (decide _) as [_|Hx]; [reflexivity|].
      exfalso. apply Hx. apply row_range; [exact Hc | lia].
    + destruct (decide _) as [Hx|_]; [|reflexivity].
      apply row_range in Hx; [lia | exact Hc].
Qed.

Lemma shifted_up_cells t top n r c out :
  grid_ok t → 0 ≤ top → 1 ≤ n ≤ scroll_bottom t - top + 1 → scroll_bottom t < row_count t →
  0 ≤ c < column_count t →
  (∀ k, rd out k
        = if decide ((scroll_bottom t - n + 1) * column_count t ≤ k
                     < (scroll_bottom t + 1) * column_count t) then blank t
          else if decide (top * column_count t ≤ k
                          < (scroll_bottom t - n + 1) * column_count t)
               then (if protected (rd (buffer (active t)) k) then rd (buffer (active t)) k
                     else rd (buffer (active t)) (k + n * column_count t))
               else rd (buffer (active t)) k) →
  rd out (r * column_count t + c) = shifted_up t top n r c.
Proof.
  intros (Hrows & Hcols & Hlen) Htop Hn Hbot Hc Hout. rewrite Hout.
  unfold shifted_up, cell_at.
  replace ((r + n) * column_count t + c) with (r * column_count t + c + n * column_count t)
    by lia.
  destruct (decide (scroll_bottom t - n < r ≤ scroll_bottom t)) as [Hin|Hnot].
  - destruct (decide _) as [_|Hx]; [reflexivity|].
    exfalso. apply Hx. apply row_range; [exact Hc | lia].
  - destruct (decide ((scroll_bottom t - n + 1) * column_count t ≤ r * column_count t + c
                      < (scroll_bottom t + 1) * column_count t)) as [Hx|_].
    { apply row_range in Hx; [lia | exact Hc]. }
    destruct (decide (top ≤ r ≤ scroll_bottom t - n)) as [Hin|Hnot'].
    + destruct (decide _) as [_|Hx]; [reflexivity|].
      exfalso. apply Hx. apply row_range; [exact Hc | lia].
    + destruct (decide _) as [Hx|_]; [|reflexivity].
      apply row_range in Hx; [lia | exact Hc].
Qed.

Lemma region_lines_range t n :
  scroll_top t ≤ scroll_bottom t →
  1 ≤ region_lines t n ≤ scroll_bottom t - scroll_top t + 1.
Proof.
  intros Hreg. unfold region_lines. destruct (Z.leb_spec n 0);
    match goal with |- context [?a >? ?b] => destruct (Z.gtb_spec a b) end; lia.
Qed.

Lemma scroll_down_region_cells t n r c :
  grid_ok t → region_ok t → 0 ≤ c < column_count t →
  cell_at (ozterm_scroll_down_region t n) r c
  = shifted_down t (scroll_top t) (region_lines t n) r c.
Proof.
  intros Hgrid (Htop & Hreg & Hbot) Hc. pose proof Hgrid as (Hrows & Hcols & Hlen).
  pose proof (region_lines_range t n Hreg) as Hl.
  unfold ozterm_scroll_down_region. cbv zeta. fold (region_lines t n).
  rewrite cell_at_call_refresh, cell_at_set_active_buffer.
  apply shifted_down_cells; try assumption.
  apply (shift_down_cells (scroll_top t) (scroll_bottom t) (region_lines t n)
           (column_count t) (blank t) (buffer (active t)) Hcols Htop Hl). nia.
Qed.

Lemma insert_lines_cells t from_row n r c :
  grid_ok t → region_ok t → 0 ≤ c < column_count t →
  0 < n → scroll_top t ≤ from_row ≤ scroll_bottom t →
  cell_at (ozterm_insert_lines t from_row n) r c
  = shifted_down t from_row (span_lines t from_row n) r c.
Proof.
  intros Hgrid (Htop & Hreg & Hbot) Hc Hn Hfrom. pose proof Hgrid as (Hrows & Hcols & Hlen).
  assert (Hl : 1 ≤ span_lines t from_row n ≤ scroll_bottom t - from_row + 1).
  { unfold span_lines.
    match goal with |- context [?a >? ?b] => destruct (Z.gtb_spec a b) end; lia. }
  unfold ozterm_insert_lines.
  destruct (Z.leb_spec n 0); [lia|].
  destruct (Z.ltb_spec from_row (scroll_top t)); [lia|].
  destruct (Z.gtb_spec from_row (scroll_bottom t)); [lia|].
  cbn [orb]. cbv zeta. fold (span_lines t from_row n).
  rewrite cell_at_call_refresh, cell_at_set_active_buffer.
  apply shifted_down_cells; try assumption; try lia.
  apply (shift_down_cells from_row (scroll_bottom t) (span_lines t from_row n)
           (column_count t) (blank t) (buffer (active t)) Hcols ltac:(lia) Hl). nia.
Qed.

Lemma delete_lines_cells t from_row n r c :
  grid_ok t → region_ok t → 0 ≤ c < column_count t →
  0 < n → scroll_top t ≤ from_row ≤ scroll_bottom t →
  cell_at (ozterm_delete_lines t from_row n) r c
  = shifted_up t from_row (span_lines t from_row n) r c.
Proof.
  intros Hgrid (Htop & Hreg & Hbot) Hc Hn Hfrom. pose proof Hgrid as (Hrows & Hcols & Hlen).
  assert (Hl : 1 ≤ span_lines t from_row n ≤ scroll_bottom t - from_row + 1).
  { unfold span_lines.
    match goal with |- context [?a >? ?b] => destruct (Z.gtb_spec a b) end; lia. }
  unfold ozterm_delete_lines.
  destruct (Z.leb_spec n 0); [lia|].
  destruct (Z.ltb_spec from_row (scroll_top t)); [lia|].
  destruct (Z.gtb_spec from_row (scroll_bottom t)); [lia|].
  cbn [orb]. cbv zeta. fold (span_lines t from_row n).
  rewrite cell_at_call_refresh, cell_at_set_active_buffer.
  apply shifted_up_cells; try assumption; try lia.
  apply (shift_up_cells from_row (scroll_bottom t) (span_lines t from_row n)
           (column_count t) (blank t) (buffer (active t)) Hcols ltac:(lia) Hl). nia.
Qed.

Lemma scroll_up_region_shifted t n r c :
  grid_ok t → region_ok t → 0 ≤ c < column_count t →
  cell_at (ozterm_scroll_up_region t n) r c
  = shifted_up t (scroll_top t) (region_lines t n) r c.
Proof.
  intros Hgrid (Htop & Hreg & Hbot) Hc. pose proof Hgrid as (Hrows & Hcols & Hlen).
  pose proof (region_lines_range t n Hreg) as Hl.
  unfold ozterm_scroll_up_region. cbv zeta. fold (region_lines t n).
  rewrite cell_at_call_refresh, cell_at_set_active_buffer.
  apply shifted_up_cells; try assumption.
  apply (shift_up_cells (scroll_top t) (scroll_bottom t) (region_lines t n)
           (column_count t) (blank t) (buffer (active t)) Hcols Htop Hl). nia.
Qed.

Lemma for_up_empty {S : Type} lo hi (body : Z → S → S) s :
  hi ≤ lo → for_up lo hi body s = s.
Proof.
  intros Hle. apply (for_up_ind (fun x => x = s)); [reflexivity | intros; lia].
Qed.

Lemma for_down_empty {S : Type} hi lo (body : Z → S → S) s :
  hi < lo → for_down hi lo body s = s.
Proof.
  intros Hlt. apply (for_down_ind (fun x => x = s)); [reflexivity | intros; lia].
Qed.

Lemma region_lines_inverted t n :
  scroll_bottom t < scroll_top t →
  region_lines t n = scroll_bottom t - scroll_top t + 1.
Proof.
  intros Hinv. unfold region_lines. destruct (Z.leb_spec n 0);
    match goal with |- context [?a >? ?b] => destruct (Z.gtb_spec a b) end; lia.
Qed.

(** With the top margin below the bottom one the loops of both region
    scrolls run over no row. *)
Lemma scroll_up_region_inverted t n r c :
  scroll_bottom t < scroll_top t →
  cell_at (ozterm_scroll_up_region t n) r c = cell_at t r c.
Proof.
  intros Hinv. unfold ozterm_scroll_up_region. cbv zeta. fold (region_lines t n).
  rewrite cell_at_call_refresh, cell_at_set_active_buffer.
  rewrite (region_lines_inverted t n Hinv).
  rewrite (for_up_empty (scroll_bottom t - (scroll_bottom t - scroll_top t + 1) + 1))
    by lia.
  rewrite for_up_empty by lia. reflexivity.
Qed.

Lemma scroll_down_region_inverted t n r c :
  scroll_bottom t < scroll_top t →
  cell_at (ozterm_scroll_down_region t n) r c = cell_at t r c.
Proof.
  intros Hinv. unfold ozterm_scroll_down_region. cbv zeta. fold (region_lines t n).
  rewrite cell_at_call_refresh, cell_at_set_active_buffer.
  rewrite (region_lines_inverted t n Hinv).
  rewrite for_up_empty by lia.
  rewrite for_down_empty by lia. reflexivity.
Qed.

Lemma shifted_inverted t n r c :
  scroll_bottom t < scroll_top t →
  shifted_up t (scroll_top t) (region_lines t n) r c = cell_at t r c ∧
  shifted_down t (scroll_top t) (region_lines t n) r c = cell_at t r c.
Proof.
  intros Hinv. rewrite (region_lines_inverted t n Hinv). unfold shifted_up, shifted_down.
  split; repeat match goal with |- context [decide ?P] => destruct (decide P) end;
    try reflexivity; lia.
Qed.

(** Both region scrolls on a grid that holds both margins, whichever of
    the two margins is the upper one. *)
Lemma scroll_up_region_on_grid t n r c :
  grid_ok t → margins_in_grid t → 0 ≤ c < column_count t →
  cell_at (ozterm_scroll_up_region t n) r c
  = shifted_up t (scroll_top t) (region_lines t n) r c.
Proof.
  intros Hgrid ((Htop & _) & (_ & Hbot)) Hc.
  destruct (Z.le_gt_cases (scroll_top t) (scroll_bottom t)) as [Hreg|Hinv].
  - apply scroll_up_region_shifted; [exact Hgrid | | exact Hc].
    split; [exact Htop|]. split; [exact Hreg | exact Hbot].
  - rewrite (scroll_up_region_inverted t n r c Hinv).
    symmetry. exact (proj1 (shifted_inverted t n r c Hinv)).
Qed.

Lemma scroll_down_region_on_grid t n r c :
  grid_ok t → margins_in_grid t → 0 ≤ c < column_count t →
  cell_at (ozterm_scroll_down_region t n) r c
  = shifted_down t (scroll_top t) (region_lines t n) r c.
Proof.
  intros Hgrid ((Htop & _) & (_ & Hbot)) Hc.
  destruct (Z.le_gt_cases (scroll_top t) (scroll_bottom t)) as [Hreg|Hinv].
  - apply scroll_down_region_cells; [exact Hgrid | | exact Hc].
    split; [exact Htop|]. split; [exact Hreg | exact Hbot].
  - rewrite (scroll_down_region_inverted t n r c Hinv).
    symmetry. exact (proj2 (shifted_inverted t n r c Hinv)).
Qed.

Lemma csi_dispatch_lines t ps private :
  csi_dispatch t ps private (ch "S") = ozterm_scroll_up_region t (line_count ps) ∧
  csi_dispatch t ps private (ch "T") = ozterm_scroll_down_region t (line_count ps) ∧
  csi_dispatch t ps private (ch "L")
  = ozterm_insert_lines t (cursor_row (active t)) (line_count ps) ∧
  csi_dispatch t ps private (ch "M")
  = ozterm_delete_lines t (cursor_row (active t)) (line_count ps).
Proof.
  unfold csi_dispatch, line_count. destruct (csi_params ps) as [p1 p2].
  repeat split; reflexivity.
Qed.

Lemma line_count_positive ps : 0 < line_count ps.
Proof. unfold line_count. destruct (Z.gtb_spec (fst (csi_params ps)) 0); lia. Qed.

Lemma cursor_kept_by_buffer_write b t :
  cursor_row (active (call_refresh (set_active_buffer b t))) = cursor_row (active t) ∧
  cursor_column (active (call_refresh (set_active_buffer b t))) = cursor_column (active t).
Proof.
  unfold call_refresh. rewrite active_call_host. unfold set_active_buffer.
  rewrite active_set_active. split; reflexivity.
Qed.





End Shifts.

(** ** Characters inserted and deleted in a row *)

Section Characters.
Context `{OztermHeader}.

Lemma clamped_count t count :
  cursor_in_grid t → 1 ≤ to_int16 count →
  (if cursor_column (active t) + to_int16 count >=? column_count t
   then to_int16 (column_count t - cursor_column (active t)) else to_int16 count)
  = span_cells t (to_int16 count).
Proof.
  intros (_ & Hc & _ & Hcols) Hcount. unfold span_cells.
  destruct (Z.geb_spec (cursor_column (active t) + to_int16 count) (column_count t)).
  - rewrite to_int16_id by lia. lia.
  - lia.
Qed.

Lemma delete_characters_cells t count k :
  grid_ok t → cursor_in_grid t → unprotected_from_cursor t → 1 ≤ to_int16 count →
  let base := cursor_row (active t) * column_count t in
  let x := cursor_column (active t) in
  let n := span_cells t (to_int16 count) in
  rd (buffer (active (ozterm_line_delete_characters t count))) k
  = if decide (base + x ≤ k < base + column_count t - n)
    then rd (buffer (active t)) (k + n)
    else if decide (base + column_count t - n ≤ k < base + column_count t)
         then blank t else rd (buffer (active t)) k.
Proof.
  intros (Hrows & Hcols0 & Hlen) Hcur Hfree Hcount base x n.
  pose proof Hcur as (Hr & Hc & _ & Hcols).
  unfold ozterm_line_delete_characters. cbv zeta.
  destruct (Z.geb_spec (cursor_column (active t)) (column_count t)); [lia|].
  rewrite (clamped_count t count Hcur Hcount). fold base x n.
  rewrite buffer_set_active_buffer.
  assert (Hn : 1 ≤ n ≤ column_count t - x) by (subst n x; unfold span_cells; lia).
  set (cols := column_count t) in *.
  assert (Hunprot : ∀ i, x ≤ i < cols → protected (rd (buffer (active t)) (base + i)) = false).
  { intros i Hi. exact (Hfree i Hi). }
  (* Shift cells left *)
  pose proof (for_up_inv
    (fun i b => length b = length (buffer (active t)) ∧
                ∀ k, rd b k = if decide (base + x ≤ k < base + i)
                              then rd (buffer (active t)) (k + n)
                              else rd (buffer (active t)) k)
    x (cols - n)
    (fun i buf =>
       if protected (rd buf (base + i)) then buf else
       let src := skip_protected_up (Z.to_nat (cols - (i + n))) buf base cols (i + n) in
       if src <? cols then wr buf (base + i) (rd buf (base + src))
       else wr buf (base + i) (blank t))
    (buffer (active t))) as Hshift.
  cbv beta in Hshift. rewrite Z.max_r in Hshift by lia.
  destruct Hshift as [Hlen1 Hshift].
  { split; [reflexivity|]. intros k'. destruct (decide _); [lia | reflexivity]. }
  { intros i b Hi [Hlb Hb].
    assert (Hhere : protected (rd b (base + i)) = false).
    { rewrite Hb. destruct (decide _); [lia|]. apply Hunprot. lia. }
    assert (Hsrc : skip_protected_up (Z.to_nat (cols - (i + n))) b base cols (i + n) = i + n).
    { destruct (Z.to_nat (cols - (i + n))) as [|fuel]; [reflexivity|].
      cbn [skip_protected_up].
      assert (Hthere : protected (rd b (base + (i + n))) = false).
      { rewrite Hb. destruct (decide _); [lia|]. apply Hunprot. lia. }
      rewrite Hthere, andb_false_r. reflexivity. }
    rewrite Hhere. cbv zeta. rewrite Hsrc.
    destruct (Z.ltb_spec (i + n) cols); [|lia].
    split; [rewrite length_wr; exact Hlb|].
    intros k'. destruct (Z.eq_dec k' (base + i)) as [->|Hne].
    - rewrite rd_wr_eq by (rewrite Hlb; subst base cols; nia).
      rewrite Hb. destruct (decide (base + x ≤ base + (i + n) < base + i)); [lia|].
      destruct (decide (base + x ≤ base + i < base + (i + 1))); [|lia].
      f_equal. lia.
    - rewrite rd_wr_ne by congruence. rewrite Hb.
      destruct (decide (base + x ≤ k' < base + i)),
        (decide (base + x ≤ k' < base + (i + 1))); try reflexivity; lia. }
  set (shifted := for_up x (cols - n) _ _) in *.
  (* Clear vacated cells at end *)
  pose proof (for_up_inv
    (fun i b => length b = length (buffer (active t)) ∧
                ∀ k, rd b k = if decide (base + (cols - n) ≤ k < base + i)
                              then blank t else rd shifted k)
    (cols - n) cols
    (fun i buf => if protected (rd buf (base + i)) then buf
                  else wr buf (base + i) (blank t))
    shifted) as Hclear.
  cbv beta in Hclear. rewrite Z.max_r in Hclear by lia.
  destruct Hclear as [_ Hclear].
  { split; [exact Hlen1|]. intros k'. destruct (decide _); [lia | reflexivity]. }
  { intros i b Hi [Hlb Hb].
    assert (Hhere : protected (rd b (base + i)) = false).
    { rewrite Hb. destruct (decide _); [lia|]. rewrite Hshift.
      destruct (decide _); [lia|]. apply Hunprot. lia. }
    rewrite Hhere. split; [rewrite length_wr; exact Hlb|].
    intros k'. destruct (Z.eq_dec k' (base + i)) as [->|Hne].
    - rewrite rd_wr_eq by (rewrite Hlb; subst base cols; nia).
      destruct (decide (base + (cols - n) ≤ base + i < base + (i + 1))); [reflexivity | lia].
    - rewrite rd_wr_ne by congruence. rewrite Hb.
      destruct (decide (base + (cols - n) ≤ k' < base + i)),
        (decide (base + (cols - n) ≤ k' < base + (i + 1))); try reflexivity; lia. }
  rewrite Hclear, Hshift.
  repeat match goal with |- context [decide ?P] => destruct (decide P) end;
    try reflexivity; lia.
Qed.

Lemma insert_characters_cells t c0 count k :
  grid_ok t → cursor_in_grid t → unprotected_from_cursor t → 1 ≤ to_int16 count →
  let base := cursor_row (active t) * column_count t in
  let x := cursor_column (active t) in
  let n := span_cells t (to_int16 count) in
  rd (buffer (active (ozterm_line_insert_characters t c0 count))) k
  = if decide (base + x + n ≤ k < base + column_count t)
    then rd (buffer (active t)) (k - n)
    else if decide (base + x ≤ k < base + x + n)
         then blank t else rd (buffer (active t)) k.
Proof.
  intros (Hrows & Hcols0 & Hlen) Hcur Hfree Hcount base x n.
  pose proof Hcur as (Hr & Hc & _ & Hcols).
  unfold ozterm_line_insert_characters. cbv zeta.
  destruct (Z.geb_spec (cursor_column (active t)) (column_count t)); [lia|].
  rewrite (clamped_count t count Hcur Hcount). fold base x n.
  rewrite buffer_set_active_buffer.
  assert (Hn : 1 ≤ n ≤ column_count t - x) by (subst n x; unfold span_cells; lia).
  set (cols := column_count t) in *.
  assert (Hunprot : ∀ i, x ≤ i < cols → protected (rd (buffer (active t)) (base + i)) = false).
  { intros i Hi. exact (Hfree i Hi). }
  (* Shift cells to the right *)
  pose proof (for_down_inv
    (fun i b => length b = length (buffer (active t)) ∧
                ∀ k, rd b k = if decide (base + i < k < base + cols)
                              then rd (buffer (active t)) (k - n)
                              else rd (buffer (active t)) k)
    (cols - 1) (x + n)
    (fun i buf =>
       if protected (rd buf (base + i)) then buf else
       let src := skip_protected_down (Z.to_nat (i - n - x + 1)) buf base x (i - n) in
       if src >=? x then wr buf (base + i) (rd buf (base + src))
       else wr buf (base + i) (blank t))
    (buffer (active t))) as Hshift.
  cbv beta in Hshift. rewrite Z.min_r in Hshift by lia.
  destruct Hshift as [Hlen1 Hshift].
  { split; [reflexivity|]. intros k'. destruct (decide _); [lia | reflexivity]. }
  { intros i b Hi [Hlb Hb].
    assert (Hhere : protected (rd b (base + i)) = false).
    { rewrite Hb. destruct (decide _); [lia|]. apply Hunprot. lia. }
    assert (Hsrc : skip_protected_down (Z.to_nat (i - n - x + 1)) b base x (i - n) = i - n).
    { destruct (Z.to_nat (i - n - x + 1)) as [|fuel]; [reflexivity|].
      cbn [skip_protected_down].
      assert (Hthere : protected (rd b (base + (i - n))) = false).
      { rewrite Hb. destruct (decide _); [lia|]. apply Hunprot. lia. }
      rewrite Hthere, andb_false_r. reflexivity. }
    rewrite Hhere. cbv zeta. rewrite Hsrc.
    destruct (Z.geb_spec (i - n) x); [|lia].
    split; [rewrite length_wr; exact Hlb|].
    intros k'. destruct (Z.eq_dec k' (base + i)) as [->|Hne].
    - rewrite rd_wr_eq by (rewrite Hlb; subst base cols; nia).
      rewrite Hb. destruct (decide (base + i < base + (i - n) < base + cols)); [lia|].
      destruct (decide (base + (i - 1) < base + i < base + cols)); [|lia].
      f_equal. lia.
    - rewrite rd_wr_ne by congruence. rewrite Hb.
      destruct (decide (base + i < k' < base + cols)),
        (decide (base + (i - 1) < k' < base + cols)); try reflexivity; lia. }
  set (shifted := for_down (cols - 1) (x + n) _ _) in *.
  (* Fill inserted area *)
  pose proof (for_up_inv
    (fun i b => length b = length (buffer (active t)) ∧
                ∀ k, rd b k = if decide (base + x ≤ k < base + x + i)
                              then blank t else rd shifted k)
    0 n
    (fun i buf => if protected (rd buf (base + (x + i))) then buf
                  else wr buf (base + (x + i)) (blank t))
    shifted) as Hfill.
  cbv beta in Hfill. rewrite Z.max_r in Hfill by lia.
  destruct Hfill as [_ Hfill].
  { split; [exact Hlen1|]. intros k'. destruct (decide _); [lia | reflexivity]. }
  { intros i b Hi [Hlb Hb].
    assert (Hhere : protected (rd b (base + (x + i))) = false).
    { rewrite Hb. destruct (decide _); [lia|]. rewrite Hshift.
      destruct (decide _); [lia|]. apply Hunprot. lia. }
    rewrite Hhere. split; [rewrite length_wr; exact Hlb|].
    intros k'. destruct (Z.eq_dec k' (base + (x + i))) as [->|Hne].
    - rewrite rd_wr_eq by (rewrite Hlb; subst base cols; nia).
      destruct (decide (base + x ≤ base + (x + i) < base + x + (i + 1))); [reflexivity | lia].
    - rewrite rd_wr_ne by congruence. rewrite Hb.
      destruct (decide (base + x ≤ k' < base + x + i)),
        (decide (base + x ≤ k' < base + x + (i + 1))); try reflexivity; lia. }
  rewrite Hfill, Hshift.
  repeat match goal with |- context [decide ?P] => destruct (decide P) end;
    try reflexivity; lia.
Qed.

Lemma csi_dispatch_characters t ps private :
  csi_dispatch t ps private (ch "@")
  = ozterm_line_insert_characters t (ch " ") (line_count ps) ∧
  csi_dispatch t ps private (ch "P") = ozterm_line_delete_characters t (line_count ps).
Proof.
  unfold csi_dispatch, line_count. destruct (csi_params ps) as [p1 p2].
  split; reflexivity.
Qed.

Lemma cursor_kept_by_cells b t :
  cursor_row (active (set_active_buffer b t)) = cursor_row (active t) ∧
  cursor_column (active (set_active_buffer b t)) = cursor_column (active t).
Proof. unfold set_active_buffer. rewrite active_set_active. split; reflexivity. Qed.

Lemma cursor_kept_by_characters t c0 count :
  (cursor_row (active (ozterm_line_insert_characters t c0 count)) = cursor_row (active t) ∧
   cursor_column (active (ozterm_line_insert_characters t c0 count))
   = cursor_column (active t)) ∧
  (cursor_row (active (ozterm_line_delete_characters t count)) = cursor_row (active t) ∧
   cursor_column (active (ozterm_line_delete_characters t count))
   = cursor_column (active t)).
Proof.
  unfold ozterm_line_insert_characters, ozterm_line_delete_characters. cbv zeta.
  destruct (_ >=? _); [repeat split|]. split; apply cursor_kept_by_cells.
Qed.

Lemma column_count_characters t c0 count :
  column_count (ozterm_line_insert_characters t c0 count) = column_count t ∧
  column_count (ozterm_line_delete_characters t count) = column_count t.
Proof.
  unfold ozterm_line_insert_characters, ozterm_line_delete_characters. cbv zeta.
  destruct (_ >=? _); split; reflexivity.
Qed.



End Characters.

(** ** The sequences on a terminal of three rows and four columns *)

Lemma inverted_margins_on_grid :
  grid_ok (snd inverted_margins) ∧ margins_in_grid (snd inverted_margins) ∧
  scroll_bottom (snd inverted_margins) < scroll_top (snd inverted_margins).
Proof.
  unfold grid_ok, margins_in_grid.
  change (scroll_top (snd inverted_margins)) with 2.
  change (scroll_bottom (snd inverted_margins)) with 1.
  change (row_count (snd inverted_margins)) with 3.
  change (column_count (snd inverted_margins)) with 4.
  change (Z.of_nat (length (buffer (active (snd inverted_margins))))) with 12. lia.
Defined.

Lemma cursor_at_1_2_region : region_ok (snd cursor_at_1_2).
Proof.
  unfold region_ok.
  change (scroll_top (snd cursor_at_1_2)) with 0.
  change (scroll_bottom (snd cursor_at_1_2)) with 2.
  change (row_count (snd cursor_at_1_2)) with 3. lia.
Defined.

Lemma cursor_at_1_2_margins : margins_in_grid (snd cursor_at_1_2).
Proof.
  unfold margins_in_grid.
  change (scroll_top (snd cursor_at_1_2)) with 0.
  change (scroll_bottom (snd cursor_at_1_2)) with 2.
  change (row_count (snd cursor_at_1_2)) with 3. lia.
Defined.

Lemma cursor_at_1_2_unprotected : unprotected_from_cursor (snd cursor_at_1_2).
Proof.
  unfold unprotected_from_cursor.
  change (cursor_column (active (snd cursor_at_1_2))) with 2.
  change (column_count (snd cursor_at_1_2)) with 4.
  intros c Hc. assert (Hcases : c = 2 ∨ c = 3) by lia.
  destruct Hcases as [-> | ->]; reflexivity.
Defined.

Lemma reset_clears_the_active_screen_witness :
  cursor_row (active (snd (fold_left (@ozterm_put_character sample_header) [ESC; ch "c"]
                             (fst cursor_at_1_2, snd cursor_at_1_2)))) = 0.
Proof.
  exact (proj1 (proj2 (@reset_clears_the_active_screen sample_header (fst cursor_at_1_2)
                         (snd cursor_at_1_2) eq_refl (proj1 cursor_at_1_2_on_grid)))).
Defined.

Lemma create_gives_a_blank_screen_witness :
  cell_at (@ozterm_create sample_header 2 2) 1 1 = mkCell (ch " ") 10 false.
Proof.
  pose proof (@create_gives_a_blank_screen sample_header 2 2 ltac:(lia) ltac:(lia))
    as (_ & _ & _ & Hcells & _).
  apply Hcells; lia.
Defined.



Lemma select_graphic_rendition_witness :
  attr_protected (active (snd (fold_left (@ozterm_put_character sample_header)
                                 (csi_sequence false (param_string [0; 8; 1]) (ch "m"))
                                 (fst cursor_at_1_2, snd cursor_at_1_2)))) = true.
Proof.
  assert (Hall : Forall (fun n => 0 ≤ n ≤ 2147483647) [0; 8; 1]).
  { repeat constructor; lia. }
  exact (proj1 (@select_graphic_rendition sample_header (fst cursor_at_1_2)
                  (snd cursor_at_1_2) [0; 8; 1] eq_refl Hall ltac:(simpl; lia))).
Defined.







(** ** The cursor and the control characters *)

Lemma clamp16_nearest limit v :
  1 ≤ limit ≤ 32767 → -32768 ≤ v ≤ 32767 →
  clamp16 limit v = Z.max 0 (Z.min (limit - 1) v).
Proof.
  intros Hl Hv. unfold clamp16. rewrite to_int16_id by lia.
  destruct (Z.geb_spec v limit).
  - rewrite to_int16_id by lia. destruct (Z.ltb_spec (limit - 1) 0); lia.
  - destruct (Z.ltb_spec v 0); lia.
Qed.

(** X28: ozterm_move_cursor puts the cursor on the cell of the grid
    nearest to the row and the column it is given, tells the host the old
    and the new position when move_cursor is installed, and leaves the
    cells as they are. *)
Theorem move_cursor_lands_on_the_grid t row column :
  1 ≤ row_count t ≤ 32767 → 1 ≤ column_count t ≤ 32767 →
  -32768 ≤ row ≤ 32767 → -32768 ≤ column ≤ 32767 →
  let t' := ozterm_move_cursor t row column in
  let new_row := Z.max 0 (Z.min (row_count t - 1) row) in
  let new_column := Z.max 0 (Z.min (column_count t - 1) column) in
  cursor_row (active t') = new_row ∧ cursor_column (active t') = new_column ∧
  buffer (active t') = buffer (active t) ∧
  host_calls t'
  = host_calls t ++
    (if move_cursor_function t
     then [MoveCursor (cursor_row (active t)) (cursor_column (active t)) new_row new_column]
     else []).
Proof.
  intros Hrows Hcols Hrow Hcolumn t' new_row new_column. subst t'.
  rewrite cursor_row_move_cursor, cursor_column_move_cursor, buffer_move_cursor.
  rewrite !clamp16_nearest by lia.
  split; [reflexivity|]. split; [reflexivity|]. split; [reflexivity|].
  pose proof (clamp16_nearest (row_count t) row Hrows Hrow) as Hr.
  pose proof (clamp16_nearest (column_count t) column Hcols Hcolumn) as Hc.
  unfold clamp16 in Hr, Hc. cbv zeta in Hr, Hc.
  unfold ozterm_move_cursor. cbv zeta. rewrite Hr, Hc. fold new_row new_column.
  unfold call_host. cbn [host_calls set_active set_host_calls].
  destruct (move_cursor_function t); [reflexivity | rewrite app_nil_r; reflexivity].
Qed.

Lemma move_cursor_lands_on_the_grid_witness :
  cursor_row (active (ozterm_move_cursor (snd cursor_at_1_2) 7 (-3))) = 2 ∧
  cursor_column (active (ozterm_move_cursor (snd cursor_at_1_2) 7 (-3))) = 0.
Proof.
  pose proof (move_cursor_lands_on_the_grid (snd cursor_at_1_2) 7 (-3)) as Hmove.
  change (row_count (snd cursor_at_1_2)) with 3 in Hmove.
  change (column_count (snd cursor_at_1_2)) with 4 in Hmove.
  destruct (Hmove ltac:(lia) ltac:(lia) ltac:(lia) ltac:(lia)) as (Hr & Hc & _).
  split; [exact Hr | exact Hc].
Defined.

Section Controls.
Context `{OztermHeader}.

Lemma run_control p t c :
  parse_state p = STATE_NORMAL → c = LF ∨ c = CR ∨ c = BS →
  ozterm_put_character (p, t) c = (p, snap_to_live (ozterm_put_character_and_cursor t c)).
Proof.
  intros Hp Hc. unfold ozterm_put_character. rewrite Hp.
  destruct Hc as [-> | [-> | ->]]; reflexivity.
Qed.

(** X29: between two sequences, a line feed with the cursor on another
    row than scroll_bottom moves the cursor one row down, stopping at the
    last row, and keeps its column; a carriage return puts the cursor on
    column 0 of its row; a backspace moves it one column left, stopping
    at column 0.  None of them changes a cell or the scrollback. *)
Theorem control_characters_move_the_cursor p t c :
  parse_state p = STATE_NORMAL → cursor_in_grid t →
  c = LF ∨ c = CR ∨ c = BS →
  (c = LF → cursor_row (active t) ≠ scroll_bottom t) →
  let cy := cursor_row (active t) in
  let cx := cursor_column (active t) in
  let t' := snd (ozterm_put_character (p, t) c) in
  cursor_row (active t') = (if c =? LF then Z.min (cy + 1) (row_count t - 1) else cy) ∧
  cursor_column (active t')
  = (if c =? CR then 0 else if c =? BS then Z.max 0 (cx - 1) else cx) ∧
  buffer (active t') = buffer (active t) ∧
  scrollback t' = scrollback t ∧ scrollback_count t' = scrollback_count t.
Proof.
  intros Hp (Hr & Hc & Hrows & Hcols) Hcase Hlf cy cx t'.
  subst t'. rewrite (run_control p t c Hp Hcase). cbn [snd]. rewrite active_snap.
  destruct Hcase as [-> | [-> | ->]].
  - specialize (Hlf eq_refl). unfold ozterm_put_character_and_cursor.
    rewrite Z.eqb_refl. destruct (Z.eqb_spec (cursor_row (active t)) (scroll_bottom t));
      [contradiction|].
    rewrite cursor_row_move_cursor, cursor_column_move_cursor, buffer_move_cursor.
    rewrite clamp16_step by lia. rewrite clamp16_in_grid by lia.
    change (LF =? CR) with false. change (LF =? BS) with false.
    fold cy cx. repeat split. lia.
  - unfold ozterm_put_character_and_cursor.
    change (CR =? LF) with false. rewrite Z.eqb_refl.
    rewrite cursor_row_move_cursor, cursor_column_move_cursor, buffer_move_cursor.
    rewrite clamp16_in_grid by lia. rewrite clamp16_0 by lia.
    repeat split.
  - unfold ozterm_put_character_and_cursor.
    change (BS =? LF) with false. change (BS =? CR) with false. rewrite Z.eqb_refl.
    destruct (Z.gtb_spec (cursor_column (active t)) 0).
    + unfold ozterm_move_cursor_diff. cbv zeta.
      rewrite cursor_row_move_cursor, cursor_column_move_cursor, buffer_move_cursor.
      change (to_int16 0) with 0. change (to_int16 (-1)) with (-1).
      rewrite Z.add_0_r. rewrite clamp16_in_grid by lia. rewrite clamp16_step by lia.
      fold cy cx. repeat split. lia.
    + fold cy cx. repeat split. lia.
Qed.

Lemma step_abort p t consumed private c :
  collecting consumed private p → aborts_sequence c = true →
  ∃ p', ozterm_put_character (p, t) c = (p', snap_to_live t) ∧
        parse_state p' = STATE_NORMAL.
Proof.
  intros (Hp & _) Hc. unfold aborts_sequence in Hc.
  apply andb_true_iff in Hc as [Hc Hrange]. apply andb_true_iff in Hc as [Hparam Hmark].
  apply negb_true_iff in Hparam, Hmark.
  unfold ozterm_put_character. rewrite Hp. unfold parse_csi.
  rewrite Hmark.
  assert (Hd : ((c >=? ch "0") && (c <=? ch "9")) || (c =? ch ";") = false).
  { unfold is_param_byte, isdigit in Hparam.
    change (ch "0") with 48. change (ch "9") with 57.
    rewrite Z.geb_leb. exact Hparam. }
  rewrite Hd, Hrange.
  destruct (seq_len p <? 63); eexists; split; reflexivity.
Qed.

(** X30: sequences the terminal does not know are swallowed.  A control
    sequence cut short by a byte that is no parameter, no private marker
    and no final byte is dropped without any effect; so are the two-byte
    designations ESC ( and ESC ) with the byte that follows, and ESC #
    followed by any byte but '8'.  The parser is between two sequences
    afterwards and the terminal is as it was, apart from the view
    returning to the live screen. *)
Theorem unknown_sequences_are_swallowed p t :
  parse_state p = STATE_NORMAL →
  (∀ private ps c, forallb is_param_byte ps = true → aborts_sequence c = true →
     ∃ p', fold_left ozterm_put_character (csi_sequence private ps c) (p, t)
           = (p', snap_to_live t) ∧ parse_state p' = STATE_NORMAL) ∧
  (∀ c, ∃ p', fold_left ozterm_put_character [ESC; ch "("; c] (p, t) = (p', snap_to_live t)
              ∧ parse_state p' = STATE_NORMAL) ∧
  (∀ c, ∃ p', fold_left ozterm_put_character [ESC; ch ")"; c] (p, t) = (p', snap_to_live t)
              ∧ parse_state p' = STATE_NORMAL) ∧
  (∀ c, c ≠ ch "8" →
        ∃ p', fold_left ozterm_put_character [ESC; ch "#"; c] (p, t) = (p', snap_to_live t)
              ∧ parse_state p' = STATE_NORMAL).
Proof.
  intros Hp. split; [|split; [|split]].
  - intros private ps c Hps Hc. unfold csi_sequence. rewrite !fold_left_app.
    destruct (step_csi_open p t Hp) as (p1 & -> & Hp1).
    assert (Hmark : ∃ p2, fold_left ozterm_put_character (if private then [ch "?"] else [])
                            (p1, snap_to_live t) = (p2, snap_to_live t)
                          ∧ collecting [] private p2).
    { destruct private; cbn [fold_left].
      - destruct (step_csi_private p1 (snap_to_live t) [] false Hp1) as (p2 & -> & Hp2).
        rewrite snap_idempotent. eauto.
      - eauto. }
    destruct Hmark as (p2 & -> & Hp2).
    destruct (run_csi_collect ps p2 t [] private Hp2 Hps) as (p3 & -> & Hp3).
    cbn [fold_left].
    destruct (step_abort p3 (snap_to_live t) _ private c Hp3 Hc) as (p4 & -> & Hp4).
    rewrite snap_idempotent. eauto.
  - intros c. destruct p as [s ? ? ? ? ? ? ? ?]. simpl in Hp. subst s. eexists. split.
    + rewrite <- (snap_idempotent t). rewrite <- (snap_idempotent (snap_to_live t)) at 1.
      reflexivity.
    + reflexivity.
  - intros c. destruct p as [s ? ? ? ? ? ? ? ?]. simpl in Hp. subst s. eexists. split.
    + rewrite <- (snap_idempotent t). rewrite <- (snap_idempotent (snap_to_live t)) at 1.
      reflexivity.
    + reflexivity.
  - intros c Hc.
    assert (Hopen : ∃ p1, fold_left ozterm_put_character [ESC; ch "#"] (p, t)
                          = (p1, snap_to_live t) ∧ parse_state p1 = STATE_HASH).
    { destruct p as [s ? ? ? ? ? ? ? ?]. simpl in Hp. subst s. eexists.
      split; [rewrite <- (snap_idempotent t); reflexivity | reflexivity]. }
    destruct Hopen as (p1 & Hopen & Hp1).
    change [ESC; ch "#"; c] with ([ESC; ch "#"] ++ [c]). rewrite fold_left_app, Hopen.
    cbn [fold_left]. unfold ozterm_put_character. rewrite Hp1. unfold parse_hash.
    rewrite (proj2 (Z.eqb_neq _ _) Hc). rewrite snap_idempotent.
    eexists. split; reflexivity.
Qed.

End Controls.

Lemma control_characters_move_the_cursor_witness :
  cursor_row (active (snd (@ozterm_put_character sample_header
                             (fst cursor_at_1_2, snd cursor_at_1_2) LF))) = 2.
Proof.
  assert (Hlf : LF = LF → cursor_row (active (snd cursor_at_1_2))
                          ≠ scroll_bottom (snd cursor_at_1_2)).
  { intros _. vm_compute. discriminate. }
  exact (proj1 (@control_characters_move_the_cursor sample_header (fst cursor_at_1_2)
                  (snd cursor_at_1_2) LF eq_refl (proj2 cursor_at_1_2_on_grid)
                  (or_introl eq_refl) Hlf)).
Defined.

Lemma unknown_sequences_are_swallowed_witness :
  ∃ p', fold_left (@ozterm_put_character sample_header)
          (csi_sequence false (bytes "1") (ch " ")) (fst cursor_at_1_2, snd cursor_at_1_2)
        = (p', snap_to_live (snd cursor_at_1_2)) ∧ parse_state p' = STATE_NORMAL.
Proof.
  exact (proj1 (@unknown_sequences_are_swallowed sample_header (fst cursor_at_1_2)
                  (snd cursor_at_1_2) eq_refl) false (bytes "1") (ch " ") eq_refl eq_refl).
Defined.
